(** * netclient / nmproxy / proxy: the per-peer UDP relay helper

  A shallow embedding of [nmproxy/proxy/proxy_helper.go]:
  - [PeerConnectionStatus] (liveness from tunnel-interface statistics),
  - [GetFreeIp] (loopback address allocation by probing),
  - [toRemote] (the forwarding loop) and its per-datagram metric task,
  - [Reset] and [pullLatestConfig] (tear down and rebuild of an endpoint).

  What the Go file reaches outside the repository's sources at hand (the
  operating system's sockets, the iplib and wgctrl libraries, the packet
  transform, [Proxy.Start]) is taken as a parameter of the section that
  uses it; the registry's accessors and [Proxy.Close] are modelled from
  the specification and marked as such.  Effects are recorded as traces
  of events. *)

From Stdlib Require Import ZArith Lia List Bool Ascii.
From stdpp Require Import gmap strings list fin_maps.

Local Open Scope Z_scope.

(** ** Go scalars and strings *)

Module Go.

(** [int64]: two's complement, 64 bits, wrapping on overflow. *)
Definition wrap64 (z : Z) : Z := (z + 2 ^ 63) mod 2 ^ 64 - 2 ^ 63.

Definition add64 (a b : Z) : Z := wrap64 (a + b).

Definition int64_range (z : Z) : Prop := - 2 ^ 63 <= z < 2 ^ 63.

(** [strings.Contains s substr]. *)
Fixpoint strings_Contains (s substr : string) : bool :=
  if String.prefix substr s then true
  else match s with
       | EmptyString => false
       | String _ s' => strings_Contains s' substr
       end.

(** [time.Time] instants and [time.Duration]s, both in nanoseconds. *)
Definition Time := Z.
Definition Duration := Z.
Definition Minute : Duration := 60 * 1000000000.
Definition Time_Add (t : Time) (d : Duration) : Time := t + d.
(** [t.After(u)]: strictly later. *)
Definition Time_After (t u : Time) : bool := u <? t.

(** Go's [(T, error)] results. *)
Inductive result (A : Type) : Type :=
| Ok (a : A)
| Err (err : string).
Arguments Ok {A} a.
Arguments Err {A} err.

End Go.

Import Go.

(** ** LivenessMonitor: [PeerConnectionStatus] *)

Module Liveness.

(** [wgtypes.Peer], restricted to the fields the function reads.  The
    public key is carried as its [String()] rendering, which is what the
    code compares. *)
Record Peer := {
  PublicKey : string;
  LastHandshakeTime : Time;
  ReceiveBytes : Z;          (* int64 *)
  TransmitBytes : Z          (* int64 *)
}.

(** The test applied to the matching entry (line 216). *)
Definition connected (now : Time) (peer : Peer) : bool :=
  Time_After (LastHandshakeTime peer) (Time_Add now (- 3 * Minute))
  && (0 <? add64 (ReceiveBytes peer) (TransmitBytes peer)).

(** The [for _, peer := range ifacePeers] loop: the first entry whose key
    matches decides. *)
Fixpoint scan (now : Time) (peerPublicKey : string) (ifacePeers : list Peer) : bool :=
  match ifacePeers with
  | [] => false
  | peer :: rest =>
      if String.eqb (PublicKey peer) peerPublicKey
      then connected now peer
      else scan now peerPublicKey rest
  end.

(** [getPeers] is the outcome of [wg.GetPeers(config.GetCfg().GetIface().Name)],
    [now] the value of [time.Now()]. *)
Definition PeerConnectionStatus (getPeers : result (list Peer)) (now : Time)
    (peerPublicKey : string) : bool :=
  match getPeers with
  | Err _ => false
  | Ok ifacePeers => scan now peerPublicKey ifacePeers
  end.

(** The claim's reading: some entry of the list has the key and passes
    the two tests. *)
Definition some_entry_connected (getPeers : result (list Peer)) (now : Time)
    (peerPublicKey : string) : Prop :=
  exists ifacePeers peer,
    getPeers = Ok ifacePeers /\ In peer ifacePeers /\
    PublicKey peer = peerPublicKey /\
    now - 3 * Minute < LastHandshakeTime peer /\
    0 < add64 (ReceiveBytes peer) (TransmitBytes peer).

(** What the loop does: the first entry with the key passes the tests. *)
Definition first_entry_connected (getPeers : result (list Peer)) (now : Time)
    (peerPublicKey : string) : Prop :=
  exists before peer after,
    getPeers = Ok (before ++ peer :: after) /\
    Forall (fun q => PublicKey q <> peerPublicKey) before /\
    PublicKey peer = peerPublicKey /\
    now - 3 * Minute < LastHandshakeTime peer /\
    0 < add64 (ReceiveBytes peer) (TransmitBytes peer).

Definition absent (peerPublicKey : string) (ifacePeers : list Peer) : Prop :=
  Forall (fun q => PublicKey q <> peerPublicKey) ifacePeers.

(** A WireGuard device lists a peer once: the public keys of a fetched
    peer list are pairwise distinct. *)
Definition distinct_keys (getPeers : result (list Peer)) : Prop :=
  match getPeers with
  | Ok ifacePeers => List.NoDup (List.map PublicKey ifacePeers)
  | Err _ => True
  end.

End Liveness.


(** ** AddressAllocator: [GetFreeIp] *)

Module Allocator.

(** What a call of [GetFreeIp] does to the outside world, in order. *)
Inductive Event (IP Conn : Type) : Type :=
| EvLog (level : Z) (msg : list string)
| EvRunCmd (cmd : string)
| EvDial (laddr raddr : IP * Z)
| EvClose (conn : Conn).
Arguments EvLog {IP Conn} level msg.
Arguments EvRunCmd {IP Conn} cmd.
Arguments EvDial {IP Conn} laddr raddr.
Arguments EvClose {IP Conn} conn.

(** The three error texts on which the probe moves to the next address
    (lines 189-190). *)
Definition address_unavailable (err : string) : bool :=
  strings_Contains err "can't assign requested address"
  || strings_Contains err "address already in use"
  || strings_Contains err "cannot assign requested address".

Section GetFreeIp.

Context {IP Net4 Conn : Type}.

(** [net.ParseCIDR]: the error it returns, if any. *)
Variable ParseCIDR : string -> option string.
(** [iplib.Net4FromStr], [Net4.FirstAddress], [Net4.NextIP] (a Go
    [(net.IP, error)] pair) and [net.IP.String]. *)
Variable Net4FromStr : string -> Net4.
Variable FirstAddress : Net4 -> IP.
Variable NextIP : Net4 -> IP -> IP * option string.
Variable IP_String : IP -> string.
(** [net.ParseIP] and [net.DialUDP "udp" laddr raddr]. *)
Variable ParseIP : string -> IP.
Variable DialUDP : IP * Z -> IP * Z -> result Conn.
(** [runtime.GOOS], [common.RunCmd] (its error, if any) and the constant
    [models.NmProxyPort]. *)
Variable GOOS : string.
Variable RunCmd : string -> option string.
Variable NmProxyPort : Z.

(** Lines 173-178: the loopback alias is registered on darwin only, and a
    failure is logged and otherwise ignored. *)
Definition register_alias (newAddrs : IP) : list (Event IP Conn) :=
  if String.eqb GOOS "darwin" then
    let cmd := "ifconfig lo0 alias " +:+ IP_String newAddrs +:+ " 255.255.255.255" in
    EvRunCmd cmd ::
    match RunCmd cmd with
    | Some err => [EvLog 1 ["Failed to add alias: "; err]]
    | None => []
    end
  else [].

Definition probe_laddr (newAddrs : IP) : IP * Z :=
  (ParseIP (IP_String newAddrs), NmProxyPort).

Definition probe_raddr (dstPort : Z) : IP * Z :=
  (ParseIP "127.0.0.1", dstPort).

(** The [for { ... }] loop of lines 172-205, one iteration per unit of
    fuel; [None] when the fuel runs out before the loop returns. *)
Fixpoint probe (fuel : nat) (net4 : Net4) (dstPort : Z) (newAddrs : IP)
    : option (result string * list (Event IP Conn)) :=
  match fuel with
  | O => None
  | S fuel' =>
      let laddr := probe_laddr newAddrs in
      let raddr := probe_raddr dstPort in
      let pre := register_alias newAddrs ++ [EvDial laddr raddr] in
      match DialUDP laddr raddr with
      | Err err =>
          let pre := pre ++ [EvLog 1 ["----> GetFreeIP err: "; err]] in
          if address_unavailable err then
            match NextIP net4 newAddrs with
            | (_, Some nErr) => Some (Err nErr, pre)
            | (next, None) =>
                match probe fuel' net4 dstPort next with
                | Some (r, tr) => Some (r, pre ++ tr)
                | None => None
                end
            end
          else Some (Err err, pre)
      | Ok conn => Some (Ok (IP_String newAddrs), pre ++ [EvClose conn])
      end
  end.

Definition GetFreeIp (fuel : nat) (cidrAddr : string) (dstPort : Z)
    : option (result string * list (Event IP Conn)) :=
  if dstPort =? 0 then Some (Err "dst port should be set", [])
  else
    match ParseCIDR cidrAddr with
    | Some err => Some (Err err, [EvLog 1 ["UniqueAddress encountered  an error"]])
    | None =>
        let net4 := Net4FromStr cidrAddr in
        probe fuel net4 dstPort (FirstAddress net4)
    end.

(** The events of one probe up to its dial, and the log line of a dial
    that failed. *)
Definition probe_events (dstPort : Z) (a : IP) : list (Event IP Conn) :=
  register_alias a ++ [EvDial (probe_laddr a) (probe_raddr dstPort)].

Definition dial_failed (err : string) : Event IP Conn :=
  EvLog 1 ["----> GetFreeIP err: "; err].

(** The loop as a relation: from candidate [a] it returns [r] and leaves
    the trace [tr].  The dial succeeds and the address is returned; or it
    fails with an error that is not of the address-unavailable kind,
    which is returned; or it fails with one that is, and then either
    [NextIP] fails, and its error is returned, or the loop goes round
    again from the next address. *)
Inductive probes (net4 : Net4) (dstPort : Z)
    : IP -> result string -> list (Event IP Conn) -> Prop :=
| probes_free (a : IP) (conn : Conn) :
    DialUDP (probe_laddr a) (probe_raddr dstPort) = Ok conn ->
    probes net4 dstPort a (Ok (IP_String a)) (probe_events dstPort a ++ [EvClose conn])
| probes_fatal (a : IP) (err : string) :
    DialUDP (probe_laddr a) (probe_raddr dstPort) = Err err ->
    address_unavailable err = false ->
    probes net4 dstPort a (Err err) (probe_events dstPort a ++ [dial_failed err])
| probes_exhausted (a b : IP) (err nErr : string) :
    DialUDP (probe_laddr a) (probe_raddr dstPort) = Err err ->
    address_unavailable err = true ->
    NextIP net4 a = (b, Some nErr) ->
    probes net4 dstPort a (Err nErr) (probe_events dstPort a ++ [dial_failed err])
| probes_next (a b : IP) (err : string) (r : result string) (tr : list (Event IP Conn)) :
    DialUDP (probe_laddr a) (probe_raddr dstPort) = Err err ->
    address_unavailable err = true ->
    NextIP net4 a = (b, None) ->
    probes net4 dstPort b r tr ->
    probes net4 dstPort a r ((probe_events dstPort a ++ [dial_failed err]) ++ tr).

(** iplib's [Net4.Contains]. *)
Variable Contains : Net4 -> IP -> bool.

(** A returned address is the rendering of an address of the block. *)
Definition within (net4 : Net4) (r : result string) : Prop :=
  match r with
  | Ok s => exists a, s = IP_String a /\ Contains net4 a = true
  | Err _ => True
  end.

Definition is_log (e : Event IP Conn) : Prop :=
  exists level msg, e = EvLog level msg.

(** Every dial of the trace goes from [NmProxyPort] to [127.0.0.1:dstPort]. *)
Definition dial_ports_fixed (dstPort : Z) (e : Event IP Conn) : Prop :=
  match e with
  | EvDial laddr raddr => snd laddr = NmProxyPort /\ raddr = probe_raddr dstPort
  | _ => True
  end.

End GetFreeIp.

End Allocator.


(** ** An IPv4 instance of the allocator's parameters

    Dotted-quad addresses as 32-bit numbers ([None] is Go's nil [net.IP]),
    networks as a base address and a mask length, after iplib's [Net4];
    the operating system is a list of local addresses that are taken and a
    list of local addresses the process may not use. *)

Module IPv4.

Definition IP := option Z.
Definition Net4 := option (Z * Z).
Definition Conn := (IP * Z)%type.

Definition digit (c : ascii) : option Z :=
  let n := Z.of_nat (nat_of_ascii c) in
  if (48 <=? n) && (n <=? 57) then Some (n - 48) else None.

Fixpoint parse_dec_from (acc : Z) (s : string) : option Z :=
  match s with
  | EmptyString => Some acc
  | String c s' =>
      match digit c with
      | Some d => parse_dec_from (10 * acc + d) s'
      | None => None
      end
  end.

Definition parse_dec (s : string) : option Z :=
  match s with
  | EmptyString => None
  | _ => parse_dec_from 0 s
  end.

Fixpoint split_on (sep : ascii) (cur s : string) : list string :=
  match s with
  | EmptyString => [cur]
  | String c s' =>
      if Ascii.eqb c sep then cur :: split_on sep EmptyString s'
      else split_on sep (cur +:+ String c EmptyString) s'
  end.

Definition octet (s : string) : option Z :=
  match parse_dec s with
  | Some n => if n <=? 255 then Some n else None
  | None => None
  end.

Definition ParseIP (s : string) : IP :=
  match split_on "."%char EmptyString s with
  | [a; b; c; d] =>
      match octet a, octet b, octet c, octet d with
      | Some a, Some b, Some c, Some d =>
          Some (a * 2 ^ 24 + b * 2 ^ 16 + c * 2 ^ 8 + d)
      | _, _, _, _ => None
      end
  | _ => None
  end.

Definition digit_char (d : Z) : string :=
  String (ascii_of_nat (Z.to_nat (48 + d))) EmptyString.

Definition octet_String (n : Z) : string :=
  (if 100 <=? n then digit_char (n / 100) else EmptyString)
  +:+ (if 10 <=? n then digit_char (n / 10 mod 10) else EmptyString)
  +:+ digit_char (n mod 10).

Definition IP_String (ip : IP) : string :=
  match ip with
  | None => "<nil>"
  | Some a =>
      octet_String (a / 2 ^ 24 mod 256) +:+ "." +:+
      octet_String (a / 2 ^ 16 mod 256) +:+ "." +:+
      octet_String (a / 2 ^ 8 mod 256) +:+ "." +:+
      octet_String (a mod 256)
  end.

Definition parse_cidr (s : string) : option (Z * Z) :=
  match split_on "/"%char EmptyString s with
  | [ip; len] =>
      match ParseIP ip, parse_dec len with
      | Some a, Some l =>
          if l <=? 32 then Some (a / 2 ^ (32 - l) * 2 ^ (32 - l), l) else None
      | _, _ => None
      end
  | _ => None
  end.

Definition ParseCIDR (s : string) : option string :=
  match parse_cidr s with
  | Some _ => None
  | None => Some ("invalid CIDR address: " +:+ s)
  end.

Definition Net4FromStr (s : string) : Net4 := parse_cidr s.

Definition Contains (net4 : Net4) (ip : IP) : bool :=
  match net4, ip with
  | Some (base, len), Some a => (base <=? a) && (a <? base + 2 ^ (32 - len))
  | _, _ => false
  end.

Definition BroadcastAddress (net4 : Net4) : IP :=
  match net4 with
  | Some (base, len) => Some (base + 2 ^ (32 - len) - 1)
  | None => None
  end.

Definition FirstAddress (net4 : Net4) : IP :=
  match net4 with
  | Some (base, len) => if 31 <=? len then Some base else Some (base + 1)
  | None => None
  end.

Definition NextIP (net4 : Net4) (ip : IP) : IP * option string :=
  match ip with
  | Some a =>
      if Contains net4 ip && Contains net4 (Some (a + 1)) then
        match BroadcastAddress net4 with
        | Some b =>
            if a + 1 =? b
            then (Some (a + 1), Some "address is the broadcast address of this netblock (and not considered usable)")
            else (Some (a + 1), None)
        | None => (None, Some "address is not a part of this netblock")
        end
      else (None, Some "address is not a part of this netblock")
  | None => (None, Some "address is not a part of this netblock")
  end.

(** The operating system: a dial from an address of [taken] fails with
    EADDRINUSE, from an address of [forbidden] with EACCES, and succeeds
    otherwise. *)
Definition mem (ip : IP) (l : list Z) : bool :=
  match ip with
  | Some a => existsb (Z.eqb a) l
  | None => false
  end.

Definition DialUDP (taken forbidden : list Z) (laddr raddr : IP * Z) : result Conn :=
  if mem (fst laddr) taken then Err "dial udp: bind: address already in use"
  else if mem (fst laddr) forbidden then Err "dial udp: bind: permission denied"
  else Ok laddr.

Definition RunCmd (cmd : string) : option string := None.

Definition NmProxyPort : Z := 51722.

(** How many addresses lie between [ip] and the end of the block. *)
Definition rank (net4 : Net4) (ip : IP) : nat :=
  match net4, ip with
  | Some (base, len), Some a => Z.to_nat (base + 2 ^ (32 - len) - a)
  | _, _ => O
  end.

Definition GetFreeIp (taken forbidden : list Z) (GOOS : string) :=
  Allocator.GetFreeIp ParseCIDR Net4FromStr FirstAddress NextIP IP_String ParseIP
    (DialUDP taken forbidden) GOOS RunCmd NmProxyPort.

End IPv4.


(** ** The data model: [models.Proxy], [models.Conn], [models.RemotePeer] *)

Module models.

(** [models.Proxy], the per-peer configuration carried by a [Proxy]
    (the fields this file reads).  Keys and addresses are carried as
    their [String()] renderings, connections by identity; [None] is nil. *)
Record Proxy := {
  PeerPublicKey : string;
  PeerEndpoint : option string;
  TurnConn : option nat;
  ProxyStatus : bool;
  UsingTurn : bool
}.

(** [models.Conn], a registry entry.  [ResetConn] and [StopConn] are
    method values bound to a [Proxy] object; they are carried as the
    identity of that object.  [ServerMap] is a [map[string]struct{}]. *)
Record Conn := {
  Key : string;
  Config : Proxy;
  LocalConn : option nat;
  ResetConn : option nat;
  StopConn : option nat;
  ServerMap : gset string
}.

(** [models.RemotePeer], the hash-indexed entry. *)
Record RemotePeer := {
  PeerKey : string;
  RemoteLocalConn : option nat
}.

Definition zeroProxy : Proxy :=
  {| PeerPublicKey := ""; PeerEndpoint := None; TurnConn := None;
     ProxyStatus := false; UsingTurn := false |}.

(** [models.Conn{}] *)
Definition zeroConn : Conn :=
  {| Key := ""; Config := zeroProxy; LocalConn := None; ResetConn := None;
     StopConn := None; ServerMap := ∅ |}.

Definition zeroRemotePeer : RemotePeer :=
  {| PeerKey := ""; RemoteLocalConn := None |}.

End models.

(** ** The peer registry ([nmproxy/config]) *)

Module config.

Record Registry := {
  proxyPeerMap : gmap string models.Conn;
  peerHashMap : gmap string models.RemotePeer
}.

(** Modelled from the spec: [config.GetCfg().GetPeer], whose body is not
    part of this file's sources; section 4.4, "GetByKey(pubkey) ->
    (entry, found)": a lookup, with Go's zero value on a miss. *)
Definition GetPeer (r : Registry) (peerPubKey : string) : models.Conn * bool :=
  match proxyPeerMap r !! peerPubKey with
  | Some c => (c, true)
  | None => (models.zeroConn, false)
  end.

(** Modelled from the spec: [GetPeerInfoByHash], section 4.4,
    "GetByHash(hash) -> (entry, found)". *)
Definition GetPeerInfoByHash (r : Registry) (peerKeyHash : string)
    : models.RemotePeer * bool :=
  match peerHashMap r !! peerKeyHash with
  | Some c => (c, true)
  | None => (models.zeroRemotePeer, false)
  end.

(** Modelled from the spec: [SavePeer], section 4.4, "Save(entry)": an
    upsert of the key-indexed entry, under the entry's own key. *)
Definition SavePeer (connConf : models.Conn) (r : Registry) : Registry :=
  {| proxyPeerMap := <[models.Key connConf := connConf]> (proxyPeerMap r);
     peerHashMap := peerHashMap r |}.

(** Modelled from the spec: [SavePeerByHash], section 4.4,
    "SaveByHash(entry)": an upsert of the hash-indexed entry, under the
    hash of the entry's key. *)
Definition SavePeerByHash (ConvPeerKeyToHash : string -> string)
    (peerInfo : models.RemotePeer) (r : Registry) : Registry :=
  {| proxyPeerMap := proxyPeerMap r;
     peerHashMap :=
       <[ConvPeerKeyToHash (models.PeerKey peerInfo) := peerInfo]> (peerHashMap r) |}.

End config.

(** ** The metrics sink ([netmaker/metrics])

    A package of another repository; its two calls are modelled after
    the specification's section 6, "GetMetric(server, peerKey) -> Metric,
    UpdateMetric(server, peerKey, metric): read-modify-write of per-peer
    traffic counters", as a lookup and an upsert on a map. *)

Module metrics.

Record Metric := {
  LastRecordedLatency : Z;
  TrafficSent : Z;           (* int64 *)
  TrafficRecieved : Z        (* int64 *)
}.

Definition zeroMetric : Metric :=
  {| LastRecordedLatency := 0; TrafficSent := 0; TrafficRecieved := 0 |}.

(** Counters per (server, peer key). *)
Abbreviation Store := (gmap (string * string) Metric).

(** [metrics.GetMetric(server, peerKey)]: a copy of the stored value, the
    zero [Metric] when there is none. *)
Definition GetMetric (st : Store) (server peerKey : string) : Metric :=
  default zeroMetric (st !! (server, peerKey)).

(** [metrics.UpdateMetric(server, peerKey, &metric)] *)
Definition UpdateMetric (server peerKey : string) (metric : Metric) (st : Store) : Store :=
  <[(server, peerKey) := metric]> st.

(** [metric.TrafficSent += int64(n)] *)
Definition add_sent (metric : Metric) (n : Z) : Metric :=
  {| LastRecordedLatency := LastRecordedLatency metric;
     TrafficSent := add64 (TrafficSent metric) n;
     TrafficRecieved := TrafficRecieved metric |}.

Definition sent (st : Store) (server peerKey : string) : Z :=
  TrafficSent (GetMetric st server peerKey).

End metrics.


(** ** RelayEndpoint: the forwarding loop [toRemote] *)

Module proxy.

(** The [Proxy] struct.  [LocalConn] is carried by identity, [RemoteConn]
    as the rendering of the address; [Cancelled] is the state of the
    context [Ctx] that [Cancel] cancels; [Id] is the identity of the
    object (method values such as [p.Reset] are bound to it). *)
Record Proxy := {
  Id : nat;
  Config : models.Proxy;
  RemoteConn : option string;
  LocalConn : option nat;
  Cancelled : bool
}.

(** What the environment does during one iteration of the loop: whether
    [p.Ctx.Done()] is ready when the [select] runs, what
    [p.LocalConn.Read] returns, and the error of the write that follows,
    if any. *)
Inductive ReadResult :=
| ReadOk (datagram : list Byte.byte)
| ReadErr (err : string).

Record Tick := {
  ctx_done : bool;
  read : ReadResult;
  write_err : option string
}.

Inductive Event :=
| EvLog (level : Z) (msg : list string)
| EvGo (n : Z) (cfg : models.Proxy)
| EvTurnWrite (turn : nat) (data : list Byte.byte) (raddr : option string)
| EvUplinkWrite (data : list Byte.byte) (raddr : option string).

Inductive Outcome :=
| Returned
| Running (buf : list Byte.byte)
| Panicked.

(** [conn.Read(buf)] on a datagram: the first [n] bytes of [buf] are
    overwritten, [n] being the datagram's length or the buffer's if that
    is smaller. *)
Definition conn_Read (buf datagram : list Byte.byte) : list Byte.byte * Z :=
  let n := Nat.min (length datagram) (length buf) in
  (firstn n datagram ++ skipn n buf, Z.of_nat n).

(** [buf[:n]], the buffer's capacity being taken to be its length; out
    of range is a run-time panic ([None]). *)
Definition slice_to (buf : list Byte.byte) (n : Z) : option (list Byte.byte) :=
  if (0 <=? n) && (n <=? Z.of_nat (length buf))
  then Some (firstn (Z.to_nat n) buf)
  else None.

Definition newline : string := String (ascii_of_nat 10) EmptyString.

Section toRemote.

(** [packet.ProcessPacketBeforeSending], with its four results. *)
Variable ProcessPacketBeforeSending :
  list Byte.byte -> Z -> string -> string -> list Byte.byte * Z * string * string.
(** [config.GetCfg().GetDevicePubKey().String()],
    [nc_config.Netclient().Debug], and the renderings of the two local
    addresses the debug line prints. *)
Variable DevicePubKey : string.
Variable Debug : bool.
Variable LocalAddr ServerAddr : string.

Definition addr_String (a : option string) : string :=
  match a with Some s => s | None => "<nil>" end.

(** Lines 62-84, for a datagram of [n] bytes in [buf].  [err] is the
    variable assigned by [Read] on line 44; nothing assigns it between
    there and the test of line 66.  The result is the buffer the next
    iteration reads into ([buf] is reassigned on line 64) and the events,
    or [None] for a panic. *)
Definition forward (p : Proxy) (buf : list Byte.byte) (n : Z) (err : option string)
    (write_err : option string) : option (list Byte.byte) * list Event :=
  let cfg := Config p in
  let '(buf, n, srcPeerKeyHash, dstPeerKeyHash, evs1) :=
    if models.ProxyStatus cfg || models.UsingTurn cfg then
      let '(buf', n', src, dst) :=
        ProcessPacketBeforeSending buf n DevicePubKey (models.PeerPublicKey cfg) in
      (buf', n', src, dst,
       match err with
       | Some e => [EvLog 1 ["failed to process pkt before sending: "; e]]
       | None => []
       end)
    else (buf, n, EmptyString, EmptyString, []) in
  let evs2 :=
    if Debug then
      [EvLog 3 ["PROXING TO REMOTE!!!---> " +:+ LocalAddr +:+ " >>>>> " +:+ ServerAddr
                +:+ " >>>>> " +:+ addr_String (RemoteConn p)
                +:+ " [[ SrcPeerHash: " +:+ srcPeerKeyHash
                +:+ ", DstPeerHash: " +:+ dstPeerKeyHash +:+ " ]]" +:+ newline]]
    else [] in
  if models.UsingTurn cfg then
    match models.TurnConn cfg, slice_to buf n with
    | Some turn, Some data =>
        (Some buf,
         evs1 ++ evs2 ++ EvTurnWrite turn data (RemoteConn p) ::
         match write_err with
         | Some e => [EvLog 0 ["failed to write to remote conn: "; e]]
         | None => []
         end)
    | _, _ => (None, evs1 ++ evs2)
    end
  else
    match slice_to buf n with
    | Some data =>
        (Some buf,
         evs1 ++ evs2 ++ EvUplinkWrite data (RemoteConn p) ::
         match write_err with
         | Some e => [EvLog 1 ["Failed to send to remote: "; e]]
         | None => []
         end)
    | None => (None, evs1 ++ evs2)
    end.

(** Lines 38-87: the loop, driven by what the environment does at each
    iteration.  When the script is used up the loop is still running,
    blocked in the next [Read]. *)
Fixpoint toRemote_loop (p : Proxy) (buf : list Byte.byte) (script : list Tick)
    : Outcome * list Event :=
  match script with
  | [] => (Running buf, [])
  | t :: rest =>
      if ctx_done t then (Returned, [])
      else
        match read t with
        | ReadErr e => (Returned, [EvLog 1 ["error reading: "; e]])
        | ReadOk datagram =>
            let '(buf, n) := conn_Read buf datagram in
            let spawn := EvGo n (Config p) in
            match forward p buf n None (write_err t) with
            | (Some buf, evs) =>
                let '(o, tl) := toRemote_loop p buf rest in
                (o, spawn :: evs ++ tl)
            | (None, evs) => (Panicked, spawn :: evs)
            end
        end
  end.

(** Lines 33-89: the loop, entered with a fresh buffer of 65000 bytes. *)
Definition toRemote (p : Proxy) (script : list Tick) : Outcome * list Event :=
  toRemote_loop p (repeat Byte.x00 (Z.to_nat 65000)) script.

End toRemote.

(** *** What a trace of the loop says *)

Definition written (e : Event) : option (list Byte.byte) :=
  match e with
  | EvTurnWrite _ data _ | EvUplinkWrite data _ => Some data
  | _ => None
  end.

(** The datagrams handed to the TURN transport or the shared uplink, in
    order. *)
Definition writes (evs : list Event) : list (list Byte.byte) := omap written evs.

(** The log line of line 67. *)
Definition is_transform_log (e : Event) : bool :=
  match e with
  | EvLog _ (m :: _) => String.eqb m "failed to process pkt before sending: "
  | _ => false
  end.

(** The log line of a failed write (line 77 when using TURN, else line 83). *)
Definition write_failure_log (p : Proxy) (e : string) : Event :=
  if models.UsingTurn (Config p)
  then EvLog 0 ["failed to write to remote conn: "; e]
  else EvLog 1 ["Failed to send to remote: "; e].

(** The transform is run for this proxy (line 63). *)
Definition transforms (p : Proxy) : bool :=
  models.ProxyStatus (Config p) || models.UsingTurn (Config p).

(** The write path has what it needs: a TURN transport when TURN is used. *)
Definition has_transport (p : Proxy) : bool :=
  if models.UsingTurn (Config p)
  then match models.TurnConn (Config p) with Some _ => true | None => false end
  else true.

(** Modelled from the spec: [packet.ProcessPacketBeforeSending] is not
    part of the sources, and the loop has no means of its own to see it
    fail (the call assigns no error; the [err] tested on line 66 is the
    one of [Read]).  Section 6 gives the transform four results and no
    error, "-> (newBuffer, newLength, srcHash, dstHash)", and section 7
    says that a "packet-transform failure degrades to forwarding the
    untransformed datagram": a call that fails hands buffer and length
    back as it got them.  [fails] says on which buffer and length the
    transform [T] fails. *)
Definition degrades_to_untransformed
    (T : list Byte.byte -> Z -> string -> string -> list Byte.byte * Z * string * string)
    (fails : list Byte.byte -> Z -> Prop) : Prop :=
  forall (buf : list Byte.byte) (n : Z) (src dst : string),
    fails buf n -> fst (fst (T buf n src dst)) = (buf, n).

(** The buffer and length the write of lines 74-84 uses: the transform's
    when it is run, the read's otherwise. *)
Definition outgoing
    (T : list Byte.byte -> Z -> string -> string -> list Byte.byte * Z * string * string)
    (DevicePubKey : string) (p : Proxy) (buf : list Byte.byte) (n : Z)
    : list Byte.byte * Z :=
  if transforms p then
    let '(buf', n', _, _) := T buf n DevicePubKey (models.PeerPublicKey (Config p)) in
    (buf', n')
  else (buf, n).

(** *** The per-datagram metric task (lines 49-60) *)

(** The goroutine's body, run without interruption: the registry entry is
    looked up when relaying is on, and every server of its [ServerMap]
    gets [n] added to the peer's [TrafficSent]. *)
Definition bump (peerKey : string) (n : Z) (st : metrics.Store) (server : string)
    : metrics.Store :=
  metrics.UpdateMetric server peerKey
    (metrics.add_sent (metrics.GetMetric st server peerKey) n) st.

Definition peerConnCfg (reg : config.Registry) (p : Proxy) (cfg : models.Proxy)
    : models.Conn :=
  if models.ProxyStatus (Config p)
  then fst (config.GetPeer reg (models.PeerPublicKey cfg))
  else models.zeroConn.

Definition metric_task (reg : config.Registry) (p : Proxy) (n : Z)
    (cfg : models.Proxy) (st : metrics.Store) : metrics.Store :=
  foldl (bump (models.PeerPublicKey cfg) n) st
    (elements (models.ServerMap (peerConnCfg reg p cfg))).

(** The same body as the scheduler sees it: [GetMetric] and
    [UpdateMetric] are two separate calls, and other goroutines may run
    between them.  A task is the servers still to visit and, between the
    two calls, the copy [GetMetric] returned. *)
Record Task := {
  task_n : Z;
  task_key : string;
  task_servers : list string;
  task_metric : option metrics.Metric
}.

Definition spawn (reg : config.Registry) (p : Proxy) (n : Z) (cfg : models.Proxy) : Task :=
  {| task_n := n; task_key := models.PeerPublicKey cfg;
     task_servers := elements (models.ServerMap (peerConnCfg reg p cfg));
     task_metric := None |}.

Definition task_step (st : metrics.Store) (t : Task) : metrics.Store * Task :=
  match task_servers t with
  | [] => (st, t)
  | server :: rest =>
      match task_metric t with
      | None =>
          (st, {| task_n := task_n t; task_key := task_key t;
                  task_servers := server :: rest;
                  task_metric := Some (metrics.GetMetric st server (task_key t)) |})
      | Some metric =>
          (metrics.UpdateMetric server (task_key t)
             (metrics.add_sent metric (task_n t)) st,
           {| task_n := task_n t; task_key := task_key t;
              task_servers := rest; task_metric := None |})
      end
  end.

(** A schedule names, step by step, the task that runs next. *)
Fixpoint run (schedule : list nat) (st : metrics.Store) (tasks : list Task)
    : metrics.Store * list Task :=
  match schedule with
  | [] => (st, tasks)
  | i :: schedule' =>
      match tasks !! i with
      | Some t =>
          let '(st', t') := task_step st t in
          run schedule' st' (<[i := t']> tasks)
      | None => run schedule' st tasks
      end
  end.

Definition finished (t : Task) : bool :=
  match task_servers t with [] => true | _ => false end.

(** One task run to its end with nothing in between. *)
Fixpoint run_alone (fuel : nat) (st : metrics.Store) (t : Task) : metrics.Store * Task :=
  match fuel with
  | O => (st, t)
  | S fuel' => let '(st', t') := task_step st t in run_alone fuel' st' t'
  end.

(** The claim's reading of the counter, for the tasks of the datagrams
    read so far (their lengths in [lengths]): however the tasks are
    scheduled, the counter of [server] never goes down, and once every
    task has finished it has grown by the sum of the lengths. *)
Definition counts_every_datagram (reg : config.Registry) (p : Proxy)
    (cfg : models.Proxy) (server : string) (lengths : list Z) : Prop :=
  let key := models.PeerPublicKey cfg in
  let tasks := map (fun n => spawn reg p n cfg) lengths in
  forall (schedule more : list nat) (st : metrics.Store),
    metrics.sent (fst (run schedule st tasks)) server key
      <= metrics.sent (fst (run (schedule ++ more) st tasks)) server key /\
    (forallb finished (snd (run schedule st tasks)) = true ->
     metrics.sent (fst (run schedule st tasks)) server key
       = metrics.sent st server key + foldr Z.add 0 lengths).

(** *** [Reset] and [pullLatestConfig] *)

(** A Go channel of empty structs: its capacity, the number of values
    queued, and the number of receivers parked on it. *)
Record Chan := {
  chan_cap : nat;
  chan_len : nat;
  chan_receivers : nat
}.

(** [ch <- struct{}{}] outside a [select]: the value goes to a parked
    receiver if there is one, into the buffer if it has room, and
    otherwise the sender parks ([None]). *)
Definition chan_send (ch : Chan) : option Chan :=
  match chan_receivers ch with
  | S r => Some {| chan_cap := chan_cap ch; chan_len := chan_len ch; chan_receivers := r |}
  | O =>
      if (chan_len ch <? chan_cap ch)%nat
      then Some {| chan_cap := chan_cap ch; chan_len := S (chan_len ch); chan_receivers := O |}
      else None
  end.

Inductive LifeEvent :=
| LLog (level : Z) (msg : list string)
| LCancel (id : nat)
| LCloseConn (id : nat) (conn : option nat)
| LNew (id : nat) (cfg : models.Proxy)
| LStart (id : nat)
| LSend.

(** The process-wide state [Reset] touches: the registry, the channel
    [config.DumpSignalChan], the identity the next [Proxy] object gets,
    and what has happened so far. *)
Record World := {
  registry : config.Registry;
  DumpSignalChan : Chan;
  next_id : nat;
  trace : list LifeEvent
}.

Definition emit (e : LifeEvent) (w : World) : World :=
  {| registry := registry w; DumpSignalChan := DumpSignalChan w;
     next_id := next_id w; trace := trace w ++ [e] |}.

Definition set_registry (r : config.Registry) (w : World) : World :=
  {| registry := r; DumpSignalChan := DumpSignalChan w;
     next_id := next_id w; trace := trace w |}.

Inductive Status :=
| Done
| BlockedOnSend.

(** Line 120. *)
Definition signal (w : World) : Status * World :=
  match chan_send (DumpSignalChan w) with
  | Some ch =>
      (Done, {| registry := registry w; DumpSignalChan := ch;
                next_id := next_id w; trace := trace w ++ [LSend] |})
  | None => (BlockedOnSend, w)
  end.

(** [New] (lines 26-30): a fresh object with the configuration and a
    fresh, uncancelled context. *)
Definition New (cfg : models.Proxy) (w : World) : Proxy * World :=
  ({| Id := next_id w; Config := cfg; RemoteConn := None; LocalConn := None;
      Cancelled := false |},
   {| registry := registry w; DumpSignalChan := DumpSignalChan w;
      next_id := S (next_id w); trace := trace w ++ [LNew (next_id w) cfg] |}).

(** Modelled from the spec: [Proxy.Close], whose body is not part of
    this file's sources; section 4.1, "cancels the lifecycle token and
    releases localConn". *)
Definition Close (p : Proxy) (w : World) : Proxy * World :=
  ({| Id := Id p; Config := Config p; RemoteConn := RemoteConn p;
      LocalConn := LocalConn p; Cancelled := true |},
   emit (LCloseConn (Id p) (LocalConn p)) (emit (LCancel (Id p)) w)).

Definition set_endpoint (cfg : models.Proxy) (endpoint : option string)
    (turn : option nat) : models.Proxy :=
  {| models.PeerPublicKey := models.PeerPublicKey cfg;
     models.PeerEndpoint := endpoint;
     models.TurnConn := turn;
     models.ProxyStatus := models.ProxyStatus cfg;
     models.UsingTurn := models.UsingTurn cfg |}.

(** Lines 125-134: the proxy with its configuration refreshed, and the
    error returned. *)
Definition pullLatestConfig (p : Proxy) (r : config.Registry) : Proxy * option string :=
  let '(peer, found) := config.GetPeer r (models.PeerPublicKey (Config p)) in
  if found then
    ({| Id := Id p;
        Config := set_endpoint (Config p) (models.PeerEndpoint (models.Config peer))
                    (models.TurnConn (models.Config peer));
        RemoteConn := RemoteConn p; LocalConn := LocalConn p;
        Cancelled := Cancelled p |}, None)
  else (p, Some "peer not found").

Section Reset.

(** [Proxy.Start], whose body is not part of this file's sources: the
    object as the call leaves it and the error returned, if any. *)
Variable Start : Proxy -> Proxy * option string.
(** [models.ConvPeerKeyToHash] *)
Variable ConvPeerKeyToHash : string -> string.

(** Lines 108-119: the two registry entries are refreshed from the
    started proxy. *)
Definition publish (p : Proxy) (r : config.Registry) : config.Registry :=
  let key := models.PeerPublicKey (Config p) in
  let r :=
    match config.GetPeer r key with
    | (peer, true) =>
        config.SavePeer
          {| models.Key := models.Key peer;
             models.Config := Config p;
             models.LocalConn := LocalConn p;
             models.ResetConn := Some (Id p);
             models.StopConn := Some (Id p);
             models.ServerMap := models.ServerMap peer |} r
    | (_, false) => r
    end in
  match config.GetPeerInfoByHash r (ConvPeerKeyToHash key) with
  | (peer, true) =>
      config.SavePeerByHash ConvPeerKeyToHash
        {| models.PeerKey := models.PeerKey peer;
           models.RemoteLocalConn := LocalConn p |} r
  | (_, false) => r
  end.

(** Lines 92-122. *)
Definition Reset (p : Proxy) (w : World) : Status * World :=
  let w := emit (LLog 0 ["Resetting proxy connection for peer: ";
                         models.PeerPublicKey (Config p)]) w in
  let '(p, w) := Close p w in
  match models.PeerEndpoint (Config p) with
  | None => (Done, w)
  | Some _ =>
      let '(p, err) := pullLatestConfig p (registry w) in
      let w :=
        match err with
        | Some e => emit (LLog 1 ["couldn't perform reset: ";
                                  models.PeerPublicKey (Config p); e]) w
        | None => w
        end in
      let '(p, w) := New (Config p) w in
      let w := emit (LStart (Id p)) w in
      let '(p, err) := Start p in
      match err with
      | Some e =>
          (Done, emit (LLog 0 ["Failed to reset proxy for peer: ";
                               models.PeerPublicKey (Config p); "Err: "; e]) w)
      | None => signal (set_registry (publish p (registry w)) w)
      end
  end.

End Reset.

(** [Reset] up to the call of [Start], when the endpoint is set. *)
Definition before_Start (p : Proxy) (w : World) : Proxy * World :=
  let '(p1, w1) := Close p (emit (LLog 0 ["Resetting proxy connection for peer: ";
                                          models.PeerPublicKey (Config p)]) w) in
  let '(p2, err) := pullLatestConfig p1 (registry w1) in
  let w2 :=
    match err with
    | Some e => emit (LLog 1 ["couldn't perform reset: ";
                              models.PeerPublicKey (Config p2); e]) w1
    | None => w1
    end in
  let '(p3, w3) := New (Config p2) w2 in
  (p3, emit (LStart (Id p3)) w3).

(** A replacement endpoint was constructed or started. *)
Definition builds_endpoint (e : LifeEvent) : bool :=
  match e with
  | LNew _ _ | LStart _ => true
  | _ => false
  end.

Definition is_send (e : LifeEvent) : bool :=
  match e with LSend => true | _ => false end.

(** The channel cannot take a value now: no receiver is parked on it and
    its buffer, if it has one, is full. *)
Definition chan_full (ch : Chan) : Prop :=
  chan_receivers ch = O /\ (chan_cap ch <= chan_len ch)%nat.

(** The claim's reading of line 120: whatever the state of the channel,
    [Reset] never ends parked on the send. *)
Definition never_blocks (Start : Proxy -> Proxy * option string)
    (ConvPeerKeyToHash : string -> string) : Prop :=
  forall (p : Proxy) (w : World), fst (Reset Start ConvPeerKeyToHash p w) = Done.


End proxy.


(** ** More of [proxy_helper.go]: what the traces are asked about *)

(** The datagram a tick hands to the loop, if the loop gets to read one:
    none when the context is done or the read fails. *)
Definition datagram_of (t : proxy.Tick) : option (list Byte.byte) :=
  if proxy.ctx_done t then None
  else match proxy.read t with
       | proxy.ReadOk datagram => Some datagram
       | proxy.ReadErr _ => None
       end.

Definition is_go (e : proxy.Event) : bool :=
  match e with proxy.EvGo _ _ => true | _ => false end.

Definition is_turn_write (e : proxy.Event) : bool :=
  match e with proxy.EvTurnWrite _ _ _ => true | _ => false end.

Definition is_uplink_write (e : proxy.Event) : bool :=
  match e with proxy.EvUplinkWrite _ _ => true | _ => false end.

(** What the caller of [ProxyPeer] sees. *)
Inductive Wait :=
| Returns
| Blocks
| Crashes.

Section ProxyPeer.

Variable ProcessPacketBeforeSending :
  list Byte.byte -> Z -> string -> string -> list Byte.byte * Z * string * string.
Variable DevicePubKey : string.
Variable Debug : bool.
Variable LocalAddr ServerAddr : string.

(** Lines 137-144: [wg.Add(1)], [go p.toRemote(wg)], [wg.Wait()].  The
    wait ends when [toRemote] runs its deferred [wg.Done()], that is when
    it returns; a panic in the goroutine takes the process down. *)
Definition ProxyPeer (p : proxy.Proxy) (script : list proxy.Tick)
    : Wait * list proxy.Event :=
  match proxy.toRemote ProcessPacketBeforeSending DevicePubKey Debug LocalAddr
          ServerAddr p script with
  | (proxy.Returned, evs) => (Returns, evs)
  | (proxy.Running _, evs) => (Blocks, evs)
  | (proxy.Panicked, evs) => (Crashes, evs)
  end.

End ProxyPeer.

(** Life-cycle events of the old object. *)
Definition is_teardown (e : proxy.LifeEvent) : bool :=
  match e with
  | proxy.LCancel _ | proxy.LCloseConn _ _ => true
  | _ => false
  end.

(** Allocator events by kind. *)
Definition is_dial {IP Conn : Type} (e : Allocator.Event IP Conn) : bool :=
  match e with Allocator.EvDial _ _ => true | _ => false end.

Definition is_run_cmd {IP Conn : Type} (e : Allocator.Event IP Conn) : bool :=
  match e with Allocator.EvRunCmd _ => true | _ => false end.

(** The three phrases of lines 189-190. *)
Definition unavailable_phrases : list string :=
  ["can't assign requested address"; "address already in use";
   "cannot assign requested address"].

(** The error's text contains one of them, as written. *)
Definition mentions_unavailable (err : string) : Prop :=
  exists phrase pre post,
    In phrase unavailable_phrases /\ err = pre +:+ phrase +:+ post.

(** The errors of the failed dials of a trace, in order (the log lines of
    line 188). *)
Definition dial_error {IP Conn : Type} (e : Allocator.Event IP Conn) : option string :=
  match e with
  | Allocator.EvLog _ [m; err] =>
      if String.eqb m "----> GetFreeIP err: " then Some err else None
  | _ => None
  end.

Definition dial_errors {IP Conn : Type} (tr : list (Allocator.Event IP Conn))
    : list string :=
  omap dial_error tr.

(** ** Package [functions]: the message cache and the MQTT set-up *)

Module functions.

Definition lastNodeUpdate : string := "lnu".
Definition lastDNSUpdate : string := "ldu".
Definition lastALLDNSUpdate : string := "ladu".

(** The three kinds of cached message. *)
Definition kinds : list string := [lastNodeUpdate; lastDNSUpdate; lastALLDNSUpdate].

Record cachedMessage := {
  Message : string;
  LastSeen : Time
}.

(** Instants are nanoseconds since the Unix epoch; [zeroTime] is
    [time.Time{}], the first instant of year 1, for which [IsZero] holds. *)
Definition zeroTime : Time := - 62135596800 * 1000000000.
Definition IsZero (t : Time) : bool := t =? zeroTime.
Definition Hour : Duration := 3600 * 1000000000.

(** [fmt.Sprintf("%s%s", network, which)] *)
Definition cache_key (network which : string) : string := network +:+ which.

(** [read] (lines 376-390), on the contents of [messageCache] and with
    [now] the value of [time.Now()]: the message returned and the cache
    as the call leaves it. *)
Definition read (now : Time) (messageCache : gmap string cachedMessage)
    (network which : string) : string * gmap string cachedMessage :=
  match messageCache !! cache_key network which with
  | Some readMessage =>
      if IsZero (LastSeen readMessage) then (EmptyString, messageCache)
      else if Time_After now (Time_Add (LastSeen readMessage) (Hour * 24))
      then (EmptyString, delete (cache_key network which) messageCache)
      else (Message readMessage, messageCache)
  | None => (EmptyString, messageCache)
  end.

(** [insert] (lines 392-398). *)
Definition insert (now : Time) (messageCache : gmap string cachedMessage)
    (network which cache : string) : gmap string cachedMessage :=
  <[cache_key network which := {| Message := cache; LastSeen := now |}]> messageCache.

(** An MQTT token once the caller has waited on it: whether the wait
    ended before its timeout ([WaitTimeout] returned true), and the
    token's error. *)
Record Token := {
  completed : bool;
  token_err : option string
}.

(** [token.Error() != nil] *)
Definition has_error (token : Token) : bool :=
  match token_err token with Some _ => true | None => false end.

Inductive MqEvent :=
| MLog (level : Z) (msg : list string)
| MSubscribe (topic : string)
| MUnsubscribe (topic : string)
| MStoreClient (server : string)
| MConnect (count : nat)
| MPublish (server : string) (kind : string).

Definition newline : string := String (ascii_of_nat 10) EmptyString.

(** [unsubscribeNode] (lines 402-416), for a node of [network] with
    identifier [id]; [Unsubscribe] gives the token of the call. *)
Definition unsubscribeNode (Unsubscribe : string -> Token) (network id : string)
    : list MqEvent :=
  let topic := "node/update/" +:+ network +:+ "/" +:+ id in
  let token := Unsubscribe topic in
  let '(ok, evs) :=
    if completed token && has_error token then
      (false,
       match token_err token with
       | None =>
           [MLog 1 ["network:"; network; "unable to unsubscribe from updates for node ";
                    id; newline; "connection timeout"]]
       | Some e =>
           [MLog 1 ["network:"; network; "unable to unsubscribe from updates for node ";
                    id; newline; e]]
       end)
    else (true, []) in
  MUnsubscribe topic :: evs ++
  (if ok then [MLog 1 ["network:"; network; "successfully unsubscribed node "; id]]
   else []).

(** [setSubscriptions] (lines 341-351). *)
Definition setSubscriptions (Subscribe : string -> Token) (network id : string)
    : list MqEvent :=
  let topic := "node/update/" +:+ network +:+ "/" +:+ id in
  let token := Subscribe topic in
  if completed token && has_error token then
    MSubscribe topic ::
    match token_err token with
    | None => [MLog 0 ["network:"; network; "connection timeout"]]
    | Some e => [MLog 0 ["network:"; network; e]]
    end
  else
    [MSubscribe topic;
     MLog 3 ["subscribed to peer updates peers/" +:+ network +:+ "/" +:+ id]].

(** The fields of [config.Server] that [setupMQTT] reads after it has
    built its client options; [ServerName] is the field [Server], and the
    two [models] constants passed to [PublishHostUpdate] are carried by
    their names. *)
Record Server := {
  Name : string;
  ServerName : string;
  Broker : string;
  UseTurn : bool
}.

(** The condition of line 239: the wait timed out or the token has an
    error; and the error the loop then records. *)
Definition connect_failed (token : Token) : bool :=
  negb (completed token) || has_error token.

Definition connect_error (token : Token) : option string :=
  if connect_failed token then
    match token_err token with
    | None => Some "connect timeout"
    | Some e => Some e
    end
  else None.

(** Lines 236-246: [for count := 0; count < 3; count++]; [left] is the
    number of rounds still to run, [connecterr] the variable of that
    name. *)
Fixpoint connect_loop (Connect : nat -> Token) (count left : nat)
    (connecterr : option string) : option string * list MqEvent :=
  match left with
  | O => (connecterr, [])
  | S left' =>
      let token := Connect count in
      let evs :=
        MConnect count ::
        (if connect_failed token
         then [MLog 0 ["unable to connect to broker, retrying ..."]]
         else []) in
      let '(err, tl) := connect_loop Connect (S count) left' (connect_error token) in
      (err, evs ++ tl)
  end.

(** [setupMQTT] (lines 195-267) from the creation of the client on; the
    options and the two handlers it installs are not modelled.
    [PublishHostUpdate] gives the error of a publication, if any. *)
Definition setupMQTT (Connect : nat -> Token)
    (PublishHostUpdate : string -> string -> option string) (server : Server)
    : option string * list MqEvent :=
  let '(connecterr, evs) := connect_loop Connect 0 3 None in
  let evs := MStoreClient (Name server) :: evs in
  match connecterr with
  | Some e =>
      (Some e, evs ++ [MLog 0 ["failed to establish connection to broker: "; e]])
  | None =>
      let ack :=
        MPublish (Name server) "Acknowledgement" ::
        match PublishHostUpdate (Name server) "Acknowledgement" with
        | Some e => [MLog 0 ["failed to send initial ACK to server"; Name server; e]]
        | None => [MLog 2 ["successfully requested ACK on server"; Name server]]
        end in
      let turn :=
        if UseTurn server then
          MPublish (ServerName server) "RegisterWithTurn" ::
          match PublishHostUpdate (ServerName server) "RegisterWithTurn" with
          | Some e =>
              [MLog 0 ["failed to publish host turn register signal to server:";
                       ServerName server; e]]
          | None =>
              [MLog 0 ["published host turn register signal to server:";
                       ServerName server]]
          end
        else [] in
      (None, evs ++ ack ++ turn)
  end.

Definition is_connect (e : MqEvent) : bool :=
  match e with MConnect _ => true | _ => false end.

Definition is_publish (e : MqEvent) : bool :=
  match e with MPublish _ _ => true | _ => false end.

End functions.

(** ** Package [router]: rule keys and the nftables rule tables *)

Module router.

(** [strings.Join(elems, sep)] *)
Fixpoint strings_Join (elems : list string) (sep : string) : string :=
  match elems with
  | [] => EmptyString
  | a :: rest =>
      match rest with
      | [] => a
      | _ :: _ => a +:+ sep +:+ strings_Join rest sep
      end
  end.

(** [genRuleKey] (line 1977). *)
Definition genRuleKey (rule : list string) : string := strings_Join rule ":".

(** No colon occurs in the string. *)
Fixpoint colon_free (s : string) : bool :=
  match s with
  | EmptyString => true
  | String c s' => negb (Ascii.eqb c ":") && colon_free s'
  end.

(** [ruleInfo], [rulesCfg], [ruletable] and [serverrulestable], as the
    functions below use them: a rule's specification, table and chain
    (the kernel object it also carries is left out); per peer, the rules
    by destination peer; per server, the peers. *)
Record ruleInfo := {
  rule : list string;
  table : string;
  chain : string
}.

Record rulesCfg := {
  isIpv4 : bool;
  rulesMap : gmap string (list ruleInfo)
}.

Abbreviation ruletable := (gmap string rulesCfg).

(** The two maps of [nftablesManager]; both are taken to be allocated. *)
Record nftablesManager := {
  ingRules : gmap string ruletable;
  engressRules : gmap string ruletable
}.

Inductive Event :=
| RLog (level : Z) (msg : list string)
| RDeleteRule (tableName chainName ruleKey : string).

Definition is_delete (e : Event) : bool :=
  match e with RDeleteRule _ _ _ => true | _ => false end.

(** The call [n.deleteRule(rule.table, rule.chain, genRuleKey(rule.rule...))]. *)
Definition delete_call (r : ruleInfo) : Event :=
  RDeleteRule (table r) (chain r) (genRuleKey (rule r)).

(** [fmt]'s [%v] of a slice of strings. *)
Definition fmt_v (l : list string) : string := "[" +:+ strings_Join l " " +:+ "]".

Section RuleTables.

(** The constants [ingressTable] and [egressTable]; the kernel's state
    and [deleteRule] on it (lines 1945-1954, through the nftables
    connection), with the error it returns; and the order in which Go
    ranges over the two kinds of map. *)
Variable ingressTable egressTable : string.
Variable K : Type.
Variable deleteRule : K -> string -> string -> string -> K * option string.
Variable range_rules : gmap string (list ruleInfo) -> list (string * list ruleInfo).
Variable range_table : ruletable -> list (string * rulesCfg).

Record State := {
  mgr : nftablesManager;
  kernel : K;
  trace : list Event
}.

(** [FetchRuleTable] (lines 1803-1820); a nil table reads as an empty one. *)
Definition FetchRuleTable (n : nftablesManager) (server tableName : string) : ruletable :=
  if String.eqb tableName ingressTable then default ∅ (ingRules n !! server)
  else if String.eqb tableName egressTable then default ∅ (engressRules n !! server)
  else ∅.

(** [SaveRules] (lines 1823-1833). *)
Definition SaveRules (server tableName : string) (rules : ruletable) (st : State) : State :=
  {| mgr :=
       if String.eqb tableName ingressTable then
         {| ingRules := <[server := rules]> (ingRules (mgr st));
            engressRules := engressRules (mgr st) |}
       else if String.eqb tableName egressTable then
         {| ingRules := ingRules (mgr st);
            engressRules := <[server := rules]> (engressRules (mgr st)) |}
       else mgr st;
     kernel := kernel st;
     trace := trace st ++ [RLog 0 ["Saving rules to table: "; tableName]] |}.

(** [DeleteRuleTable] (lines 291-301). *)
Definition DeleteRuleTable (server ruleTableName : string) (st : State) : State :=
  {| mgr :=
       if String.eqb ruleTableName ingressTable then
         {| ingRules := delete server (ingRules (mgr st));
            engressRules := engressRules (mgr st) |}
       else if String.eqb ruleTableName egressTable then
         {| ingRules := ingRules (mgr st);
            engressRules := delete server (engressRules (mgr st)) |}
       else mgr st;
     kernel := kernel st;
     trace := trace st ++ [RLog 1 ["Deleting rules table: "; server; ruleTableName]] |}.

(** One call of [deleteRule], recorded in the trace. *)
Definition call_deleteRule (st : State) (r : ruleInfo) : State * option string :=
  let '(k, err) := deleteRule (kernel st) (table r) (chain r) (genRuleKey (rule r)) in
  ({| mgr := mgr st; kernel := k; trace := trace st ++ [delete_call r] |}, err).

(** [for _, rule := range rules], returning at the first failure with
    the error of the [fmt.Errorf] of lines 1847 and 1867. *)
Fixpoint delete_each (st : State) (peerKey : string) (rules : list ruleInfo)
    : State * option string :=
  match rules with
  | [] => (st, None)
  | r :: rest =>
      match call_deleteRule st r with
      | (st', Some err) =>
          (st', Some ("nftables: error while removing existing " +:+ table r
                      +:+ " rules [" +:+ fmt_v (rule r) +:+ "] for " +:+ peerKey
                      +:+ ": " +:+ err))
      | (st', None) => delete_each st' peerKey rest
      end
  end.

(** [for _, rules := range rulesTable[peerKey].rulesMap] around it. *)
Fixpoint delete_all (st : State) (peerKey : string)
    (byPeer : list (string * list ruleInfo)) : State * option string :=
  match byPeer with
  | [] => (st, None)
  | (_, rules) :: rest =>
      match delete_each st peerKey rules with
      | (st', Some err) => (st', Some err)
      | (st', None) => delete_all st' peerKey rest
      end
  end.

(** What [deleteRule] returns for rule [r] on kernel [k], and the kernel
    after the calls for [rules] have been made in order from [k]. *)
Definition deletion_result (k : K) (r : ruleInfo) : option string :=
  snd (deleteRule k (table r) (chain r) (genRuleKey (rule r))).

Definition kernel_after (k : K) (rules : list ruleInfo) : K :=
  fold_left (fun k r => fst (deleteRule k (table r) (chain r) (genRuleKey (rule r))))
    rules k.

(** Every call for [rules], made in order from [k], returns nil. *)
Definition deletions_succeed (k : K) (rules : list ruleInfo) : Prop :=
  forall a r b, rules = a ++ r :: b -> deletion_result (kernel_after k a) r = None.

(** The error of lines 1847 and 1867 for rule [r] and the error [err] of
    its deletion. *)
Definition removal_error (r : ruleInfo) (peerKey err : string) : string :=
  "nftables: error while removing existing " +:+ table r
  +:+ " rules [" +:+ fmt_v (rule r) +:+ "] for " +:+ peerKey +:+ ": " +:+ err.

(** [RemoveRoutingRules] (lines 1836-1854).  The deferred [SaveRules]
    runs on every return, with the table as it then is. *)
Definition RemoveRoutingRules (st : State) (server ruletableName peerKey : string)
    : State * option string :=
  let rulesTable := FetchRuleTable (mgr st) server ruletableName in
  match rulesTable !! peerKey with
  | None =>
      (SaveRules server ruletableName rulesTable st,
       Some ("peer not found in rule table: " +:+ peerKey))
  | Some cfg =>
      match delete_all st peerKey (range_rules (rulesMap cfg)) with
      | (st', Some err) => (SaveRules server ruletableName rulesTable st', Some err)
      | (st', None) =>
          (SaveRules server ruletableName (delete peerKey rulesTable) st', None)
      end
  end.

(** [DeleteRoutingRule] (lines 1857-1876). *)
Definition DeleteRoutingRule (st : State) (server ruletableName srcPeerKey dstPeerKey : string)
    : State * option string :=
  let rulesTable := FetchRuleTable (mgr st) server ruletableName in
  match rulesTable !! srcPeerKey with
  | None =>
      (SaveRules server ruletableName rulesTable st,
       Some ("peer not found in rule table: " +:+ srcPeerKey))
  | Some cfg =>
      match rulesMap cfg !! dstPeerKey with
      | Some rules =>
          let '(st', err) := delete_each st srcPeerKey rules in
          (SaveRules server ruletableName rulesTable st', err)
      | None =>
          (SaveRules server ruletableName rulesTable st,
           Some ("rules not found for: " +:+ dstPeerKey))
      end
  end.

(** The loops of [CleanRoutingRules]: a failed deletion is logged and the
    loop goes on. *)
Fixpoint clean_each (st : State) (rules : list ruleInfo) : State :=
  match rules with
  | [] => st
  | r :: rest =>
      match call_deleteRule st r with
      | (st', Some err) =>
          clean_each
            {| mgr := mgr st'; kernel := kernel st';
               trace := trace st' ++ [RLog 0 ["Error cleaning up rule: "; err]] |}
            rest
      | (st', None) => clean_each st' rest
      end
  end.

Fixpoint clean_peer (st : State) (byPeer : list (string * list ruleInfo)) : State :=
  match byPeer with
  | [] => st
  | (_, rules) :: rest => clean_peer (clean_each st rules) rest
  end.

Fixpoint clean_table (st : State) (peers : list (string * rulesCfg)) : State :=
  match peers with
  | [] => st
  | (_, cfg) :: rest => clean_table (clean_peer st (range_rules (rulesMap cfg))) rest
  end.

(** [CleanRoutingRules] (lines 274-288); the deferred [DeleteRuleTable]
    runs last. *)
Definition CleanRoutingRules (st : State) (server ruleTableName : string) : State :=
  let ruleTable := FetchRuleTable (mgr st) server ruleTableName in
  DeleteRuleTable server ruleTableName (clean_table st (range_table ruleTable)).

(** The deletions a trace asks the kernel for. *)
Definition deletions (tr : list Event) : list Event := List.filter is_delete tr.

(** All the rules of a peer, and of a table, in the order ranged over. *)
Definition peer_rules (cfg : rulesCfg) : list ruleInfo :=
  concat (map snd (range_rules (rulesMap cfg))).

Definition table_rules (t : ruletable) : list ruleInfo :=
  concat (map (fun x => peer_rules (snd x)) (range_table t)).

End RuleTables.

End router.

(** ** Package [config] of netclient: [ConvertServerCfg] *)

Module ncconfig.

Record Server := {
  Name : string;
  Version : string;
  API : string;
  CoreDNSAddr : string;
  Broker : string;
  MQPort : string;
  MQID : string;
  Password : string;
  DNSMode : bool;
  Is_EE : bool;
  Nodes : list string
}.

(** [models.ServerConfig], the fields [ConvertServerCfg] reads. *)
Record ServerConfig := {
  cfg_Server : string;
  cfg_Version : string;
  cfg_API : string;
  cfg_CoreDNSAddr : string;
  cfg_Broker : string;
  cfg_MQPort : string;
  cfg_DNSMode : string;
  cfg_Is_EE : bool
}.

(** [Server{}] *)
Definition zeroServer : Server :=
  {| Name := ""; Version := ""; API := ""; CoreDNSAddr := ""; Broker := "";
     MQPort := ""; MQID := ""; Password := ""; DNSMode := false; Is_EE := false;
     Nodes := [] |}.

(** [strconv.ParseBool], its error dropped as on line 2070. *)
Definition ParseBool (s : string) : bool :=
  existsb (String.eqb s) ["1"; "t"; "T"; "TRUE"; "true"; "True"].

(** A computation that may panic. *)
Inductive run (A : Type) : Type :=
| Done (a : A)
| Panic.
Arguments Done {A} a.
Arguments Panic {A}.

Definition bind {A B : Type} (m : run A) (k : A -> run B) : run B :=
  match m with
  | Done a => k a
  | Panic => Panic
  end.

(** Reading through a pointer, and assigning to a field through one: a
    nil pointer ([None]) panics. *)
Definition deref {A : Type} (ptr : option A) : run A :=
  match ptr with
  | Some a => Done a
  | None => Panic
  end.

Definition assign {A : Type} (ptr : option A) (set : A -> A) : run (option A) :=
  match ptr with
  | Some a => Done (Some (set a))
  | None => Panic
  end.

(** Field updates. *)
Definition set_Name (v : string) (s : Server) : Server :=
  {| Name := v; Version := Version s; API := API s; CoreDNSAddr := CoreDNSAddr s;
     Broker := Broker s; MQPort := MQPort s; MQID := MQID s; Password := Password s;
     DNSMode := DNSMode s; Is_EE := Is_EE s; Nodes := Nodes s |}.

Definition set_Version (v : string) (s : Server) : Server :=
  {| Name := Name s; Version := v; API := API s; CoreDNSAddr := CoreDNSAddr s;
     Broker := Broker s; MQPort := MQPort s; MQID := MQID s; Password := Password s;
     DNSMode := DNSMode s; Is_EE := Is_EE s; Nodes := Nodes s |}.

Definition set_API (v : string) (s : Server) : Server :=
  {| Name := Name s; Version := Version s; API := v; CoreDNSAddr := CoreDNSAddr s;
     Broker := Broker s; MQPort := MQPort s; MQID := MQID s; Password := Password s;
     DNSMode := DNSMode s; Is_EE := Is_EE s; Nodes := Nodes s |}.

Definition set_CoreDNSAddr (v : string) (s : Server) : Server :=
  {| Name := Name s; Version := Version s; API := API s; CoreDNSAddr := v;
     Broker := Broker s; MQPort := MQPort s; MQID := MQID s; Password := Password s;
     DNSMode := DNSMode s; Is_EE := Is_EE s; Nodes := Nodes s |}.

Definition set_Broker (v : string) (s : Server) : Server :=
  {| Name := Name s; Version := Version s; API := API s;
     CoreDNSAddr := CoreDNSAddr s; Broker := v; MQPort := MQPort s; MQID := MQID s;
     Password := Password s; DNSMode := DNSMode s; Is_EE := Is_EE s;
     Nodes := Nodes s |}.

Definition set_MQPort (v : string) (s : Server) : Server :=
  {| Name := Name s; Version := Version s; API := API s;
     CoreDNSAddr := CoreDNSAddr s; Broker := Broker s; MQPort := v; MQID := MQID s;
     Password := Password s; DNSMode := DNSMode s; Is_EE := Is_EE s;
     Nodes := Nodes s |}.

Definition set_MQID (v : string) (s : Server) : Server :=
  {| Name := Name s; Version := Version s; API := API s;
     CoreDNSAddr := CoreDNSAddr s; Broker := Broker s; MQPort := MQPort s; MQID := v;
     Password := Password s; DNSMode := DNSMode s; Is_EE := Is_EE s;
     Nodes := Nodes s |}.

Definition set_Password (v : string) (s : Server) : Server :=
  {| Name := Name s; Version := Version s; API := API s;
     CoreDNSAddr := CoreDNSAddr s; Broker := Broker s; MQPort := MQPort s;
     MQID := MQID s; Password := v; DNSMode := DNSMode s; Is_EE := Is_EE s;
     Nodes := Nodes s |}.

Definition set_DNSMode (v : bool) (s : Server) : Server :=
  {| Name := Name s; Version := Version s; API := API s;
     CoreDNSAddr := CoreDNSAddr s; Broker := Broker s; MQPort := MQPort s;
     MQID := MQID s; Password := Password s; DNSMode := v; Is_EE := Is_EE s;
     Nodes := Nodes s |}.

Definition set_Is_EE (v : bool) (s : Server) : Server :=
  {| Name := Name s; Version := Version s; API := API s;
     CoreDNSAddr := CoreDNSAddr s; Broker := Broker s; MQPort := MQPort s;
     MQID := MQID s; Password := Password s; DNSMode := DNSMode s; Is_EE := v;
     Nodes := Nodes s |}.

(** The assignments of lines 2061-2070, through the pointer [server]. *)
Definition fill (cfg : ServerConfig) (HostID HostPass : string) (server : option Server)
    : run (option Server) :=
  bind (assign server (set_Name (cfg_Server cfg))) (fun server =>
  bind (assign server (set_Version (cfg_Version cfg))) (fun server =>
  bind (assign server (set_Broker (cfg_Broker cfg))) (fun server =>
  bind (assign server (set_MQPort (cfg_MQPort cfg))) (fun server =>
  bind (assign server (set_MQID (HostID))) (fun server =>
  bind (assign server (set_Password (HostPass))) (fun server =>
  bind (assign server (set_API (cfg_API cfg))) (fun server =>
  bind (assign server (set_CoreDNSAddr (cfg_CoreDNSAddr cfg))) (fun server =>
  bind (assign server (set_Is_EE (cfg_Is_EE cfg))) (fun server =>
  assign server (set_DNSMode (ParseBool (cfg_DNSMode cfg)))))))))))).

(** [ConvertServerCfg] (lines 2060-2075): [var server *Server] declares
    a nil pointer, and nothing allocates a [Server] before the first
    assignment through it. *)
Definition ConvertServerCfg (cfg : option ServerConfig) (HostID HostPass : string)
    : run (option Server) :=
  let server : option Server := None in
  bind (deref cfg) (fun c => fill c HostID HostPass server).

End ncconfig.

(** ** Concrete scenarios

    Small instances of the parameters, used to run the definitions. *)

(** A proxy that relays through the shared uplink, and one that relays
    through a TURN transport. *)
Definition relayed_proxy : proxy.Proxy :=
  {| proxy.Id := 0%nat;
     proxy.Config :=
       {| models.PeerPublicKey := "X"; models.PeerEndpoint := Some "203.0.113.7:51821";
          models.TurnConn := None; models.ProxyStatus := true;
          models.UsingTurn := false |};
     proxy.RemoteConn := Some "203.0.113.7:51821";
     proxy.LocalConn := Some 1%nat;
     proxy.Cancelled := false |}.

(** A transform that appends one byte of trailer to the datagram. *)
Definition trailer_transform (buf : list Byte.byte) (n : Z) (src dst : string)
    : list Byte.byte * Z * string * string :=
  (firstn (Z.to_nat n) buf ++ [Byte.xff] ++ skipn (S (Z.to_nat n)) buf, n + 1, src, dst).

(** A registry in which peer X is registered under server "s". *)
Definition registry_X : config.Registry :=
  {| config.proxyPeerMap :=
       {[ "X" := {| models.Key := "X"; models.Config := proxy.Config relayed_proxy;
                    models.LocalConn := Some 1%nat; models.ResetConn := Some 0%nat;
                    models.StopConn := Some 0%nat; models.ServerMap := {[ "s" ]} |} ]};
     config.peerHashMap := ∅ |}.

(** A [Start] that succeeds, binding local connection 7. *)
Definition start_ok (p : proxy.Proxy) : proxy.Proxy * option string :=
  ({| proxy.Id := proxy.Id p; proxy.Config := proxy.Config p;
      proxy.RemoteConn := models.PeerEndpoint (proxy.Config p);
      proxy.LocalConn := Some 7%nat; proxy.Cancelled := false |}, None).

Definition hash_of (key : string) : string := "h:" +:+ key.

(** A proxy without a peer endpoint. *)
Definition idle_proxy : proxy.Proxy :=
  {| proxy.Id := 0%nat;
     proxy.Config :=
       {| models.PeerPublicKey := "X"; models.PeerEndpoint := None;
          models.TurnConn := None; models.ProxyStatus := true;
          models.UsingTurn := false |};
     proxy.RemoteConn := None;
     proxy.LocalConn := Some 1%nat;
     proxy.Cancelled := false |}.

(** A world whose registry has lost peer X, and one in which X is
    registered but the signal channel (capacity 5) is full. *)
Definition world_without_X : proxy.World :=
  {| proxy.registry := {| config.proxyPeerMap := ∅; config.peerHashMap := ∅ |};
     proxy.DumpSignalChan := {| proxy.chan_cap := 5; proxy.chan_len := 0;
                                proxy.chan_receivers := 0 |};
     proxy.next_id := 1%nat;
     proxy.trace := [] |}.

Definition world_channel_full : proxy.World :=
  {| proxy.registry := registry_X;
     proxy.DumpSignalChan := {| proxy.chan_cap := 5; proxy.chan_len := 5;
                                proxy.chan_receivers := 0 |};
     proxy.next_id := 1%nat;
     proxy.trace := [] |}.

(** A proxy that neither relays nor uses TURN, and a script of two
    successful reads. *)
Definition plain_proxy : proxy.Proxy :=
  {| proxy.Id := 0%nat;
     proxy.Config :=
       {| models.PeerPublicKey := "X"; models.PeerEndpoint := Some "203.0.113.7:51821";
          models.TurnConn := None; models.ProxyStatus := false;
          models.UsingTurn := false |};
     proxy.RemoteConn := Some "203.0.113.7:51821";
     proxy.LocalConn := Some 1%nat;
     proxy.Cancelled := false |}.

Definition two_reads : list proxy.Tick :=
  [{| proxy.ctx_done := false; proxy.read := proxy.ReadOk [Byte.x01; Byte.x02];
      proxy.write_err := Some "sendto: network is unreachable" |};
   {| proxy.ctx_done := false; proxy.read := proxy.ReadOk [Byte.x03];
      proxy.write_err := None |}].

Definition failed_read : proxy.Tick :=
  {| proxy.ctx_done := false;
     proxy.read := proxy.ReadErr "use of closed network connection";
     proxy.write_err := None |}.

(** A [Start] that fails to bind. *)
Definition start_fails (p : proxy.Proxy) : proxy.Proxy * option string :=
  (p, Some "listen udp 127.0.0.1:0: bind: address already in use").

(** A world in which X is registered under its key and under its hash. *)
Definition hash_entry_X : models.RemotePeer :=
  {| models.PeerKey := "X"; models.RemoteLocalConn := Some 1%nat |}.

Definition world_X_both : proxy.World :=
  {| proxy.registry :=
       {| config.proxyPeerMap := config.proxyPeerMap registry_X;
          config.peerHashMap := {[ hash_of "X" := hash_entry_X ]} |};
     proxy.DumpSignalChan := {| proxy.chan_cap := 5; proxy.chan_len := 0;
                                proxy.chan_receivers := 0 |};
     proxy.next_id := 1%nat;
     proxy.trace := [] |}.

(** A peer of the interface with a handshake at instant 1000 s and some
    traffic. *)
Definition iface_peer_X : Liveness.Peer :=
  {| Liveness.PublicKey := "X";
     Liveness.LastHandshakeTime := 1000 * 1000000000;
     Liveness.ReceiveBytes := 10;
     Liveness.TransmitBytes := 20 |}.

(** A transform that appends its trailer when the buffer has room after
    the datagram and fails otherwise, handing buffer and length back. *)
Definition trailer_if_room (buf : list Byte.byte) (n : Z) (src dst : string)
    : list Byte.byte * Z * string * string :=
  if n <? Z.of_nat (length buf) then trailer_transform buf n src dst
  else (buf, n, EmptyString, EmptyString).

Definition no_room (buf : list Byte.byte) (n : Z) : Prop :=
  Z.of_nat (length buf) <= n.

(** Another peer of the interface, without handshake or traffic, listed
    before X. *)
Definition iface_peer_Y : Liveness.Peer :=
  {| Liveness.PublicKey := "Y";
     Liveness.LastHandshakeTime := 0;
     Liveness.ReceiveBytes := 0;
     Liveness.TransmitBytes := 0 |}.

(** A kernel that holds rule keys, a [deleteRule] on it that fails for a
    key it does not hold, and map iteration in key order. *)
Definition kernel_deleteRule (k : list string) (tableName chainName ruleKey : string)
    : list string * option string :=
  if bool_decide (ruleKey ∈ k)
  then (List.filter (fun x => negb (String.eqb x ruleKey)) k, None)
  else (k, Some "rule not found").

Definition in_key_order {A : Type} (m : gmap string A) : list (string * A) :=
  map_to_list m.

Definition rule_A_B : router.ruleInfo :=
  {| router.rule := ["ip"; "saddr"; "10.0.0.2"; "daddr"; "10.0.0.3"; "accept"];
     router.table := "filter"; router.chain := "netmakerfilter" |}.

Definition table_A : router.ruletable :=
  {[ "A" := {| router.isIpv4 := true; router.rulesMap := {[ "B" := [rule_A_B] ]} |} ]}.

Definition router_state : router.State (list string) :=
  {| router.mgr := {| router.ingRules := {[ "srv" := table_A ]};
                      router.engressRules := ∅ |};
     router.kernel := [router.genRuleKey (router.rule rule_A_B)];
     router.trace := [] |}.

(** The same tables over a kernel that no longer holds the rule. *)
Definition router_state_stale : router.State (list string) :=
  {| router.mgr := router.mgr _ router_state;
     router.kernel := [];
     router.trace := [] |}.

Definition rules_of_A : router.rulesCfg :=
  {| router.isIpv4 := true; router.rulesMap := {[ "B" := [rule_A_B] ]} |}.

(** The router's functions on that kernel, with tables named "ingress"
    and "egress". *)
Definition run_Fetch : router.nftablesManager -> string -> string -> router.ruletable :=
  router.FetchRuleTable "ingress" "egress".

Definition run_Remove :=
  router.RemoveRoutingRules "ingress" "egress" (list string) kernel_deleteRule
    in_key_order.

Definition run_Delete :=
  router.DeleteRoutingRule "ingress" "egress" (list string) kernel_deleteRule.

Definition run_Clean :=
  router.CleanRoutingRules "ingress" "egress" (list string) kernel_deleteRule
    in_key_order in_key_order.


(** * Properties *)

(** ** LivenessMonitor *)

Section LivenessFacts.

Import Liveness.

Lemma connected_spec (now : Time) (peer : Peer) :
  connected now peer = true <->
  now - 3 * Minute < LastHandshakeTime peer /\
  0 < add64 (ReceiveBytes peer) (TransmitBytes peer).
Proof.
  unfold connected, Time_After, Time_Add.
  rewrite andb_true_iff, !Z.ltb_lt. lia.
Qed.

Lemma scan_absent (now : Time) (key : string) (ifacePeers : list Peer) :
  absent key ifacePeers -> scan now key ifacePeers = false.
Proof.
  induction 1 as [|q rest Hq _ IH]; simpl; [reflexivity|].
  destruct (String.eqb_spec (PublicKey q) key); [contradiction|exact IH].
Qed.

Lemma scan_first (now : Time) (key : string) (before after : list Peer) (peer : Peer) :
  absent key before -> PublicKey peer = key ->
  scan now key (before ++ peer :: after) = connected now peer.
Proof.
  intros Hb Hk. induction Hb as [|q rest Hq _ IH]; simpl.
  - rewrite Hk, String.eqb_refl. reflexivity.
  - destruct (String.eqb_spec (PublicKey q) key); [contradiction|exact IH].
Qed.

Lemma scan_split (now : Time) (key : string) (ifacePeers : list Peer) :
  scan now key ifacePeers = true ->
  exists before peer after,
    ifacePeers = before ++ peer :: after /\ absent key before /\
    PublicKey peer = key /\ connected now peer = true.
Proof.
  induction ifacePeers as [|q rest IH]; simpl; [discriminate|].
  destruct (String.eqb_spec (PublicKey q) key) as [Heq|Hne]; intros H.
  - exists [], q, rest. repeat split; auto. constructor.
  - destruct (IH H) as (b & p & a & -> & Hb & Hk & Hc).
    exists (q :: b), p, a. repeat split; auto. constructor; assumption.
Qed.

End LivenessFacts.

(** What the loop computes on any list: [PeerConnectionStatus] returns
    true exactly when the peer list is fetched without error and the
    first entry whose public key equals [peerPublicKey] passes the two
    tests; it returns false when the fetch fails and when no entry has
    the key. *)
Lemma PeerConnectionStatus_first_entry :
  forall (getPeers : result (list Liveness.Peer)) (now : Time) (peerPublicKey : string),
    (Liveness.PeerConnectionStatus getPeers now peerPublicKey = true <->
     Liveness.first_entry_connected getPeers now peerPublicKey) /\
    (forall err, Liveness.PeerConnectionStatus (Err err) now peerPublicKey = false) /\
    (forall ifacePeers,
       Liveness.absent peerPublicKey ifacePeers ->
       Liveness.PeerConnectionStatus (Ok ifacePeers) now peerPublicKey = false).
Proof.
  intros getPeers now key. split; [|split].
  - split.
    + destruct getPeers as [ps|e]; simpl; [|discriminate].
      intros H. destruct (scan_split _ _ _ H) as (b & p & a & -> & Hb & Hk & Hc).
      apply connected_spec in Hc. exists b, p, a. tauto.
    + intros (b & p & a & -> & Hb & Hk & Hc). simpl.
      rewrite scan_first by assumption. apply connected_spec. exact Hc.
  - reflexivity.
  - intros ps Habs. simpl. apply scan_absent. exact Habs.
Qed.

(** The threshold, on a one-entry list: connected at 2m59s since the
    last handshake, not at 3m1s, nor exactly at 3m, nor without traffic. *)
Example liveness_threshold :
  let peer (ago rx tx : Z) :=
    {| Liveness.PublicKey := "k";
       Liveness.LastHandshakeTime := 1000 * Minute - ago;
       Liveness.ReceiveBytes := rx; Liveness.TransmitBytes := tx |} in
  let now := 1000 * Minute in
  Liveness.PeerConnectionStatus (Ok [peer (179 * 1000000000) 1 0]) now "k" = true /\
  Liveness.PeerConnectionStatus (Ok [peer (181 * 1000000000) 1 0]) now "k" = false /\
  Liveness.PeerConnectionStatus (Ok [peer (3 * Minute) 1 0]) now "k" = false /\
  Liveness.PeerConnectionStatus (Ok [peer 0 0 0]) now "k" = false.
Proof. repeat split. Qed.

(** With pairwise distinct keys, as a WireGuard device reports them, the
    first entry with the key is the only one. *)
Lemma first_entry_of_distinct_keys :
  forall (ifacePeers : list Liveness.Peer) (now : Time) (peerPublicKey : string),
    List.NoDup (List.map Liveness.PublicKey ifacePeers) ->
    Liveness.some_entry_connected (Ok ifacePeers) now peerPublicKey ->
    Liveness.first_entry_connected (Ok ifacePeers) now peerPublicKey.
Proof.
  intros ps now key Hnd (ps' & p & Heq & Hin & Hk & Ht & Hb).
  injection Heq as <-.
  destruct (in_split _ _ Hin) as (b & a & ->).
  exists b, p, a. repeat split; auto.
  rewrite List.map_app in Hnd. simpl in Hnd.
  apply List.NoDup_remove_2 in Hnd.
  apply List.Forall_forall. intros q Hq Hqk. apply Hnd.
  apply List.in_or_app. left. rewrite Hk, <- Hqk. apply List.in_map. exact Hq.
Qed.

(** C4: on the peer list of a WireGuard device (public keys pairwise
    distinct), [PeerConnectionStatus] returns true if and only if the
    list is fetched without error and contains an entry whose public key
    equals [peerPublicKey], whose last handshake is later than three
    minutes ago and whose sum of received and sent bytes (the int64 sum
    of line 216) is greater than zero; it returns false when fetching
    the list fails and for a peer absent from the list. *)
Theorem PeerConnectionStatus_some_entry
    (getPeers : result (list Liveness.Peer)) (now : Time) (peerPublicKey : string) :
  Liveness.distinct_keys getPeers ->
  (Liveness.PeerConnectionStatus getPeers now peerPublicKey = true <->
   Liveness.some_entry_connected getPeers now peerPublicKey) /\
  (forall err, Liveness.PeerConnectionStatus (Err err) now peerPublicKey = false) /\
  (forall ifacePeers,
     Liveness.absent peerPublicKey ifacePeers ->
     Liveness.PeerConnectionStatus (Ok ifacePeers) now peerPublicKey = false).
Proof.
  intros Hnd.
  destruct (PeerConnectionStatus_first_entry getPeers now peerPublicKey)
    as (Hfirst & Herr & Habs).
  split; [|split; assumption].
  rewrite Hfirst. split.
  - intros (b & p & a & -> & _ & Hk & Ht & Hb).
    exists (b ++ p :: a), p. repeat split; auto.
    apply List.in_or_app. right. left. reflexivity.
  - intros Hsome. destruct getPeers as [ps|e].
    + apply first_entry_of_distinct_keys; assumption.
    + destruct Hsome as (ps & p & Heq & _). discriminate Heq.
Qed.

(** On a list of two peers, X listed second: X is found connected 100
    seconds after its handshake, and a key that is not listed is not. *)
Lemma PeerConnectionStatus_some_entry_witness :
  Liveness.some_entry_connected (Ok [iface_peer_Y; iface_peer_X]) (1100 * 1000000000) "X" /\
  Liveness.PeerConnectionStatus (Ok [iface_peer_Y; iface_peer_X]) (1100 * 1000000000) "Z"
    = false.
Proof.
  assert (Hnd : Liveness.distinct_keys (Ok [iface_peer_Y; iface_peer_X])).
  { simpl. constructor.
    - simpl. intros [H|[]]. discriminate H.
    - constructor; [intros []|constructor]. }
  split.
  - apply (PeerConnectionStatus_some_entry (Ok [iface_peer_Y; iface_peer_X])
             (1100 * 1000000000) "X" Hnd).
    reflexivity.
  - apply (PeerConnectionStatus_some_entry (Ok [iface_peer_Y; iface_peer_X])
             (1100 * 1000000000) "Z" Hnd).
    repeat constructor; discriminate.
Defined.


(** ** AddressAllocator *)

Section AllocatorFacts.

Import Allocator.

Context {IP Net4 Conn : Type}.
Variable ParseCIDR : string -> option string.
Variable Net4FromStr : string -> Net4.
Variable FirstAddress : Net4 -> IP.
Variable NextIP : Net4 -> IP -> IP * option string.
Variable IP_String : IP -> string.
Variable ParseIP : string -> IP.
Variable DialUDP : IP * Z -> IP * Z -> result Conn.
Variable GOOS : string.
Variable RunCmd : string -> option string.
Variable NmProxyPort : Z.
Variable Contains : Net4 -> IP -> bool.

Let probe := probe NextIP IP_String ParseIP DialUDP GOOS RunCmd NmProxyPort.
Let GetFreeIp :=
  GetFreeIp ParseCIDR Net4FromStr FirstAddress NextIP IP_String ParseIP DialUDP
    GOOS RunCmd NmProxyPort.
Let probes := probes NextIP IP_String ParseIP DialUDP GOOS RunCmd NmProxyPort.
Let within := within IP_String Contains.
Let laddr := probe_laddr IP_String ParseIP NmProxyPort.
Let raddr := @probe_raddr IP ParseIP.
Let alias := @register_alias IP Conn IP_String GOOS RunCmd.
Let fixed := @dial_ports_fixed IP Conn ParseIP NmProxyPort.

(** One iteration, by cases on what the dial and [NextIP] return. *)
Lemma probe_step (fuel : nat) (net4 : Net4) (dstPort : Z) (a : IP) :
  probe (S fuel) net4 dstPort a =
  match DialUDP (laddr a) (raddr dstPort) with
  | Ok conn =>
      Some (Ok (IP_String a),
            (alias a ++ [EvDial (laddr a) (raddr dstPort)]) ++ [EvClose conn])
  | Err err =>
      let pre := (alias a ++ [EvDial (laddr a) (raddr dstPort)])
                 ++ [EvLog 1 ["----> GetFreeIP err: "; err]] in
      if address_unavailable err then
        match NextIP net4 a with
        | (_, Some nErr) => Some (Err nErr, pre)
        | (next, None) =>
            match probe fuel net4 dstPort next with
            | Some (r, tr) => Some (r, pre ++ tr)
            | None => None
            end
        end
      else Some (Err err, pre)
  end.
Proof. reflexivity. Qed.

Lemma alias_no_dial (dstPort : Z) (a : IP) :
  Forall (fixed dstPort) (alias a).
Proof.
  unfold alias, register_alias.
  destruct (String.eqb GOOS "darwin"); [|constructor].
  constructor; [exact I|]. destruct (RunCmd _); repeat constructor.
Qed.

(** Every dial of a probe run uses the same two ports. *)
Lemma probe_dials (fuel : nat) (net4 : Net4) (dstPort : Z) :
  forall a r tr,
    probe fuel net4 dstPort a = Some (r, tr) ->
    Forall (fixed dstPort) tr.
Proof.
  induction fuel as [|fuel IH]; intros a r tr; [discriminate|].
  rewrite probe_step.
  assert (Hd : fixed dstPort
                 (EvDial (laddr a) (raddr dstPort))) by (split; reflexivity).
  pose proof (alias_no_dial dstPort a) as Ha.
  destruct (DialUDP (laddr a) (raddr dstPort)) as [conn|err].
  - intros [= <- <-]. rewrite !Forall_app. repeat split; auto; repeat constructor; auto.
  - cbv zeta. destruct (address_unavailable err).
    + destruct (NextIP net4 a) as [next [nErr|]].
      * intros [= <- <-]. rewrite !Forall_app. repeat split; auto; repeat constructor; auto.
      * destruct (probe fuel net4 dstPort next) as [[r' tr']|] eqn:Hp; [|discriminate].
        intros [= <- <-]. rewrite !Forall_app.
        repeat split; auto; try (repeat constructor; auto; fail).
        eapply IH; eassumption.
    + intros [= <- <-]. rewrite !Forall_app. repeat split; auto; repeat constructor; auto.
Qed.

(** A returned address is the one the last dial of the trace was made
    from, and that dial's socket is closed last. *)
Lemma probe_ok (fuel : nat) (net4 : Net4) (dstPort : Z) :
  forall a0 s tr,
    probe fuel net4 dstPort a0 = Some (Ok s, tr) ->
    exists a conn pre,
      tr = pre ++ [EvDial (laddr a) (raddr dstPort); EvClose conn] /\
      s = IP_String a /\
      DialUDP (laddr a) (raddr dstPort) = Ok conn.
Proof.
  induction fuel as [|fuel IH]; intros a0 s tr; [discriminate|].
  rewrite probe_step.
  destruct (DialUDP (laddr a0) (raddr dstPort)) as [conn|err] eqn:Hdial.
  - intros [= <- <-]. exists a0, conn, (alias a0).
    rewrite <- app_assoc. auto.
  - cbv zeta. destruct (address_unavailable err).
    + destruct (NextIP net4 a0) as [next [nErr|]]; [discriminate|].
      destruct (probe fuel net4 dstPort next) as [[r' tr']|] eqn:Hp; [|discriminate].
      intros [= -> <-].
      destruct (IH _ _ _ Hp) as (a & conn & pre & -> & Hs & Hd).
      eexists a, conn, _. rewrite app_assoc. auto.
    + discriminate.
Qed.

(** With iplib keeping successful [NextIP]s inside the block and nearer
    to its end, the loop returns from every address of the block; what it
    returns does not depend on the fuel once there is enough of it. *)
Lemma probe_total (net4 : Net4) (dstPort : Z) (rank : IP -> nat) :
  (forall a b, Contains net4 a = true -> NextIP net4 a = (b, None) ->
               Contains net4 b = true /\ (rank b < rank a)%nat) ->
  forall n a,
    rank a = n -> Contains net4 a = true ->
    exists r tr,
      (forall fuel, (n < fuel)%nat -> probe fuel net4 dstPort a = Some (r, tr)) /\
      probes net4 dstPort a r tr /\ within net4 r.
Proof.
  intros Hnext n. induction n as [n IH] using lt_wf_ind. intros a Hrank Hin.
  destruct (DialUDP (laddr a) (raddr dstPort)) as [conn|err] eqn:Hdial.
  - eexists (Ok (IP_String a)), _. split; [|split].
    + intros [|fuel] Hf; [lia|]. rewrite probe_step, Hdial. reflexivity.
    + apply probes_free. exact Hdial.
    + exists a. auto.
  - destruct (address_unavailable err) eqn:Hcls.
    + destruct (NextIP net4 a) as [next [nErr|]] eqn:Hn.
      * eexists (Err nErr), _. split; [|split; [|exact I]].
        -- intros [|fuel] Hf; [lia|]. rewrite probe_step, Hdial.
           cbv zeta. rewrite Hcls, Hn. reflexivity.
        -- eapply probes_exhausted; eassumption.
      * destruct (Hnext _ _ Hin Hn) as [Hin' Hlt].
        destruct (IH (rank next) ltac:(lia) next eq_refl Hin')
          as (r & tr & Hrun & Hpr & Hw).
        eexists r, _. split; [|split; [|exact Hw]].
        -- intros [|fuel] Hf; [lia|]. rewrite probe_step, Hdial.
           cbv zeta. rewrite Hcls, Hn, (Hrun fuel) by lia. reflexivity.
        -- eapply probes_next; eassumption.
    + eexists (Err err), _. split; [|split; [|exact I]].
      * intros [|fuel] Hf; [lia|]. rewrite probe_step, Hdial.
        cbv zeta. rewrite Hcls. reflexivity.
      * apply probes_fatal; assumption.
Qed.

(** C6: when the destination port is zero or [net.ParseCIDR] rejects the
    CIDR string, [GetFreeIp] returns an error before the loop is entered
    (whatever the fuel): nothing is dialled, no alias is registered, and
    the only event, if any, is a log line. *)
Theorem GetFreeIp_fails_fast (fuel : nat) (cidrAddr : string) (dstPort : Z) :
  dstPort = 0 \/ ParseCIDR cidrAddr <> None ->
  exists err tr,
    GetFreeIp fuel cidrAddr dstPort = Some (Err err, tr) /\
    Forall is_log tr.
Proof.
  intros H. unfold GetFreeIp, Allocator.GetFreeIp.
  destruct (Z.eqb_spec dstPort 0) as [Hz|Hnz].
  - eexists _, []. split; [reflexivity|constructor].
  - destruct H as [H|H]; [contradiction|].
    destruct (ParseCIDR cidrAddr) as [err|]; [|contradiction].
    eexists err, _. split; [reflexivity|].
    repeat constructor. eexists _, _. reflexivity.
Qed.

(** C5: with a non-zero port and a CIDR that parses, and iplib keeping
    [FirstAddress] and every successful [NextIP] inside the block (each
    step nearer to its end), [GetFreeIp] returns, given fuel for the
    block.  It probes from the block's first address on; after a dial
    that failed with an address-unavailable error it moves to [NextIP]
    and probes again, and returns [NextIP]'s error when there is no next
    address; any other dial error is returned as it is; when a dial
    succeeds the address is returned, and it lies in the block. *)
Theorem GetFreeIp_probes_block (rank : IP -> nat) (cidrAddr : string) (dstPort : Z) :
  dstPort <> 0 ->
  ParseCIDR cidrAddr = None ->
  Contains (Net4FromStr cidrAddr) (FirstAddress (Net4FromStr cidrAddr)) = true ->
  (forall a b,
     Contains (Net4FromStr cidrAddr) a = true ->
     NextIP (Net4FromStr cidrAddr) a = (b, None) ->
     Contains (Net4FromStr cidrAddr) b = true /\ (rank b < rank a)%nat) ->
  exists r tr,
    (forall fuel, (rank (FirstAddress (Net4FromStr cidrAddr)) < fuel)%nat ->
                  GetFreeIp fuel cidrAddr dstPort = Some (r, tr)) /\
    probes (Net4FromStr cidrAddr) dstPort (FirstAddress (Net4FromStr cidrAddr)) r tr /\
    within (Net4FromStr cidrAddr) r.
Proof.
  intros Hport Hparse Hfirst Hnext.
  destruct (probe_total (Net4FromStr cidrAddr) dstPort rank Hnext
              (rank (FirstAddress (Net4FromStr cidrAddr)))
              (FirstAddress (Net4FromStr cidrAddr)) eq_refl Hfirst)
    as (r & tr & Hrun & Hpr & Hw).
  exists r, tr. split; [|split; assumption].
  intros fuel Hf. unfold GetFreeIp, Allocator.GetFreeIp.
  destruct (Z.eqb_spec dstPort 0); [contradiction|].
  rewrite Hparse. apply Hrun. exact Hf.
Qed.

(** C10: an address [GetFreeIp] returns is the rendering of the address
    the last dial was made from; that dial went from source port
    [NmProxyPort] to [127.0.0.1:dstPort] and succeeded, its socket is
    closed as the last event before the return, and every dial of the
    call used the same source port and destination. *)
Theorem GetFreeIp_returns_dialled_address
    (fuel : nat) (cidrAddr : string) (dstPort : Z) (s : string)
    (tr : list (Event IP Conn)) :
  GetFreeIp fuel cidrAddr dstPort = Some (Ok s, tr) ->
  exists conn pre,
    tr = pre ++ [EvDial (ParseIP s, NmProxyPort) (ParseIP "127.0.0.1", dstPort);
                 EvClose conn] /\
    DialUDP (ParseIP s, NmProxyPort) (ParseIP "127.0.0.1", dstPort) = Ok conn /\
    Forall (fixed dstPort) tr.
Proof.
  unfold GetFreeIp, Allocator.GetFreeIp.
  destruct (Z.eqb_spec dstPort 0); [discriminate|].
  destruct (ParseCIDR cidrAddr); [discriminate|].
  intros H.
  pose proof (probe_dials _ _ _ _ _ _ H) as Hd.
  destruct (probe_ok _ _ _ _ _ _ H) as (a & conn & pre & -> & -> & Hdial).
  exists conn, pre. auto.
Qed.

End AllocatorFacts.

(** ** The IPv4 instance meets what the allocator asks of iplib *)

Lemma IPv4_NextIP_inside (net4 : IPv4.Net4) (a b : IPv4.IP) :
  IPv4.Contains net4 a = true ->
  IPv4.NextIP net4 a = (b, None) ->
  IPv4.Contains net4 b = true /\ (IPv4.rank net4 b < IPv4.rank net4 a)%nat.
Proof.
  destruct a as [a|]; destruct net4 as [[base len]|]; try discriminate.
  intros Ha. unfold IPv4.NextIP. rewrite Ha. simpl.
  destruct ((base <=? a + 1) && (a + 1 <? base + 2 ^ (32 - len))) eqn:Hb;
    [|discriminate].
  destruct (a + 1 =? base + 2 ^ (32 - len) - 1); [discriminate|].
  intros [= <-]. split; [exact Hb|].
  simpl in Ha.
  apply andb_true_iff in Ha as [Ha1 Ha2]. apply andb_true_iff in Hb as [Hb1 Hb2].
  lia.
Qed.

Example GetFreeIp_scenario_A :
  IPv4.GetFreeIp [] [] "linux" 1 "127.1.0.0/24" 51820 =
  Some (Ok "127.1.0.1",
        [Allocator.EvDial (IPv4.ParseIP "127.1.0.1", 51722) (IPv4.ParseIP "127.0.0.1", 51820);
         Allocator.EvClose (IPv4.ParseIP "127.1.0.1", 51722)]).
Proof. vm_compute. reflexivity. Qed.

Lemma GetFreeIp_fails_fast_witness :
  exists err tr,
    IPv4.GetFreeIp [] [] "linux" 0 "127.1.0.0/24" 0 = Some (Err err, tr) /\
    Forall Allocator.is_log tr.
Proof.
  apply (GetFreeIp_fails_fast IPv4.ParseCIDR IPv4.Net4FromStr IPv4.FirstAddress
           IPv4.NextIP IPv4.IP_String IPv4.ParseIP (IPv4.DialUDP [] []) "linux"
           IPv4.RunCmd IPv4.NmProxyPort 0%nat "127.1.0.0/24" 0).
  left. reflexivity.
Defined.

Lemma GetFreeIp_probes_block_witness :
  exists r tr,
    (forall fuel,
       (IPv4.rank (IPv4.Net4FromStr "127.1.0.0/30")
          (IPv4.FirstAddress (IPv4.Net4FromStr "127.1.0.0/30")) < fuel)%nat ->
       IPv4.GetFreeIp [2130771969] [] "linux" fuel "127.1.0.0/30" 51820 = Some (r, tr)) /\
    Allocator.probes IPv4.NextIP IPv4.IP_String IPv4.ParseIP
      (IPv4.DialUDP [2130771969] []) "linux" IPv4.RunCmd IPv4.NmProxyPort
      (IPv4.Net4FromStr "127.1.0.0/30") 51820
      (IPv4.FirstAddress (IPv4.Net4FromStr "127.1.0.0/30")) r tr /\
    Allocator.within IPv4.IP_String IPv4.Contains (IPv4.Net4FromStr "127.1.0.0/30") r.
Proof.
  apply (GetFreeIp_probes_block IPv4.ParseCIDR IPv4.Net4FromStr IPv4.FirstAddress
           IPv4.NextIP IPv4.IP_String IPv4.ParseIP (IPv4.DialUDP [2130771969] [])
           "linux" IPv4.RunCmd IPv4.NmProxyPort IPv4.Contains
           (IPv4.rank (IPv4.Net4FromStr "127.1.0.0/30")) "127.1.0.0/30" 51820).
  - lia.
  - reflexivity.
  - reflexivity.
  - intros a b Ha Hn. exact (IPv4_NextIP_inside _ a b Ha Hn).
Defined.

Lemma GetFreeIp_returns_dialled_address_witness :
  exists conn pre,
    [Allocator.EvDial (IPv4.ParseIP "127.1.0.1", 51722) (IPv4.ParseIP "127.0.0.1", 51820);
     Allocator.EvLog 1 ["----> GetFreeIP err: "; "dial udp: bind: address already in use"];
     Allocator.EvDial (IPv4.ParseIP "127.1.0.2", 51722) (IPv4.ParseIP "127.0.0.1", 51820);
     Allocator.EvClose (IPv4.ParseIP "127.1.0.2", 51722)]
    = pre ++ [Allocator.EvDial (IPv4.ParseIP "127.1.0.2", IPv4.NmProxyPort)
                (IPv4.ParseIP "127.0.0.1", 51820);
              Allocator.EvClose conn] /\
    IPv4.DialUDP [2130771969] [] (IPv4.ParseIP "127.1.0.2", IPv4.NmProxyPort)
      (IPv4.ParseIP "127.0.0.1", 51820) = Ok conn /\
    Forall (Allocator.dial_ports_fixed IPv4.ParseIP IPv4.NmProxyPort 51820)
      [Allocator.EvDial (IPv4.ParseIP "127.1.0.1", 51722) (IPv4.ParseIP "127.0.0.1", 51820);
       Allocator.EvLog 1 ["----> GetFreeIP err: "; "dial udp: bind: address already in use"];
       Allocator.EvDial (IPv4.ParseIP "127.1.0.2", 51722) (IPv4.ParseIP "127.0.0.1", 51820);
       Allocator.EvClose (IPv4.ParseIP "127.1.0.2", 51722)].
Proof.
  apply (GetFreeIp_returns_dialled_address IPv4.ParseCIDR IPv4.Net4FromStr
           IPv4.FirstAddress IPv4.NextIP IPv4.IP_String IPv4.ParseIP
           (IPv4.DialUDP [2130771969] []) "linux" IPv4.RunCmd IPv4.NmProxyPort
           2%nat "127.1.0.0/30" 51820 "127.1.0.2").
  vm_compute. reflexivity.
Defined.

(** ** The forwarding loop *)

Section ForwardFacts.

Import proxy.

Variable T : list Byte.byte -> Z -> string -> string -> list Byte.byte * Z * string * string.
Variable DevicePubKey : string.
Variable Debug : bool.
Variable LocalAddr ServerAddr : string.

Let forward := forward T DevicePubKey Debug LocalAddr ServerAddr.
Let toRemote_loop := toRemote_loop T DevicePubKey Debug LocalAddr ServerAddr.
Let outgoing := outgoing T DevicePubKey.

Lemma writes_app (l1 l2 : list Event) : writes (l1 ++ l2) = writes l1 ++ writes l2.
Proof. unfold writes. apply omap_app. Qed.

(** One pass through lines 62-84 with the read's [err] nil: the loop goes
    on, exactly one datagram is written, the one [outgoing] gives, the
    log line of line 67 is not written, and a failed write is logged as
    the last event. *)
Lemma forward_shape (p : Proxy) (buf : list Byte.byte) (n : Z) (write_err : option string)
    (buf1 data : list Byte.byte) (n1 : Z) :
  outgoing p buf n = (buf1, n1) ->
  has_transport p = true ->
  slice_to buf1 n1 = Some data ->
  exists evs,
    forward p buf n None write_err = (Some buf1, evs) /\
    writes evs = [data] /\
    Forall (fun e => is_transform_log e = false) evs /\
    forall e, write_err = Some e ->
              exists pre w, evs = pre ++ [w; write_failure_log p e] /\
                            written w = Some data /\ writes pre = [].
Proof.
  unfold outgoing, proxy.outgoing, forward, proxy.forward, transforms,
    has_transport, write_failure_log.
  intros Hout Htr Hsl.
  destruct (models.ProxyStatus (Config p)), (models.UsingTurn (Config p));
    simpl in Hout, Htr |- *;
    try destruct (T buf n DevicePubKey (models.PeerPublicKey (Config p)))
      as [[[b' n'] src] dst];
    injection Hout as -> ->;
    try (destruct (models.TurnConn (Config p)) as [turn|]; [|discriminate]);
    rewrite Hsl; destruct Debug, write_err as [e0|]; simpl;
    (eexists; split; [reflexivity|]; split; [reflexivity|]; split;
     [repeat constructor|]);
    intros e He; try discriminate; injection He as ->;
    first [ eexists [], _; split; [reflexivity|]; split; reflexivity
          | eexists [_], _; split; [reflexivity|]; split; reflexivity ].
Qed.

(** The loop over a script that starts with a successful read. *)
Lemma toRemote_loop_read_ok (p : Proxy) (buf0 : list Byte.byte) (t : Tick) (rest : list Tick)
    (datagram : list Byte.byte) :
  ctx_done t = false -> read t = ReadOk datagram ->
  toRemote_loop p buf0 (t :: rest) =
  let '(buf, n) := conn_Read buf0 datagram in
  match forward p buf n None (write_err t) with
  | (Some buf', evs) =>
      (fst (toRemote_loop p buf' rest),
       EvGo n (Config p) :: evs ++ snd (toRemote_loop p buf' rest))
  | (None, evs) => (Panicked, EvGo n (Config p) :: evs)
  end.
Proof.
  intros Hd Hr. unfold toRemote_loop, forward. simpl. rewrite Hd, Hr.
  unfold conn_Read.
  match goal with
  | |- context [proxy.forward ?a ?b ?c ?d ?e ?f ?g ?h ?i ?j] =>
      destruct (proxy.forward a b c d e f g h i j) as [[buf'|] evs]
  end; [|reflexivity].
  destruct (proxy.toRemote_loop T DevicePubKey Debug LocalAddr ServerAddr p buf' rest).
  reflexivity.
Qed.

(** C8: a read error on the local socket ends the loop, whatever the
    environment would have done next: the error is logged and nothing of
    the rest of the script is consumed.  A failed write to the remote
    destination (through the TURN transport or the shared uplink) does
    not: the iteration makes its one write attempt, logs the failure as
    its last event, and the loop carries on with the rest of the script. *)
Theorem toRemote_read_error_ends_write_error_continues
    (p : Proxy) (buf0 : list Byte.byte) (rest : list Tick) (e : string) :
  (forall w,
     toRemote_loop p buf0 ({| ctx_done := false; read := ReadErr e; write_err := w |} :: rest)
     = (Returned, [EvLog 1 ["error reading: "; e]])) /\
  (forall datagram buf n buf1 n1 data,
     conn_Read buf0 datagram = (buf, n) ->
     outgoing p buf n = (buf1, n1) ->
     has_transport p = true ->
     slice_to buf1 n1 = Some data ->
     exists pre w,
       toRemote_loop p buf0
         ({| ctx_done := false; read := ReadOk datagram; write_err := Some e |} :: rest)
       = (fst (toRemote_loop p buf1 rest),
          EvGo n (Config p) :: (pre ++ [w; write_failure_log p e])
            ++ snd (toRemote_loop p buf1 rest)) /\
       written w = Some data /\ writes pre = []).
Proof.
  split.
  - intros w. reflexivity.
  - intros datagram buf n buf1 n1 data Hread Hout Htr Hsl.
    destruct (forward_shape p buf n (Some e) buf1 data n1 Hout Htr Hsl)
      as (evs & Hf & _ & _ & Hlog).
    destruct (Hlog e eq_refl) as (pre & w & -> & Hw & Hpre).
    exists pre, w. split; [|split; assumption].
    rewrite (toRemote_loop_read_ok p buf0 _ rest datagram) by reflexivity.
    rewrite Hread. simpl write_err. fold forward. rewrite Hf. reflexivity.
Qed.

End ForwardFacts.

Lemma toRemote_read_error_ends_write_error_continues_witness :
  exists pre w,
    proxy.toRemote_loop trailer_transform "dev" false "l" "s" relayed_proxy
      [Byte.x00; Byte.x00; Byte.x00; Byte.x00]
      [{| proxy.ctx_done := false; proxy.read := proxy.ReadOk [Byte.x01; Byte.x02];
          proxy.write_err := Some "sendto: network is unreachable" |};
       {| proxy.ctx_done := false; proxy.read := proxy.ReadErr "use of closed network connection";
          proxy.write_err := None |}]
    = (fst (proxy.toRemote_loop trailer_transform "dev" false "l" "s" relayed_proxy
              [Byte.x01; Byte.x02; Byte.xff; Byte.x00]
              [{| proxy.ctx_done := false;
                  proxy.read := proxy.ReadErr "use of closed network connection";
                  proxy.write_err := None |}]),
       proxy.EvGo 2 (proxy.Config relayed_proxy)
         :: (pre ++ [w; proxy.write_failure_log relayed_proxy "sendto: network is unreachable"])
         ++ snd (proxy.toRemote_loop trailer_transform "dev" false "l" "s" relayed_proxy
                   [Byte.x01; Byte.x02; Byte.xff; Byte.x00]
                   [{| proxy.ctx_done := false;
                       proxy.read := proxy.ReadErr "use of closed network connection";
                       proxy.write_err := None |}])) /\
    proxy.written w = Some [Byte.x01; Byte.x02; Byte.xff] /\ proxy.writes pre = [].
Proof.
  apply (toRemote_read_error_ends_write_error_continues trailer_transform "dev" false
           "l" "s" relayed_proxy [Byte.x00; Byte.x00; Byte.x00; Byte.x00]
           [{| proxy.ctx_done := false;
               proxy.read := proxy.ReadErr "use of closed network connection";
               proxy.write_err := None |}]
           "sendto: network is unreachable")
    with (datagram := [Byte.x01; Byte.x02])
         (buf := [Byte.x01; Byte.x02; Byte.x00; Byte.x00]) (n := 2) (n1 := 3);
    reflexivity.
Defined.

(** ** The metric task *)

Section MetricFacts.

Import proxy.

Lemma wrap64_id (z : Z) : int64_range z -> wrap64 z = z.
Proof.
  unfold int64_range, wrap64. intros H.
  rewrite Z.mod_small by lia. lia.
Qed.

Lemma sent_bump_same (key : string) (n : Z) (st : metrics.Store) (server : string) :
  metrics.sent (bump key n st server) server key = add64 (metrics.sent st server key) n.
Proof.
  unfold metrics.sent, bump, metrics.UpdateMetric, metrics.GetMetric at 1.
  rewrite lookup_insert_eq. reflexivity.
Qed.

Lemma lookup_bump_other (key : string) (n : Z) (st : metrics.Store)
    (server server' key' : string) :
  (server', key') <> (server, key) ->
  bump key n st server !! (server', key') = st !! (server', key').
Proof.
  intros Hne. unfold bump, metrics.UpdateMetric.
  apply lookup_insert_ne. congruence.
Qed.

Lemma lookup_foldl_bump_other (key : string) (n : Z) (servers : list string) :
  forall (st : metrics.Store) (server' key' : string),
    server' ∉ servers \/ key' <> key ->
    foldl (bump key n) st servers !! (server', key') = st !! (server', key').
Proof.
  induction servers as [|s servers IH]; intros st server' key' H; [reflexivity|].
  simpl. rewrite IH.
  - apply lookup_bump_other. intros [= -> ->]. destruct H as [H|H]; [|congruence].
    apply H. left.
  - destruct H as [H|H]; [left|right; exact H].
    intros Hin. apply H. right. exact Hin.
Qed.

Lemma sent_foldl_bump (key : string) (n : Z) (servers : list string) :
  NoDup servers ->
  forall (st : metrics.Store) (server : string),
    server ∈ servers ->
    metrics.sent (foldl (bump key n) st servers) server key
    = add64 (metrics.sent st server key) n.
Proof.
  induction 1 as [|s servers Hs Hnd IH]; intros st server Hin.
  - inversion Hin.
  - simpl. apply elem_of_cons in Hin as [->|Hin].
    + unfold metrics.sent, metrics.GetMetric at 1.
      rewrite lookup_foldl_bump_other by (left; exact Hs).
      apply sent_bump_same.
    + rewrite IH by exact Hin.
      unfold metrics.sent, metrics.GetMetric.
      rewrite lookup_bump_other; [reflexivity|].
      intros [= -> ]. contradiction.
Qed.

(** A task that runs alone does, in two steps per server, what the
    goroutine's body does. *)
Lemma run_alone_servers (n : Z) (key : string) (servers : list string) :
  forall (st : metrics.Store),
    run_alone (2 * length servers) st
      {| task_n := n; task_key := key; task_servers := servers; task_metric := None |}
    = (foldl (bump key n) st servers,
       {| task_n := n; task_key := key; task_servers := []; task_metric := None |}).
Proof.
  induction servers as [|s servers IH]; intros st; [reflexivity|].
  replace (2 * length (s :: servers))%nat with (S (S (2 * length servers))) by (simpl; lia).
  cbn [run_alone task_step task_servers task_metric task_n task_key].
  rewrite IH. reflexivity.
Qed.

(** C7, amended: a metric task that runs from its lookup to its last
    update with no other task of the same peer in between adds the
    datagram's length, in int64 arithmetic, to the bytes-sent counter of
    every server of the peer's registry entry when relaying is on (so,
    short of overflow, exactly [n], and the counter does not go down);
    it leaves every other counter alone, and it changes nothing when
    relaying is off or the peer has no registry entry. *)
Theorem metric_task_adds_length
    (reg : config.Registry) (p : Proxy) (n : Z) (cfg : models.Proxy)
    (st : metrics.Store) :
  let key := models.PeerPublicKey cfg in
  let st' := metric_task reg p n cfg st in
  fst (run_alone (2 * length (task_servers (spawn reg p n cfg))) st (spawn reg p n cfg))
    = st' /\
  (forall conn server,
     models.ProxyStatus (Config p) = true ->
     config.proxyPeerMap reg !! key = Some conn ->
     server ∈ models.ServerMap conn ->
     metrics.sent st' server key = add64 (metrics.sent st server key) n /\
     (0 <= n -> 0 <= metrics.sent st server key ->
      metrics.sent st server key + n < 2 ^ 63 ->
      metrics.sent st' server key = metrics.sent st server key + n /\
      metrics.sent st server key <= metrics.sent st' server key)) /\
  (forall server key',
     server ∉ models.ServerMap (peerConnCfg reg p cfg) \/ key' <> key ->
     st' !! (server, key') = st !! (server, key')) /\
  (models.ProxyStatus (Config p) = false \/ config.proxyPeerMap reg !! key = None ->
   st' = st).
Proof.
  intros key st'. subst st'. unfold metric_task. fold key.
  split; [|split; [|split]].
  - unfold spawn. fold key. cbn [task_servers].
    rewrite run_alone_servers. reflexivity.
  - intros conn server Hon Hreg Hin.
    assert (Hc : peerConnCfg reg p cfg = conn).
    { unfold peerConnCfg, config.GetPeer. fold key. rewrite Hon, Hreg. reflexivity. }
    rewrite Hc.
    assert (Hs : metrics.sent (foldl (bump key n) st (elements (models.ServerMap conn)))
                   server key = add64 (metrics.sent st server key) n).
    { apply sent_foldl_bump; [apply NoDup_elements|].
      apply elem_of_elements. exact Hin. }
    split; [exact Hs|].
    intros Hn H0 Hlt. rewrite Hs. unfold add64.
    rewrite wrap64_id by (unfold int64_range; lia). lia.
  - intros server key' H. apply lookup_foldl_bump_other.
    destruct H as [H|H]; [left|right; exact H].
    rewrite elem_of_elements. exact H.
  - intros H.
    assert (Hc : peerConnCfg reg p cfg = models.zeroConn).
    { unfold peerConnCfg, config.GetPeer. fold key.
      destruct (models.ProxyStatus (Config p)); [|reflexivity].
      destruct H as [H|H]; [discriminate|]. rewrite H. reflexivity. }
    rewrite Hc. simpl. rewrite elements_empty. reflexivity.
Qed.


End MetricFacts.

(** C7, as stated, fails when the tasks of three datagrams (50, 100 and
    100 bytes) overlap: the first task reads the counter (0), the other
    two read and write it in turn (100, then 200), and the first task
    then writes 0 + 50.  The counter goes down from 200 to 50, and with
    all three tasks finished it stands at 50, not 250. *)
Lemma counts_every_datagram_counterexample :
  let tasks :=
    map (fun n => proxy.spawn registry_X relayed_proxy n (proxy.Config relayed_proxy))
      [50; 100; 100] in
  metrics.sent (fst (proxy.run [0; 1; 1; 2; 2]%nat ∅ tasks)) "s" "X" = 200 /\
  metrics.sent (fst (proxy.run [0; 1; 1; 2; 2; 0]%nat ∅ tasks)) "s" "X" = 50 /\
  forallb proxy.finished (snd (proxy.run [0; 1; 1; 2; 2; 0]%nat ∅ tasks)) = true /\
  ~ proxy.counts_every_datagram registry_X relayed_proxy (proxy.Config relayed_proxy)
      "s" [50; 100; 100].
Proof.
  cbv zeta. split; [vm_compute; reflexivity|].
  split; [vm_compute; reflexivity|]. split; [vm_compute; reflexivity|].
  intros H.
  destruct (H [0; 1; 1; 2; 2]%nat [0%nat] ∅) as [Hle _].
  vm_compute in Hle. apply Hle. reflexivity.
Qed.

Lemma metric_task_adds_length_witness :
  metrics.sent
    (proxy.metric_task registry_X relayed_proxy 100 (proxy.Config relayed_proxy) ∅)
    "s" "X"
  = add64 (metrics.sent ∅ "s" "X") 100.
Proof.
  apply (metric_task_adds_length registry_X relayed_proxy 100
           (proxy.Config relayed_proxy) ∅)
    with (conn := {| models.Key := "X"; models.Config := proxy.Config relayed_proxy;
                     models.LocalConn := Some 1%nat; models.ResetConn := Some 0%nat;
                     models.StopConn := Some 0%nat; models.ServerMap := {[ "s" ]} |}).
  - reflexivity.
  - vm_compute. reflexivity.
  - vm_compute. reflexivity.
Defined.

(** ** Reset *)

Section ResetFacts.

Import proxy.

Variable Start : Proxy -> Proxy * option string.
Variable ConvPeerKeyToHash : string -> string.

Let Reset := Reset Start ConvPeerKeyToHash.

Lemma chan_send_None (ch : Chan) : chan_send ch = None <-> chan_full ch.
Proof.
  unfold chan_send, chan_full. destruct (chan_receivers ch) as [|r].
  - destruct (Nat.ltb_spec (chan_len ch) (chan_cap ch)); split;
      try discriminate; try tauto; intros [_ H']; lia.
  - split; [discriminate|]. intros [H _]. discriminate.
Qed.

Lemma signal_blocks (w : World) :
  fst (signal w) = BlockedOnSend <-> chan_full (DumpSignalChan w).
Proof.
  rewrite <- chan_send_None. unfold signal.
  destruct (chan_send (DumpSignalChan w)); simpl; split; congruence.
Qed.

Lemma signal_channel (w : World) :
  DumpSignalChan (snd (signal (w))) =
  match chan_send (DumpSignalChan w) with Some ch => ch | None => DumpSignalChan w end.
Proof. unfold signal. destruct (chan_send (DumpSignalChan w)); reflexivity. Qed.

Lemma Reset_with_endpoint (p : Proxy) (w : World) (endpoint : string) :
  models.PeerEndpoint (Config p) = Some endpoint ->
  Reset p w =
  let '(p3, w3) := before_Start p w in
  match Start p3 with
  | (p4, Some e) =>
      (Done, emit (LLog 0 ["Failed to reset proxy for peer: ";
                           models.PeerPublicKey (Config p4); "Err: "; e]) w3)
  | (p4, None) => signal (set_registry (publish ConvPeerKeyToHash p4 (registry w3)) w3)
  end.
Proof.
  intros Hep. unfold Reset, proxy.Reset, before_Start, Close. simpl. rewrite Hep.
  destruct (pullLatestConfig _ _) as [p2 err]. simpl.
  destruct (Start _) as [p4 [e|]]; reflexivity.
Qed.

Lemma before_Start_channel (p : Proxy) (w : World) :
  DumpSignalChan (snd (before_Start p w)) = DumpSignalChan w.
Proof.
  unfold before_Start, Close. simpl.
  destruct (pullLatestConfig _ _) as [p2 [e|]]; reflexivity.
Qed.

(** C9: on a proxy whose [Config.PeerEndpoint] is nil, [Reset] logs,
    closes the endpoint and returns: the registry (both indices) and the
    signal channel are as they were, no [Proxy] object is constructed or
    started, and nothing is sent. *)
Theorem Reset_nil_endpoint (p : Proxy) (w : World) :
  models.PeerEndpoint (Config p) = None ->
  exists w',
    Reset p w = (Done, w') /\
    registry w' = registry w /\
    DumpSignalChan w' = DumpSignalChan w /\
    next_id w' = next_id w /\
    trace w' = trace w ++ [LLog 0 ["Resetting proxy connection for peer: ";
                                   models.PeerPublicKey (Config p)];
                           LCancel (Id p); LCloseConn (Id p) (LocalConn p)] /\
    forallb (fun e => negb (builds_endpoint e) && negb (is_send e))
      (skipn (length (trace w)) (trace w')) = true.
Proof.
  intros Hep. eexists. split.
  - unfold Reset, proxy.Reset, Close. simpl. rewrite Hep. reflexivity.
  - simpl. repeat split; try reflexivity.
    + rewrite <- !app_assoc. reflexivity.
    + rewrite <- !app_assoc, drop_app_length. reflexivity.
Qed.

(** C3, amended: the send that ends a successful [Reset] is a plain
    channel send.  It goes through at once when a receiver is parked on
    the channel or the buffer has room; when neither holds (always so for
    an unbuffered channel nobody is receiving from) [Reset] stays parked
    on the send until the persistence task takes a value. *)
Theorem Reset_send_blocks_when_full (p : Proxy) (w : World) (endpoint : string) :
  models.PeerEndpoint (Config p) = Some endpoint ->
  (forall q, snd (Start q) = None) ->
  (fst (Reset p w) = BlockedOnSend <-> chan_full (DumpSignalChan w)) /\
  (fst (Reset p w) = Done ->
   chan_send (DumpSignalChan w) = Some (DumpSignalChan (snd (Reset p w))) /\
   exists pre, trace (snd (Reset p w)) = pre ++ [LSend]).
Proof.
  intros Hep Hstart. rewrite (Reset_with_endpoint p w endpoint Hep).
  pose proof (before_Start_channel p w) as Hch.
  destruct (before_Start p w) as [p3 w3]. simpl in Hch.
  pose proof (Hstart p3) as Hs. destruct (Start p3) as [p4 err]. simpl in Hs. subst err.
  split.
  - rewrite signal_blocks. simpl. rewrite Hch. reflexivity.
  - unfold signal. simpl. rewrite Hch.
    destruct (chan_send (DumpSignalChan w)) as [ch|]; simpl; [|discriminate].
    intros _. split; [reflexivity|]. eexists. reflexivity.
Qed.


End ResetFacts.

(** C1 fails on the code: when the registry has no entry for the peer,
    [Reset] logs "couldn't perform reset: ... peer not found" and does not
    return; it goes on to construct a new [Proxy] from the stale
    configuration and to start it, whatever [Start] then does. *)
Theorem Reset_goes_on_after_miss
    (Start : proxy.Proxy -> proxy.Proxy * option string) (Conv : string -> string)
    (p : proxy.Proxy) (w : proxy.World) (endpoint : string) :
  models.PeerEndpoint (proxy.Config p) = Some endpoint ->
  config.proxyPeerMap (proxy.registry w) !! models.PeerPublicKey (proxy.Config p) = None ->
  exists tl,
    proxy.trace (snd (proxy.Reset Start Conv p w)) =
    proxy.trace w ++
      [proxy.LLog 0 ["Resetting proxy connection for peer: ";
                     models.PeerPublicKey (proxy.Config p)];
       proxy.LCancel (proxy.Id p);
       proxy.LCloseConn (proxy.Id p) (proxy.LocalConn p);
       proxy.LLog 1 ["couldn't perform reset: "; models.PeerPublicKey (proxy.Config p);
                     "peer not found"];
       proxy.LNew (proxy.next_id w) (proxy.Config p);
       proxy.LStart (proxy.next_id w)] ++ tl.
Proof.
  intros Hep Hmiss. rewrite (Reset_with_endpoint Start Conv p w endpoint Hep).
  unfold proxy.before_Start, proxy.Close, proxy.pullLatestConfig, config.GetPeer.
  simpl. rewrite Hmiss. simpl.
  destruct (Start _) as [p4 [e|]]; simpl.
  - eexists [_]. rewrite <- !app_assoc. reflexivity.
  - unfold proxy.signal. simpl.
    destruct (proxy.chan_send (proxy.DumpSignalChan w)); simpl.
    + eexists [_]. rewrite <- !app_assoc. reflexivity.
    + exists []. rewrite <- !app_assoc. reflexivity.
Qed.

(** The same at a concrete input: peer X is gone from the registry and
    [Start] succeeds; the new [Proxy] is started and the persistence
    signal is sent. *)
Example Reset_lookup_miss_still_starts :
  proxy.Reset start_ok hash_of relayed_proxy world_without_X =
  (proxy.Done,
   {| proxy.registry := {| config.proxyPeerMap := ∅; config.peerHashMap := ∅ |};
      proxy.DumpSignalChan := {| proxy.chan_cap := 5; proxy.chan_len := 1;
                                 proxy.chan_receivers := 0 |};
      proxy.next_id := 2%nat;
      proxy.trace :=
        [proxy.LLog 0 ["Resetting proxy connection for peer: "; "X"];
         proxy.LCancel 0; proxy.LCloseConn 0 (Some 1%nat);
         proxy.LLog 1 ["couldn't perform reset: "; "X"; "peer not found"];
         proxy.LNew 1 (proxy.Config relayed_proxy);
         proxy.LStart 1;
         proxy.LSend] |}).
Proof. reflexivity. Qed.

Lemma Reset_goes_on_after_miss_witness :
  exists tl,
    proxy.trace (snd (proxy.Reset start_ok hash_of relayed_proxy world_without_X)) =
    proxy.trace world_without_X ++
      [proxy.LLog 0 ["Resetting proxy connection for peer: ";
                     models.PeerPublicKey (proxy.Config relayed_proxy)];
       proxy.LCancel (proxy.Id relayed_proxy);
       proxy.LCloseConn (proxy.Id relayed_proxy) (proxy.LocalConn relayed_proxy);
       proxy.LLog 1 ["couldn't perform reset: ";
                     models.PeerPublicKey (proxy.Config relayed_proxy);
                     "peer not found"];
       proxy.LNew (proxy.next_id world_without_X) (proxy.Config relayed_proxy);
       proxy.LStart (proxy.next_id world_without_X)] ++ tl.
Proof.
  apply (Reset_goes_on_after_miss start_ok hash_of relayed_proxy world_without_X
           "203.0.113.7:51821").
  - reflexivity.
  - reflexivity.
Defined.

(** C3, as stated, fails: with the signal channel full and nobody
    receiving, a [Reset] whose [Start] succeeded ends parked on the send. *)
Lemma never_blocks_counterexample :
  proxy.Reset start_ok hash_of relayed_proxy world_channel_full
    = (proxy.BlockedOnSend,
       snd (proxy.Reset start_ok hash_of relayed_proxy world_channel_full)) /\
  ~ proxy.never_blocks start_ok hash_of.
Proof.
  assert (H : fst (proxy.Reset start_ok hash_of relayed_proxy world_channel_full)
              = proxy.BlockedOnSend).
  { rewrite (Reset_with_endpoint start_ok hash_of relayed_proxy world_channel_full
               "203.0.113.7:51821" eq_refl).
    reflexivity. }
  split.
  - rewrite <- H. apply surjective_pairing.
  - intros Hn. specialize (Hn relayed_proxy world_channel_full).
    rewrite H in Hn. discriminate.
Qed.

Lemma Reset_nil_endpoint_witness :
  exists w',
    proxy.Reset start_ok hash_of idle_proxy world_channel_full = (proxy.Done, w') /\
    proxy.registry w' = proxy.registry world_channel_full /\
    proxy.DumpSignalChan w' = proxy.DumpSignalChan world_channel_full /\
    proxy.next_id w' = proxy.next_id world_channel_full /\
    proxy.trace w' =
      proxy.trace world_channel_full ++
        [proxy.LLog 0 ["Resetting proxy connection for peer: ";
                       models.PeerPublicKey (proxy.Config idle_proxy)];
         proxy.LCancel (proxy.Id idle_proxy);
         proxy.LCloseConn (proxy.Id idle_proxy) (proxy.LocalConn idle_proxy)] /\
    forallb (fun e => negb (proxy.builds_endpoint e) && negb (proxy.is_send e))
      (skipn (length (proxy.trace world_channel_full)) (proxy.trace w')) = true.
Proof.
  apply (Reset_nil_endpoint start_ok hash_of idle_proxy world_channel_full).
  reflexivity.
Defined.

Lemma Reset_send_blocks_when_full_witness :
  (fst (proxy.Reset start_ok hash_of relayed_proxy world_without_X) = proxy.BlockedOnSend
   <-> proxy.chan_full (proxy.DumpSignalChan world_without_X)) /\
  (fst (proxy.Reset start_ok hash_of relayed_proxy world_without_X) = proxy.Done ->
   proxy.chan_send (proxy.DumpSignalChan world_without_X)
     = Some (proxy.DumpSignalChan
               (snd (proxy.Reset start_ok hash_of relayed_proxy world_without_X))) /\
   exists pre,
     proxy.trace (snd (proxy.Reset start_ok hash_of relayed_proxy world_without_X))
       = pre ++ [proxy.LSend]).
Proof.
  apply (Reset_send_blocks_when_full start_ok hash_of relayed_proxy world_without_X
           "203.0.113.7:51821").
  - reflexivity.
  - intros q. reflexivity.
Defined.

(** ** More on the forwarding loop *)

Section ForwardMore.

Import proxy.

Variable T : list Byte.byte -> Z -> string -> string -> list Byte.byte * Z * string * string.
Variable DevicePubKey : string.
Variable Debug : bool.
Variable LocalAddr ServerAddr : string.

Let forward := forward T DevicePubKey Debug LocalAddr ServerAddr.
Let loop := toRemote_loop T DevicePubKey Debug LocalAddr ServerAddr.

Lemma loop_cons (p : Proxy) (buf : list Byte.byte) (t : Tick) (rest : list Tick) :
  loop p buf (t :: rest) =
  if ctx_done t then (Returned, [])
  else
    match read t with
    | ReadErr e => (Returned, [EvLog 1 ["error reading: "; e]])
    | ReadOk datagram =>
        match forward p (fst (conn_Read buf datagram)) (snd (conn_Read buf datagram))
                None (write_err t) with
        | (Some buf', evs) =>
            (fst (loop p buf' rest),
             EvGo (snd (conn_Read buf datagram)) (Config p) :: evs ++ snd (loop p buf' rest))
        | (None, evs) =>
            (Panicked, EvGo (snd (conn_Read buf datagram)) (Config p) :: evs)
        end
    end.
Proof.
  unfold loop, forward. simpl. destruct (ctx_done t); [reflexivity|].
  destruct (read t) as [datagram|e]; [|reflexivity].
  unfold conn_Read. simpl.
  match goal with
  | |- context [proxy.forward ?a ?b ?c ?d ?e ?f ?g ?h ?i ?j] =>
      destruct (proxy.forward a b c d e f g h i j) as [[buf'|] evs]
  end; [|reflexivity].
  destruct (toRemote_loop T DevicePubKey Debug LocalAddr ServerAddr p buf' rest).
  reflexivity.
Qed.

(** X1: the loop over a script given in two parts is the loop over the
    first part followed, if it is still running, by the loop over the
    second part from the buffer the first part left; once the loop has
    returned or panicked, the rest of the script changes nothing. *)
Theorem toRemote_loop_app (p : Proxy) (s1 s2 : list Tick) :
  forall buf,
    loop p buf (s1 ++ s2) =
    match loop p buf s1 with
    | (Running buf', evs) => (fst (loop p buf' s2), evs ++ snd (loop p buf' s2))
    | stopped => stopped
    end.
Proof.
  induction s1 as [|t s1 IH]; intros buf.
  - simpl. destruct (loop p buf s2); reflexivity.
  - rewrite <- app_comm_cons, !loop_cons.
    destruct (ctx_done t); [reflexivity|].
    destruct (read t) as [datagram|e]; [|reflexivity].
    destruct (forward p _ _ None (write_err t)) as [[buf'|] evs]; [|reflexivity].
    rewrite IH. destruct (loop p buf' s1) as [[|buf''|] evs1]; simpl; try reflexivity.
    rewrite app_comm_cons, !app_assoc. reflexivity.
Qed.

(** The loop returns only at a tick at which the context is done or the
    read fails, every earlier tick having handed it a datagram. *)
Lemma loop_Returned (p : Proxy) (script : list Tick) :
  forall buf,
    fst (loop p buf script) = Returned ->
    exists pre t post,
      script = pre ++ t :: post /\
      datagram_of t = None /\
      Forall (fun t' => datagram_of t' <> None) pre.
Proof.
  induction script as [|t rest IH]; intros buf; [discriminate|].
  rewrite loop_cons. unfold datagram_of at 1.
  destruct (ctx_done t) eqn:Hd.
  - intros _. exists [], t, rest. repeat split; [|constructor].
    unfold datagram_of. rewrite Hd. reflexivity.
  - destruct (read t) as [datagram|e] eqn:Hr.
    + destruct (forward p _ _ None (write_err t)) as [[buf'|] evs]; [|discriminate].
      simpl. intros H. destruct (IH _ H) as (pre & t' & post & -> & Ht' & Hpre).
      exists (t :: pre), t', post. repeat split; [exact Ht'|].
      constructor; [|exact Hpre]. unfold datagram_of. rewrite Hd, Hr. discriminate.
    + intros _. exists [], t, rest. repeat split; [|constructor].
      unfold datagram_of. rewrite Hd, Hr. reflexivity.
Qed.

(** What one pass through lines 62-84 never does: write the log line of
    line 67, spawn a task, or use the write path of the other mode. *)
Lemma forward_never (p : Proxy) (buf : list Byte.byte) (n : Z) (write_err : option string) :
  Forall (fun e =>
            is_transform_log e = false /\ is_go e = false /\
            (models.UsingTurn (Config p) = true -> is_uplink_write e = false) /\
            (models.UsingTurn (Config p) = false -> is_turn_write e = false))
    (snd (forward p buf n None write_err)).
Proof.
  unfold forward, proxy.forward.
  destruct (models.ProxyStatus (Config p)), (models.UsingTurn (Config p)) eqn:Hturn;
    simpl;
    try destruct (T buf n DevicePubKey (models.PeerPublicKey (Config p)))
      as [[[b' n'] src] dst];
    try destruct (models.TurnConn (Config p)) as [turn|];
    try destruct (slice_to _ _) as [data|];
    destruct Debug, write_err as [e0|]; simpl;
    repeat constructor; simpl; auto; discriminate.
Qed.

Lemma conn_Read_length (buf datagram : list Byte.byte) :
  length (fst (conn_Read buf datagram)) = length buf.
Proof.
  unfold conn_Read. simpl. rewrite length_app, length_take, length_drop. lia.
Qed.

Lemma conn_Read_range (buf datagram : list Byte.byte) :
  0 <= snd (conn_Read buf datagram) <= Z.of_nat (length (fst (conn_Read buf datagram))).
Proof.
  rewrite conn_Read_length. unfold conn_Read. simpl. lia.
Qed.

Lemma conn_Read_slice (buf datagram : list Byte.byte) :
  slice_to (fst (conn_Read buf datagram)) (snd (conn_Read buf datagram))
  = Some (firstn (length buf) datagram).
Proof.
  pose proof (conn_Read_range buf datagram) as Hr.
  unfold slice_to.
  destruct (Z.leb_spec 0 (snd (conn_Read buf datagram))); [|lia].
  destruct (Z.leb_spec (snd (conn_Read buf datagram))
              (Z.of_nat (length (fst (conn_Read buf datagram))))); [|lia].
  simpl. f_equal. unfold conn_Read. simpl. rewrite Nat2Z.id.
  rewrite take_app_le by (rewrite length_take; lia).
  rewrite take_take, Nat.min_id.
  destruct (Nat.le_ge_cases (length datagram) (length buf)) as [Hle|Hge].
  - rewrite Nat.min_l by lia. rewrite !firstn_all2 by lia. reflexivity.
  - rewrite Nat.min_r by lia. reflexivity.
Qed.

Lemma writes_cons_go (n : Z) (cfg : models.Proxy) (evs : list Event) :
  writes (EvGo n cfg :: evs) = writes evs.
Proof. reflexivity. Qed.

Lemma filter_go_forward (p : Proxy) (buf : list Byte.byte) (n : Z) (w : option string) :
  List.filter is_go (snd (forward p buf n None w)) = [].
Proof.
  pose proof (forward_never p buf n w) as H.
  induction H as [|e l [_ [He _]] _ IH]; [reflexivity|].
  simpl. rewrite He. exact IH.
Qed.

(** X2: [ProxyPeer] returns to its caller only when, after a run of
    successful reads, the context was found done or a read failed; no
    write failure and no result of the transform makes it return. *)
Theorem ProxyPeer_returns_only_when_stopped
    (p : Proxy) (script : list Tick) (evs : list Event) :
  ProxyPeer T DevicePubKey Debug LocalAddr ServerAddr p script = (Returns, evs) ->
  exists pre t post,
    script = pre ++ t :: post /\
    datagram_of t = None /\
    Forall (fun t' => datagram_of t' <> None) pre.
Proof.
  unfold ProxyPeer, toRemote. fold loop.
  destruct (loop p _ script) as [[|buf'|] evs'] eqn:H; try discriminate.
  intros _. apply (loop_Returned p script (repeat Byte.x00 (Z.to_nat 65000))).
  rewrite H. reflexivity.
Qed.

(** X3: with relaying and TURN both off, a run of successful reads
    leaves the loop running with a buffer of the same length, and the
    datagrams written to the uplink are the datagrams read, each cut to
    the buffer's length, once each and in the order read. *)
Theorem toRemote_loop_plain_forwarding (p : Proxy) (script : list Tick) :
  transforms p = false ->
  Forall (fun t => datagram_of t <> None) script ->
  forall buf,
    exists buf' tr,
      loop p buf script = (Running buf', tr) /\
      length buf' = length buf /\
      writes tr = map (firstn (length buf)) (omap datagram_of script).
Proof.
  intros Hplain Hgood. induction Hgood as [|t rest Ht _ IH]; intros buf.
  - exists buf, []. auto.
  - rewrite loop_cons.
    destruct (datagram_of t) as [datagram|] eqn:Hd; [clear Ht|congruence].
    pose proof Hd as Hd'. unfold datagram_of in Hd.
    destruct (ctx_done t); [discriminate|].
    destruct (read t) as [datagram'|e]; [|discriminate]. injection Hd as ->.
    assert (Hturn : has_transport p = true).
    { unfold transforms in Hplain. unfold has_transport.
      apply orb_false_iff in Hplain as [_ ->]. reflexivity. }
    destruct (forward_shape T DevicePubKey Debug LocalAddr ServerAddr p
                (fst (conn_Read buf datagram)) (snd (conn_Read buf datagram))
                (write_err t) (fst (conn_Read buf datagram))
                (firstn (length buf) datagram) (snd (conn_Read buf datagram)))
      as (evs & Hf & Hw & _).
    { unfold outgoing. rewrite Hplain. reflexivity. }
    { exact Hturn. }
    { apply conn_Read_slice. }
    fold forward in Hf. rewrite Hf.
    destruct (IH (fst (conn_Read buf datagram))) as (buf' & tr & Hrun & Hlen & Hwr).
    fold loop in Hrun. rewrite Hrun. simpl.
    exists buf', (EvGo (snd (conn_Read buf datagram)) (Config p) :: evs ++ tr).
    split; [reflexivity|]. split.
    + rewrite Hlen. apply conn_Read_length.
    + rewrite writes_cons_go, writes_app, Hw, Hwr, conn_Read_length.
      simpl omap. rewrite Hd'. reflexivity.
Qed.

(** X4: when the transform, on every datagram the loop can hand it,
    returns a length within the buffer it returns, and the write path has
    its transport, a run of successful reads never ends the loop:
    whatever the writes return, it is still running, and it has made
    exactly one write and spawned exactly one metric task per read. *)
Theorem toRemote_loop_one_write_per_read (p : Proxy) (script : list Tick) :
  (forall b n b' n' src dst,
     0 <= n <= Z.of_nat (length b) ->
     T b n DevicePubKey (models.PeerPublicKey (Config p)) = (b', n', src, dst) ->
     slice_to b' n' <> None) ->
  has_transport p = true ->
  Forall (fun t => datagram_of t <> None) script ->
  forall buf,
    exists buf' tr,
      loop p buf script = (Running buf', tr) /\
      length (writes tr) = length script /\
      length (List.filter is_go tr) = length script.
Proof.
  intros HT Htr Hgood. induction Hgood as [|t rest Ht _ IH]; intros buf.
  - exists buf, []. auto.
  - rewrite loop_cons. unfold datagram_of in Ht.
    destruct (ctx_done t); [congruence|].
    destruct (read t) as [datagram|e]; [|congruence].
    destruct (outgoing T DevicePubKey p (fst (conn_Read buf datagram))
                (snd (conn_Read buf datagram))) as [buf1 n1] eqn:Hout.
    assert (Hsl : exists data, slice_to buf1 n1 = Some data).
    { unfold outgoing in Hout. destruct (transforms p).
      - destruct (T _ _ _ _) as [[[b' n'] src] dst] eqn:HTb.
        injection Hout as Hb Hn. subst buf1 n1.
        pose proof (HT _ _ _ _ _ _ (conn_Read_range buf datagram) HTb) as Hne.
        destruct (slice_to b' n'); [eauto|congruence].
      - injection Hout as Hb Hn. subst buf1 n1.
        exists (firstn (length buf) datagram). exact (conn_Read_slice buf datagram). }
    destruct Hsl as [data Hsl].
    destruct (forward_shape T DevicePubKey Debug LocalAddr ServerAddr p _ _
                (write_err t) buf1 data n1 Hout Htr Hsl) as (evs & Hf & Hw & _).
    fold forward in Hf. rewrite Hf.
    destruct (IH buf1) as (buf' & tr & Hrun & Hwr & Hgo).
    rewrite Hrun. simpl.
    exists buf', (EvGo (snd (conn_Read buf datagram)) (Config p) :: evs ++ tr).
    split; [reflexivity|]. split.
    + rewrite writes_cons_go, writes_app, Hw, length_app, Hwr. reflexivity.
    + simpl. rewrite List.filter_app, length_app, Hgo.
      pose proof (filter_go_forward p (fst (conn_Read buf datagram))
                    (snd (conn_Read buf datagram)) (write_err t)) as Hnone.
      rewrite Hf in Hnone. simpl in Hnone. rewrite Hnone. reflexivity.
Qed.

(** X5: whatever the script, the loop never writes the log line of
    line 67 ("failed to process pkt before sending"); a proxy that uses
    TURN never writes to the shared uplink, and one that does not never
    writes to a TURN transport. *)
Theorem toRemote_loop_never (p : Proxy) (script : list Tick) :
  forall buf,
    Forall (fun e =>
              is_transform_log e = false /\
              (models.UsingTurn (Config p) = true -> is_uplink_write e = false) /\
              (models.UsingTurn (Config p) = false -> is_turn_write e = false))
      (snd (loop p buf script)).
Proof.
  induction script as [|t rest IH]; intros buf; [constructor|].
  rewrite loop_cons. destruct (ctx_done t); [constructor|].
  destruct (read t) as [datagram|e]; [|repeat constructor].
  pose proof (forward_never p (fst (conn_Read buf datagram))
                (snd (conn_Read buf datagram)) (write_err t)) as Hf.
  assert (Hf' : Forall (fun e =>
              is_transform_log e = false /\
              (models.UsingTurn (Config p) = true -> is_uplink_write e = false) /\
              (models.UsingTurn (Config p) = false -> is_turn_write e = false))
            (snd (forward p (fst (conn_Read buf datagram))
                    (snd (conn_Read buf datagram)) None (write_err t)))).
  { eapply Forall_impl; [exact Hf|]. simpl. intros e0 (H1 & _ & H3 & H4). auto. }
  destruct (forward p _ _ None (write_err t)) as [[buf'|] evs]; simpl in Hf' |- *.
  - constructor; [repeat split; reflexivity|].
    apply Forall_app. split; [exact Hf'|apply IH].
  - constructor; [repeat split; reflexivity|exact Hf'].
Qed.

End ForwardMore.

(** ** A transform that fails *)

Section TransformFailure.

Import proxy.

Variable T : list Byte.byte -> Z -> string -> string -> list Byte.byte * Z * string * string.
Variable DevicePubKey : string.
Variable Debug : bool.
Variable LocalAddr ServerAddr : string.
Variable fails : list Byte.byte -> Z -> Prop.

Let loop := toRemote_loop T DevicePubKey Debug LocalAddr ServerAddr.

(** On a failure the write of lines 74-84 uses the buffer and the length
    of the read. *)
Lemma outgoing_on_failure (p : Proxy) (buf : list Byte.byte) (n : Z) :
  degrades_to_untransformed T fails ->
  fails buf n ->
  outgoing T DevicePubKey p buf n = (buf, n).
Proof.
  intros Hdeg Hfail. unfold outgoing. destruct (transforms p); [|reflexivity].
  specialize (Hdeg buf n DevicePubKey (models.PeerPublicKey (Config p)) Hfail).
  destruct (T buf n DevicePubKey (models.PeerPublicKey (Config p))) as [[[b' n'] src] dst].
  exact Hdeg.
Qed.

(** C2: when the transform fails for a datagram, handing it back
    untransformed, the loop does not terminate: it goes on to the next
    read, with the buffer of this one, and what it does from there is
    what the rest of its input makes it do.  For the datagram it makes
    exactly one write, of the datagram as read.  The write path is taken
    to have its transport (a TURN connection when TURN is used).  With
    relaying and TURN both off the transform is not run, and the same
    holds. *)
Theorem toRemote_transform_failure_forwards_original
    (p : Proxy) (buf0 datagram : list Byte.byte) (write_err : option string)
    (rest : list Tick) :
  degrades_to_untransformed T fails ->
  has_transport p = true ->
  fails (fst (conn_Read buf0 datagram)) (snd (conn_Read buf0 datagram)) ->
  exists evs,
    loop p buf0
      ({| ctx_done := false; read := ReadOk datagram; write_err := write_err |} :: rest)
    = (fst (loop p (fst (conn_Read buf0 datagram)) rest),
       EvGo (snd (conn_Read buf0 datagram)) (Config p)
         :: evs ++ snd (loop p (fst (conn_Read buf0 datagram)) rest)) /\
    writes evs = [firstn (length buf0) datagram] /\
    loop p buf0
      [{| ctx_done := false; read := ReadOk datagram; write_err := write_err |}]
    = (Running (fst (conn_Read buf0 datagram)),
       EvGo (snd (conn_Read buf0 datagram)) (Config p) :: evs).
Proof.
  intros Hdeg Htr Hfail.
  destruct (forward_shape T DevicePubKey Debug LocalAddr ServerAddr p
              (fst (conn_Read buf0 datagram)) (snd (conn_Read buf0 datagram)) write_err
              (fst (conn_Read buf0 datagram)) (firstn (length buf0) datagram)
              (snd (conn_Read buf0 datagram))
              (outgoing_on_failure p _ _ Hdeg Hfail) Htr (conn_Read_slice buf0 datagram))
    as (evs & Hf & Hw & _).
  exists evs. split; [|split; [exact Hw|]].
  - unfold loop. rewrite loop_cons. cbn [ctx_done read proxy.write_err].
    cbv iota. rewrite Hf. reflexivity.
  - unfold loop. rewrite loop_cons. cbn [ctx_done read proxy.write_err].
    cbv iota. rewrite Hf. simpl. rewrite app_nil_r. reflexivity.
Qed.

End TransformFailure.

(** The transform of the scenario meets the contract. *)
Lemma trailer_if_room_degrades :
  proxy.degrades_to_untransformed trailer_if_room no_room.
Proof.
  intros buf n src dst Hfail. unfold trailer_if_room, no_room in *.
  destruct (Z.ltb_spec n (Z.of_nat (length buf))); [lia|reflexivity].
Qed.

(** A datagram of two bytes read into a buffer of two: the transform has
    no room and fails, the two bytes go out as read, and the loop goes on
    to the next read (which fails, and ends it). *)
Lemma toRemote_transform_failure_forwards_original_witness :
  exists evs,
    proxy.toRemote_loop trailer_if_room "dev" false "l" "s" relayed_proxy
      [Byte.x00; Byte.x00]
      ({| proxy.ctx_done := false; proxy.read := proxy.ReadOk [Byte.x01; Byte.x02];
          proxy.write_err := None |} :: [failed_read])
    = (fst (proxy.toRemote_loop trailer_if_room "dev" false "l" "s" relayed_proxy
              (fst (proxy.conn_Read [Byte.x00; Byte.x00] [Byte.x01; Byte.x02]))
              [failed_read]),
       proxy.EvGo (snd (proxy.conn_Read [Byte.x00; Byte.x00] [Byte.x01; Byte.x02]))
         (proxy.Config relayed_proxy)
         :: evs
         ++ snd (proxy.toRemote_loop trailer_if_room "dev" false "l" "s" relayed_proxy
                   (fst (proxy.conn_Read [Byte.x00; Byte.x00] [Byte.x01; Byte.x02]))
                   [failed_read])) /\
    proxy.writes evs = [firstn (length [Byte.x00; Byte.x00]) [Byte.x01; Byte.x02]] /\
    proxy.toRemote_loop trailer_if_room "dev" false "l" "s" relayed_proxy
      [Byte.x00; Byte.x00]
      [{| proxy.ctx_done := false; proxy.read := proxy.ReadOk [Byte.x01; Byte.x02];
          proxy.write_err := None |}]
    = (proxy.Running (fst (proxy.conn_Read [Byte.x00; Byte.x00] [Byte.x01; Byte.x02])),
       proxy.EvGo (snd (proxy.conn_Read [Byte.x00; Byte.x00] [Byte.x01; Byte.x02]))
         (proxy.Config relayed_proxy) :: evs).
Proof.
  refine (toRemote_transform_failure_forwards_original trailer_if_room "dev" false
            "l" "s" no_room relayed_proxy [Byte.x00; Byte.x00] [Byte.x01; Byte.x02]
            None [failed_read] _ _ _).
  - exact trailer_if_room_degrades.
  - reflexivity.
  - unfold no_room. simpl. lia.
Defined.

(** The same run, evaluated: one write, of the two bytes read, then the
    failed read. *)
Example transform_failure_run :
  proxy.toRemote_loop trailer_if_room "dev" false "l" "s" relayed_proxy
    [Byte.x00; Byte.x00]
    ({| proxy.ctx_done := false; proxy.read := proxy.ReadOk [Byte.x01; Byte.x02];
        proxy.write_err := None |} :: [failed_read])
  = (proxy.Returned,
     [proxy.EvGo 2 (proxy.Config relayed_proxy);
      proxy.EvUplinkWrite [Byte.x01; Byte.x02] (Some "203.0.113.7:51821");
      proxy.EvLog 1 ["error reading: "; "use of closed network connection"]]).
Proof. vm_compute. reflexivity. Qed.

(** ** More on Reset *)

Section ResetMore.

Import proxy.

Variable Start : Proxy -> Proxy * option string.
Variable ConvPeerKeyToHash : string -> string.

Let Reset := Reset Start ConvPeerKeyToHash.
Let publish := publish ConvPeerKeyToHash.

Lemma before_Start_registry (p : Proxy) (w : World) :
  registry (snd (before_Start p w)) = registry w.
Proof.
  unfold before_Start, Close. simpl.
  destruct (pullLatestConfig _ _) as [p2 [e|]]; reflexivity.
Qed.

(** Up to the call of [Start], [Reset] has logged, cancelled and closed
    the old object, and then neither cancelled nor closed anything. *)
Lemma before_Start_trace (p : Proxy) (w : World) :
  exists tl,
    trace (snd (before_Start p w)) =
      trace w ++ [LLog 0 ["Resetting proxy connection for peer: ";
                          models.PeerPublicKey (Config p)];
                  LCancel (Id p); LCloseConn (Id p) (LocalConn p)] ++ tl /\
    Forall (fun e => is_teardown e = false /\ is_send e = false) tl.
Proof.
  unfold before_Start, Close. simpl.
  destruct (pullLatestConfig _ _) as [p2 [e|]]; simpl.
  - eexists [_; _; _]. rewrite <- !app_assoc. split; [reflexivity|].
    repeat constructor.
  - eexists [_; _]. rewrite <- !app_assoc. split; [reflexivity|].
    repeat constructor.
Qed.

(** X6: when [Start] fails, [Reset] logs the failure as its last event
    and returns with the registry (both indices) and the signal channel
    as they were: nothing is published and nothing is sent, and the old
    endpoint stays closed. *)
Theorem Reset_start_failure (p : Proxy) (w : World) (endpoint e : string) :
  models.PeerEndpoint (Config p) = Some endpoint ->
  snd (Start (fst (before_Start p w))) = Some e ->
  exists w' new,
    Reset p w = (Done, w') /\
    registry w' = registry w /\
    DumpSignalChan w' = DumpSignalChan w /\
    trace w' = trace w ++ new /\
    Forall (fun ev => is_send ev = false) new /\
    last new = Some (LLog 0 ["Failed to reset proxy for peer: ";
                             models.PeerPublicKey
                               (Config (fst (Start (fst (before_Start p w)))));
                             "Err: "; e]).
Proof.
  intros Hep Hfail. unfold Reset. rewrite (Reset_with_endpoint _ _ p w endpoint Hep).
  pose proof (before_Start_registry p w) as Hreg.
  pose proof (before_Start_channel p w) as Hch.
  destruct (before_Start_trace p w) as (tl & Htr & Htl).
  destruct (before_Start p w) as [p3 w3]. simpl in *.
  destruct (Start p3) as [p4 err]. simpl in Hfail. subst err. simpl.
  eexists _,
    (([LLog 0 ["Resetting proxy connection for peer: ";
               models.PeerPublicKey (Config p)];
       LCancel (Id p); LCloseConn (Id p) (LocalConn p)] ++ tl)
     ++ [LLog 0 ["Failed to reset proxy for peer: ";
                 models.PeerPublicKey (Config p4); "Err: "; e]]).
  split; [reflexivity|]. simpl.
  split; [exact Hreg|]. split; [exact Hch|].
  rewrite Htr. split; [rewrite <- !app_assoc; reflexivity|]. split.
  - repeat (constructor; [reflexivity|]).
    apply Forall_app. split; [|repeat constructor].
    eapply Forall_impl; [exact Htl|]. simpl. tauto.
  - rewrite !app_comm_cons. apply last_snoc.
Qed.

(** The registry after a [Reset] whose [Start] succeeded, whether or not
    the send then blocks. *)
Lemma Reset_registry_after_Start (p : Proxy) (w : World) (endpoint : string) (p4 : Proxy) :
  models.PeerEndpoint (Config p) = Some endpoint ->
  Start (fst (before_Start p w)) = (p4, None) ->
  registry (snd (Reset p w)) = publish p4 (registry w).
Proof.
  intros Hep Hok. unfold Reset. rewrite (Reset_with_endpoint _ _ p w endpoint Hep).
  pose proof (before_Start_registry p w) as Hreg.
  destruct (before_Start p w) as [p3 w3]. simpl in *. rewrite Hok.
  unfold signal. simpl. rewrite Hreg.
  destruct (chan_send (DumpSignalChan w3)); reflexivity.
Qed.

(** The key index after a [Reset] whose [Start] succeeded for a peer
    with a key-indexed entry: one entry is replaced. *)
Lemma Reset_key_index_after_Start
    (p : Proxy) (w : World) (endpoint : string) (p4 : Proxy) (conn : models.Conn) :
  models.PeerEndpoint (Config p) = Some endpoint ->
  Start (fst (before_Start p w)) = (p4, None) ->
  models.PeerPublicKey (Config p4) = models.PeerPublicKey (Config p) ->
  config.proxyPeerMap (registry w) !! models.PeerPublicKey (Config p) = Some conn ->
  config.proxyPeerMap (registry (snd (Reset p w)))
  = <[models.Key conn :=
        {| models.Key := models.Key conn;
           models.Config := Config p4;
           models.LocalConn := LocalConn p4;
           models.ResetConn := Some (Id p4);
           models.StopConn := Some (Id p4);
           models.ServerMap := models.ServerMap conn |}]>
      (config.proxyPeerMap (registry w)).
Proof.
  intros Hep Hok Hkey Hconn.
  rewrite (Reset_registry_after_Start p w endpoint p4 Hep Hok).
  unfold publish, proxy.publish, config.GetPeer. rewrite Hkey, Hconn.
  assert (Hmap : forall r',
            config.proxyPeerMap
              (match config.GetPeerInfoByHash r'
                       (ConvPeerKeyToHash (models.PeerPublicKey (Config p))) with
               | (peer, true) =>
                   config.SavePeerByHash ConvPeerKeyToHash
                     {| models.PeerKey := models.PeerKey peer;
                        models.RemoteLocalConn := LocalConn p4 |} r'
               | (_, false) => r'
               end) = config.proxyPeerMap r').
  { intros r'. destruct (config.GetPeerInfoByHash r' _) as [peer [|]]; reflexivity. }
  rewrite Hmap. reflexivity.
Qed.

(** X7: after a [Reset] whose [Start] succeeded for a peer with a
    key-indexed entry (stored under its own key), that entry carries the
    started proxy's configuration and local connection, its reset and
    stop handles are bound to the new object, and its server map is
    kept; the entries of all other keys are untouched.  This holds also
    when the send that follows blocks. *)
Theorem Reset_publishes_key_entry
    (p : Proxy) (w : World) (endpoint : string) (p4 : Proxy) (conn : models.Conn) :
  models.PeerEndpoint (Config p) = Some endpoint ->
  Start (fst (before_Start p w)) = (p4, None) ->
  models.PeerPublicKey (Config p4) = models.PeerPublicKey (Config p) ->
  config.proxyPeerMap (registry w) !! models.PeerPublicKey (Config p) = Some conn ->
  models.Key conn = models.PeerPublicKey (Config p) ->
  config.proxyPeerMap (registry (snd (Reset p w))) !! models.PeerPublicKey (Config p)
    = Some {| models.Key := models.PeerPublicKey (Config p);
              models.Config := Config p4;
              models.LocalConn := LocalConn p4;
              models.ResetConn := Some (Id p4);
              models.StopConn := Some (Id p4);
              models.ServerMap := models.ServerMap conn |} /\
  forall key', key' <> models.PeerPublicKey (Config p) ->
    config.proxyPeerMap (registry (snd (Reset p w))) !! key'
      = config.proxyPeerMap (registry w) !! key'.
Proof.
  intros Hep Hok Hkey Hconn Hself.
  rewrite (Reset_key_index_after_Start p w endpoint p4 conn Hep Hok Hkey Hconn), Hself.
  split.
  - apply lookup_insert_eq.
  - intros key' Hne. apply lookup_insert_ne. congruence.
Qed.

(** X8: after a [Reset] whose [Start] succeeded for a peer present in
    both indices (each entry stored under the peer's own key), the
    key-indexed and the hash-indexed entry hold the same local
    connection, the one the started proxy bound; the hash-indexed
    entries of other hashes are untouched. *)
Theorem Reset_indices_agree
    (p : Proxy) (w : World) (endpoint : string) (p4 : Proxy)
    (conn : models.Conn) (peer : models.RemotePeer) :
  models.PeerEndpoint (Config p) = Some endpoint ->
  Start (fst (before_Start p w)) = (p4, None) ->
  models.PeerPublicKey (Config p4) = models.PeerPublicKey (Config p) ->
  config.proxyPeerMap (registry w) !! models.PeerPublicKey (Config p) = Some conn ->
  models.Key conn = models.PeerPublicKey (Config p) ->
  config.peerHashMap (registry w) !! ConvPeerKeyToHash (models.PeerPublicKey (Config p))
    = Some peer ->
  models.PeerKey peer = models.PeerPublicKey (Config p) ->
  (exists conn' peer',
     config.proxyPeerMap (registry (snd (Reset p w))) !! models.PeerPublicKey (Config p)
       = Some conn' /\
     config.peerHashMap (registry (snd (Reset p w)))
       !! ConvPeerKeyToHash (models.PeerPublicKey (Config p)) = Some peer' /\
     models.LocalConn conn' = LocalConn p4 /\
     models.RemoteLocalConn peer' = LocalConn p4 /\
     models.PeerKey peer' = models.PeerPublicKey (Config p)) /\
  forall hash', hash' <> ConvPeerKeyToHash (models.PeerPublicKey (Config p)) ->
    config.peerHashMap (registry (snd (Reset p w))) !! hash'
      = config.peerHashMap (registry w) !! hash'.
Proof.
  intros Hep Hok Hkey Hconn Hself Hpeer Hpself.
  split.
  - eexists _, _. split.
    { rewrite (Reset_key_index_after_Start p w endpoint p4 conn Hep Hok Hkey Hconn), Hself.
      apply lookup_insert_eq. }
    rewrite (Reset_registry_after_Start p w endpoint p4 Hep Hok).
    unfold publish, proxy.publish, config.GetPeer. rewrite Hkey, Hconn.
    unfold config.GetPeerInfoByHash, config.SavePeer. simpl. rewrite Hpeer.
    unfold config.SavePeerByHash. simpl. rewrite Hpself.
    split; [apply lookup_insert_eq|]. auto.
  - intros hash' Hne.
    rewrite (Reset_registry_after_Start p w endpoint p4 Hep Hok).
    unfold publish, proxy.publish, config.GetPeer. rewrite Hkey, Hconn.
    unfold config.GetPeerInfoByHash, config.SavePeer. simpl. rewrite Hpeer.
    unfold config.SavePeerByHash. simpl. rewrite Hpself.
    apply lookup_insert_ne. congruence.
Qed.

(** X9: of its own steps, [Reset] makes one cancel and one close only,
    those of the old proxy ([p.Close()], line 94), right after its first
    log line; none of the steps that follow on any path (building the
    new proxy, calling [Start], logging, updating the registry, the
    send) is a cancel or a close.  In particular, when [Start] fails
    [Reset] returns without cancelling the context that [New] created.
    What [Start] does inside is not part of the statement. *)
Theorem Reset_tears_down_once (p : Proxy) (w : World) :
  exists tl,
    trace (snd (Reset p w)) =
      trace w ++ [LLog 0 ["Resetting proxy connection for peer: ";
                          models.PeerPublicKey (Config p)];
                  LCancel (Id p); LCloseConn (Id p) (LocalConn p)] ++ tl /\
    Forall (fun e => is_teardown e = false) tl.
Proof.
  destruct (models.PeerEndpoint (Config p)) as [endpoint|] eqn:Hep.
  - unfold Reset. rewrite (Reset_with_endpoint _ _ p w endpoint Hep).
    destruct (before_Start_trace p w) as (tl & Htr & Htl).
    assert (Htl' : Forall (fun e => is_teardown e = false) tl)
      by (eapply Forall_impl; [exact Htl|]; simpl; tauto).
    destruct (before_Start p w) as [p3 w3]. simpl in Htr.
    destruct (Start p3) as [p4 [e|]]; simpl.
    + exists (tl ++ [LLog 0 ["Failed to reset proxy for peer: ";
                            models.PeerPublicKey (Config p4); "Err: "; e]]).
      rewrite Htr, <- !app_assoc. split; [reflexivity|].
      apply Forall_app. split; [exact Htl'|repeat constructor].
    + unfold signal. simpl. destruct (chan_send (DumpSignalChan w3)); simpl.
      * exists (tl ++ [LSend]). rewrite Htr, <- !app_assoc. split; [reflexivity|].
        apply Forall_app. split; [exact Htl'|repeat constructor].
      * exists tl. split; [exact Htr|exact Htl'].
  - exists []. split; [|constructor].
    unfold Reset, proxy.Reset, Close. simpl. rewrite Hep. simpl.
    rewrite <- !app_assoc. reflexivity.
Qed.

End ResetMore.

(** ** More on the allocator *)

Lemma append_cons (c : ascii) (s t : string) : String c s +:+ t = String c (s +:+ t).
Proof. reflexivity. Qed.

Lemma append_nil (t : string) : EmptyString +:+ t = t.
Proof. reflexivity. Qed.

Lemma prefix_spec (sub s : string) :
  String.prefix sub s = true <-> exists post, s = sub +:+ post.
Proof.
  revert s. induction sub as [|c sub IH]; intros s.
  - destruct s; simpl; split; eauto.
  - destruct s as [|c' s]; simpl.
    + split; [discriminate|intros [post H]; discriminate].
    + destruct (Ascii.ascii_dec c c') as [->|Hne].
      * rewrite IH. split; intros [post H]; exists post;
          rewrite append_cons in *; congruence.
      * split; [discriminate|]. intros [post H]. rewrite append_cons in H. congruence.
Qed.

Lemma strings_Contains_unfold (s substr : string) :
  strings_Contains s substr =
  if String.prefix substr s then true
  else match s with
       | EmptyString => false
       | String _ s' => strings_Contains s' substr
       end.
Proof. destruct s; reflexivity. Qed.

(** [strings.Contains]: [substr] occurs somewhere in [s]. *)
Lemma strings_Contains_spec (s substr : string) :
  strings_Contains s substr = true <-> exists pre post, s = pre +:+ substr +:+ post.
Proof.
  split.
  - induction s as [|c s IH]; rewrite strings_Contains_unfold.
    + destruct (String.prefix substr EmptyString) eqn:Hp; [|discriminate].
      intros _. apply prefix_spec in Hp as [post Hp].
      exists EmptyString, post. exact Hp.
    + destruct (String.prefix substr (String c s)) eqn:Hp.
      * intros _. apply prefix_spec in Hp as [post Hp].
        exists EmptyString, post. exact Hp.
      * intros H. destruct (IH H) as (pre & post & ->).
        exists (String c pre), post. reflexivity.
  - intros (pre & post & ->). induction pre as [|c pre IH].
    + rewrite append_nil, strings_Contains_unfold.
      assert (Hp : String.prefix substr (substr +:+ post) = true)
        by (apply prefix_spec; eauto).
      rewrite Hp. reflexivity.
    + rewrite append_cons, strings_Contains_unfold.
      destruct (String.prefix substr _); [reflexivity|exact IH].
Qed.

(** The classifier of lines 189-190 holds exactly for the texts that
    contain one of the three phrases. *)
Lemma address_unavailable_spec (err : string) :
  Allocator.address_unavailable err = true <-> mentions_unavailable err.
Proof.
  unfold Allocator.address_unavailable, mentions_unavailable, unavailable_phrases.
  rewrite !orb_true_iff, !strings_Contains_spec. split.
  - intros [[(pre & post & H)|(pre & post & H)]|(pre & post & H)];
      eexists _, pre, post; (split; [|exact H]); simpl; auto.
  - intros (phrase & pre & post & Hin & H). simpl in Hin.
    destruct Hin as [<-|[<-|[<-|[]]]]; eauto.
Qed.

Section AllocatorMore.

Import Allocator.

Context {IP Net4 Conn : Type}.
Variable ParseCIDR : string -> option string.
Variable Net4FromStr : string -> Net4.
Variable FirstAddress : Net4 -> IP.
Variable NextIP : Net4 -> IP -> IP * option string.
Variable IP_String : IP -> string.
Variable ParseIP : string -> IP.
Variable DialUDP : IP * Z -> IP * Z -> result Conn.
Variable NmProxyPort : Z.
Variable Contains : Net4 -> IP -> bool.

Let probe := probe NextIP IP_String ParseIP DialUDP.
Let GetFreeIp :=
  GetFreeIp ParseCIDR Net4FromStr FirstAddress NextIP IP_String ParseIP DialUDP.

Lemma filter_dial_alias (GOOS : string) (RunCmd : string -> option string) (a : IP) :
  List.filter is_dial (@register_alias IP Conn IP_String GOOS RunCmd a) = [].
Proof.
  unfold register_alias. destruct (String.eqb GOOS "darwin"); [|reflexivity].
  simpl. destruct (RunCmd _); reflexivity.
Qed.

Lemma filter_cmd_alias (GOOS : string) (RunCmd : string -> option string) (a : IP) :
  List.filter is_run_cmd (@register_alias IP Conn IP_String GOOS RunCmd a)
  = if String.eqb GOOS "darwin"
    then [EvRunCmd ("ifconfig lo0 alias " +:+ IP_String a +:+ " 255.255.255.255")]
    else [].
Proof.
  unfold register_alias. destruct (String.eqb GOOS "darwin"); [|reflexivity].
  simpl. destruct (RunCmd _); reflexivity.
Qed.

Lemma dial_errors_alias (GOOS : string) (RunCmd : string -> option string) (a : IP) :
  dial_errors (@register_alias IP Conn IP_String GOOS RunCmd a) = [].
Proof.
  unfold register_alias. destruct (String.eqb GOOS "darwin"); [|reflexivity].
  simpl. destruct (RunCmd _); reflexivity.
Qed.

Lemma dial_errors_probe_events (GOOS : string) (RunCmd : string -> option string)
    (dstPort : Z) (a : IP) (tl : list (Event IP Conn)) :
  dial_errors
    ((@register_alias IP Conn IP_String GOOS RunCmd a
      ++ [EvDial (probe_laddr IP_String ParseIP NmProxyPort a)
            (probe_raddr ParseIP dstPort)]) ++ tl)
  = dial_errors tl.
Proof.
  pose proof (dial_errors_alias GOOS RunCmd a) as Halias.
  unfold dial_errors in *. rewrite !omap_app, Halias. reflexivity.
Qed.

(** What a completed run of the loop shows of its dial errors. *)
Lemma probe_dial_errors (GOOS : string) (RunCmd : string -> option string)
    (fuel : nat) (net4 : Net4) (dstPort : Z) :
  forall a r tr,
    probe GOOS RunCmd NmProxyPort fuel net4 dstPort a = Some (r, tr) ->
    Forall mentions_unavailable (removelast (dial_errors tr)) /\
    (forall s, r = Ok s -> Forall mentions_unavailable (dial_errors tr)) /\
    (forall err, last (dial_errors tr) = Some err ->
                 ~ mentions_unavailable err -> r = Err err).
Proof.
  induction fuel as [|fuel IH]; intros a r tr; [discriminate|].
  unfold probe. rewrite probe_step. fold probe.
  destruct (DialUDP _ _) as [conn|err].
  - intros [= <- <-]. rewrite dial_errors_probe_events. simpl.
    split; [constructor|]. split; [constructor|discriminate].
  - cbv zeta. destruct (address_unavailable err) eqn:Hu.
    + apply address_unavailable_spec in Hu.
      destruct (NextIP net4 a) as [next [nErr|]].
      * intros [= <- <-]. rewrite dial_errors_probe_events. simpl.
        split; [constructor|]. split; [discriminate|].
        intros e [= <-] Hn. contradiction.
      * destruct (probe GOOS RunCmd NmProxyPort fuel net4 dstPort next)
          as [[r' tr']|] eqn:Hp; [|discriminate].
        intros [= <- <-]. destruct (IH _ _ _ Hp) as (Hinit & Hok & Hlast).
        assert (Herrs : dial_errors
                          (((register_alias IP_String GOOS RunCmd a
                             ++ [EvDial (probe_laddr IP_String ParseIP NmProxyPort a)
                                   (probe_raddr ParseIP dstPort)])
                            ++ [EvLog 1 ["----> GetFreeIP err: "; err]]) ++ tr')
                        = err :: dial_errors tr').
        { pose proof (dial_errors_probe_events GOOS RunCmd dstPort a
                        [EvLog 1 ["----> GetFreeIP err: "; err]]) as H1.
          unfold dial_errors in *. rewrite omap_app, H1. reflexivity. }
        rewrite Herrs.
        destruct (dial_errors tr') as [|e' errs] eqn:He.
        -- simpl. split; [constructor|]. split.
           ++ intros s Hs. repeat constructor. exact Hu.
           ++ intros e [= <-] Hn. contradiction.
        -- split; [|split].
           ++ change (Forall mentions_unavailable (err :: removelast (e' :: errs))).
              constructor; assumption.
           ++ intros s Hs. constructor; [exact Hu|]. exact (Hok s Hs).
           ++ intros e Hl. apply Hlast. exact Hl.
    + intros [= <- <-]. rewrite dial_errors_probe_events. simpl.
      split; [constructor|]. split; [discriminate|].
      intros e [= <-] _. reflexivity.
Qed.

(** X10: on a failed dial the loop of [GetFreeIp] goes by the error's
    text.  If it contains one of the three phrases of lines 189-190 the
    loop asks [NextIP] and goes round again from the next address, or
    returns the error of [NextIP]; if it contains none, the dial's error
    is returned at once, with no further dial.  So, in every completed
    call of [GetFreeIp], each dial error but the last contains one of
    the phrases, all of them do when an address is returned, and a last
    dial error that contains none is the error returned. *)
Theorem GetFreeIp_dial_error_decides (GOOS : string) (RunCmd : string -> option string) :
  (forall fuel net4 dstPort a err,
     DialUDP (probe_laddr IP_String ParseIP NmProxyPort a) (probe_raddr ParseIP dstPort)
       = Err err ->
     let pre := probe_events IP_String ParseIP GOOS RunCmd NmProxyPort dstPort a
                ++ [dial_failed err] in
     (mentions_unavailable err ->
      probe GOOS RunCmd NmProxyPort (S fuel) net4 dstPort a
      = match NextIP net4 a with
        | (_, Some nErr) => Some (Err nErr, pre)
        | (next, None) =>
            (fun x => (fst x, pre ++ snd x))
              <$> probe GOOS RunCmd NmProxyPort fuel net4 dstPort next
        end) /\
     (~ mentions_unavailable err ->
      probe GOOS RunCmd NmProxyPort (S fuel) net4 dstPort a = Some (Err err, pre))) /\
  (forall fuel cidrAddr dstPort r tr,
     GetFreeIp GOOS RunCmd NmProxyPort fuel cidrAddr dstPort = Some (r, tr) ->
     Forall mentions_unavailable (removelast (dial_errors tr)) /\
     (forall s, r = Ok s -> Forall mentions_unavailable (dial_errors tr)) /\
     (forall err, last (dial_errors tr) = Some err ->
                  ~ mentions_unavailable err -> r = Err err)).
Proof.
  split.
  - intros fuel net4 dstPort a err Hdial pre. subst pre.
    unfold probe. rewrite probe_step, Hdial. fold probe. cbv zeta.
    unfold probe_events, dial_failed. split.
    + intros Hm. apply address_unavailable_spec in Hm. rewrite Hm.
      destruct (NextIP net4 a) as [next [nErr|]]; [reflexivity|].
      destruct (probe GOOS RunCmd NmProxyPort fuel net4 dstPort next) as [[r tr]|];
        reflexivity.
    + intros Hn. destruct (address_unavailable err) eqn:Hu; [|reflexivity].
      apply address_unavailable_spec in Hu. contradiction.
  - intros fuel cidrAddr dstPort r tr. unfold GetFreeIp, Allocator.GetFreeIp.
    destruct (dstPort =? 0).
    + intros [= <- <-]. simpl. split; [constructor|]. split; [constructor|discriminate].
    + destruct (ParseCIDR cidrAddr).
      * intros [= <- <-]. simpl. split; [constructor|]. split; [discriminate|discriminate].
      * apply probe_dial_errors.
Qed.

Lemma probe_alias_count (GOOS : string) (RunCmd : string -> option string)
    (fuel : nat) (net4 : Net4) (dstPort : Z) :
  forall a r tr,
    probe GOOS RunCmd NmProxyPort fuel net4 dstPort a = Some (r, tr) ->
    length (List.filter is_run_cmd tr)
    = if String.eqb GOOS "darwin" then length (List.filter is_dial tr) else O.
Proof.
  induction fuel as [|fuel IH]; intros a r tr; [discriminate|].
  unfold probe. rewrite probe_step. fold probe.
  destruct (DialUDP _ _) as [conn|err].
  - intros [= <- <-]. rewrite !List.filter_app, filter_dial_alias, filter_cmd_alias.
    destruct (String.eqb GOOS "darwin"); reflexivity.
  - cbv zeta. destruct (address_unavailable err).
    + destruct (NextIP net4 a) as [next [nErr|]].
      * intros [= <- <-]. rewrite !List.filter_app, filter_dial_alias, filter_cmd_alias.
        destruct (String.eqb GOOS "darwin"); reflexivity.
      * destruct (probe GOOS RunCmd NmProxyPort fuel net4 dstPort next)
          as [[r' tr']|] eqn:Hp; [|discriminate].
        intros [= <- <-]. specialize (IH _ _ _ Hp).
        rewrite !List.filter_app, !length_app, filter_dial_alias, filter_cmd_alias, IH.
        destruct (String.eqb GOOS "darwin"); reflexivity.
    + intros [= <- <-]. rewrite !List.filter_app, filter_dial_alias, filter_cmd_alias.
      destruct (String.eqb GOOS "darwin"); reflexivity.
Qed.

(** X12: [GetFreeIp] runs the alias command on darwin only, once for
    every address it dials from; on any other platform it runs no
    command at all. *)
Theorem GetFreeIp_alias_per_dial
    (GOOS : string) (RunCmd : string -> option string)
    (fuel : nat) (cidrAddr : string) (dstPort : Z)
    (r : result string) (tr : list (Event IP Conn)) :
  GetFreeIp GOOS RunCmd NmProxyPort fuel cidrAddr dstPort = Some (r, tr) ->
  length (List.filter is_run_cmd tr)
  = if String.eqb GOOS "darwin" then length (List.filter is_dial tr) else O.
Proof.
  unfold GetFreeIp, Allocator.GetFreeIp.
  destruct (dstPort =? 0).
  - intros [= <- <-]. destruct (String.eqb GOOS "darwin"); reflexivity.
  - destruct (ParseCIDR cidrAddr).
    + intros [= <- <-]. destruct (String.eqb GOOS "darwin"); reflexivity.
    + apply probe_alias_count.
Qed.

Lemma probe_dial_bound (GOOS : string) (RunCmd : string -> option string)
    (net4 : Net4) (dstPort : Z) (rank : IP -> nat) :
  (forall a b, Contains net4 a = true -> NextIP net4 a = (b, None) ->
               Contains net4 b = true /\ (rank b < rank a)%nat) ->
  forall fuel a r tr,
    Contains net4 a = true ->
    probe GOOS RunCmd NmProxyPort fuel net4 dstPort a = Some (r, tr) ->
    (length (List.filter is_dial tr) <= S (rank a))%nat.
Proof.
  intros Hnext. induction fuel as [|fuel IH]; intros a r tr Hin; [discriminate|].
  unfold probe. rewrite probe_step. fold probe.
  destruct (DialUDP _ _) as [conn|err].
  - intros [= <- <-]. rewrite !List.filter_app, filter_dial_alias. simpl. lia.
  - cbv zeta. destruct (address_unavailable err).
    + destruct (NextIP net4 a) as [next [nErr|]] eqn:Hn.
      * intros [= <- <-]. rewrite !List.filter_app, filter_dial_alias. simpl. lia.
      * destruct (probe GOOS RunCmd NmProxyPort fuel net4 dstPort next)
          as [[r' tr']|] eqn:Hp; [|discriminate].
        intros [= <- <-]. destruct (Hnext _ _ Hin Hn) as [Hin' Hlt].
        specialize (IH _ _ _ Hin' Hp).
        rewrite !List.filter_app, !length_app, filter_dial_alias. simpl. lia.
    + intros [= <- <-]. rewrite !List.filter_app, filter_dial_alias. simpl. lia.
Qed.

(** X13: with iplib keeping [FirstAddress] and every successful
    [NextIP] inside the block and nearer to its end, a call of
    [GetFreeIp] dials at most once per address from the first to the end
    of the block. *)
Theorem GetFreeIp_dial_bound
    (GOOS : string) (RunCmd : string -> option string) (rank : IP -> nat)
    (fuel : nat) (cidrAddr : string) (dstPort : Z)
    (r : result string) (tr : list (Event IP Conn)) :
  Contains (Net4FromStr cidrAddr) (FirstAddress (Net4FromStr cidrAddr)) = true ->
  (forall a b,
     Contains (Net4FromStr cidrAddr) a = true ->
     NextIP (Net4FromStr cidrAddr) a = (b, None) ->
     Contains (Net4FromStr cidrAddr) b = true /\ (rank b < rank a)%nat) ->
  GetFreeIp GOOS RunCmd NmProxyPort fuel cidrAddr dstPort = Some (r, tr) ->
  (length (List.filter is_dial tr)
   <= S (rank (FirstAddress (Net4FromStr cidrAddr))))%nat.
Proof.
  intros Hfirst Hnext. unfold GetFreeIp, Allocator.GetFreeIp.
  destruct (dstPort =? 0); [intros [= <- <-]; simpl; lia|].
  destruct (ParseCIDR cidrAddr); [intros [= <- <-]; simpl; lia|].
  apply (probe_dial_bound GOOS RunCmd _ dstPort rank Hnext). exact Hfirst.
Qed.

End AllocatorMore.

(** ** More on the liveness test *)

(** X14: with the interface's statistics unchanged, a peer reported as
    not connected stays not connected as the clock advances. *)
Theorem PeerConnectionStatus_stays_false
    (getPeers : result (list Liveness.Peer)) (now now' : Time) (peerPublicKey : string) :
  now <= now' ->
  Liveness.PeerConnectionStatus getPeers now peerPublicKey = false ->
  Liveness.PeerConnectionStatus getPeers now' peerPublicKey = false.
Proof.
  intros Hle. destruct getPeers as [ps|e]; [|reflexivity]. simpl.
  induction ps as [|q ps IH]; [reflexivity|]. simpl.
  destruct (String.eqb (Liveness.PublicKey q) peerPublicKey); [|exact IH].
  unfold Liveness.connected, Time_After, Time_Add.
  rewrite !andb_false_iff, !Z.ltb_ge. intros [H|H]; [left; lia|right; exact H].
Qed.

(** X15: for the first listed entry, with byte counters that are not
    negative: when their sum fits an int64, the peer is connected exactly
    when the handshake is recent and some byte went either way; when the
    sum overflows an int64, the peer is reported as not connected. *)
Theorem PeerConnectionStatus_bytes
    (peer : Liveness.Peer) (rest : list Liveness.Peer) (now : Time) :
  0 <= Liveness.ReceiveBytes peer < 2 ^ 63 ->
  0 <= Liveness.TransmitBytes peer < 2 ^ 63 ->
  (Liveness.ReceiveBytes peer + Liveness.TransmitBytes peer < 2 ^ 63 ->
   (Liveness.PeerConnectionStatus (Ok (peer :: rest)) now (Liveness.PublicKey peer) = true
    <-> now - 3 * Minute < Liveness.LastHandshakeTime peer /\
        (0 < Liveness.ReceiveBytes peer \/ 0 < Liveness.TransmitBytes peer))) /\
  (2 ^ 63 <= Liveness.ReceiveBytes peer + Liveness.TransmitBytes peer ->
   Liveness.PeerConnectionStatus (Ok (peer :: rest)) now (Liveness.PublicKey peer) = false).
Proof.
  intros Hrx Htx. simpl. rewrite String.eqb_refl.
  unfold Liveness.connected, Time_After, Time_Add, add64, wrap64. split.
  - intros Hfit. rewrite Z.mod_small by lia.
    rewrite andb_true_iff, !Z.ltb_lt. lia.
  - intros Hover. apply andb_false_iff. right. apply Z.ltb_ge.
    replace (Liveness.ReceiveBytes peer + Liveness.TransmitBytes peer + 2 ^ 63)
      with ((Liveness.ReceiveBytes peer + Liveness.TransmitBytes peer - 2 ^ 63)
            + 1 * 2 ^ 64) by lia.
    rewrite Z.mod_add by lia. rewrite Z.mod_small by lia. lia.
Qed.

(** ** The message cache *)

Section CacheFacts.

Import functions.

Lemma list_ascii_app (a b : string) :
  String.list_ascii_of_string (a +:+ b) = String.list_ascii_of_string a ++ String.list_ascii_of_string b.
Proof.
  induction a as [|c a IH]; [reflexivity|].
  rewrite append_cons. simpl. rewrite IH. reflexivity.
Qed.

Lemma list_ascii_inj (a b : string) :
  String.list_ascii_of_string a = String.list_ascii_of_string b -> a = b.
Proof.
  intros H. rewrite <- (String.string_of_list_ascii_of_string a),
    <- (String.string_of_list_ascii_of_string b), H. reflexivity.
Qed.

(** The cache key tells networks and kinds apart. *)
Lemma cache_key_inj (network network' which which' : string) :
  In which kinds -> In which' kinds ->
  cache_key network which = cache_key network' which' ->
  network = network' /\ which = which'.
Proof.
  unfold kinds, lastNodeUpdate, lastDNSUpdate, lastALLDNSUpdate, cache_key.
  intros Hw Hw' H.
  apply (f_equal String.list_ascii_of_string) in H. rewrite !list_ascii_app in H.
  apply (f_equal (@List.rev ascii)) in H. rewrite !List.rev_app_distr in H.
  simpl in Hw, Hw'.
  destruct Hw as [<-|[<-|[<-|[]]]]; destruct Hw' as [<-|[<-|[<-|[]]]];
    simpl in H; try discriminate H;
    (split; [|reflexivity]); apply list_ascii_inj;
    injection H as H; apply (f_equal (@List.rev ascii)) in H;
    rewrite !List.rev_involutive in H; exact H.
Qed.

(** X16: a message inserted at a time that is not the zero instant is
    returned by every [read] of the same network and kind made no later
    than 24 hours after the insertion, and such a read leaves the cache
    as it is. *)
Theorem read_after_insert
    (now0 now1 : Time) (cache : gmap string cachedMessage)
    (network which message : string) :
  now0 <> zeroTime ->
  now1 <= now0 + 24 * Hour ->
  read now1 (insert now0 cache network which message) network which
  = (message, insert now0 cache network which message).
Proof.
  intros Hnz Hle. unfold read, insert. rewrite lookup_insert_eq. simpl.
  unfold IsZero. destruct (Z.eqb_spec now0 zeroTime); [contradiction|].
  unfold Time_After, Time_Add. destruct (Z.ltb_spec (now0 + Hour * 24) now1); [lia|].
  reflexivity.
Qed.

(** X17: a [read] made more than 24 hours after the insertion returns
    the empty string and removes the entry, so that every later read of
    that network and kind, at whatever time, returns the empty string
    too, until the next insertion. *)
Theorem read_expired
    (now0 now1 : Time) (cache : gmap string cachedMessage)
    (network which message : string) :
  now0 <> zeroTime ->
  now0 + 24 * Hour < now1 ->
  read now1 (insert now0 cache network which message) network which
  = (EmptyString, delete (cache_key network which) cache) /\
  forall now2,
    read now2 (delete (cache_key network which) cache) network which
    = (EmptyString, delete (cache_key network which) cache).
Proof.
  intros Hnz Hlt. split.
  - unfold read, insert. rewrite lookup_insert_eq. simpl.
    unfold IsZero. destruct (Z.eqb_spec now0 zeroTime); [contradiction|].
    unfold Time_After, Time_Add. destruct (Z.ltb_spec (now0 + Hour * 24) now1); [|lia].
    rewrite delete_insert_eq. reflexivity.
  - intros now2. unfold read. rewrite lookup_delete_eq. reflexivity.
Qed.

(** X18: for the three kinds of message the daemon caches, an insertion
    for one network and kind never changes what [read] returns for
    another network or another kind. *)
Theorem insert_keeps_other_messages
    (now0 now1 : Time) (cache : gmap string cachedMessage)
    (network which message network' which' : string) :
  In which kinds -> In which' kinds ->
  (network, which) <> (network', which') ->
  fst (read now1 (insert now0 cache network which message) network' which')
  = fst (read now1 cache network' which').
Proof.
  intros Hw Hw' Hne. unfold read, insert.
  rewrite lookup_insert_ne.
  - destruct (cache !! cache_key network' which') as [m|]; [|reflexivity].
    destruct (IsZero (LastSeen m)); [reflexivity|].
    destruct (Time_After now1 _); reflexivity.
  - intros Heq. destruct (cache_key_inj _ _ _ _ Hw Hw' Heq) as [-> ->]. congruence.
Qed.

End CacheFacts.

(** ** The MQTT set-up *)

Section MqttFacts.

Import functions.

(** X19: [unsubscribeNode] logs a failure only when the wait ended in
    time and the token carries an error, and the line then quotes that
    error; in every other case, a wait that timed out included, it logs
    success.  The branch that would log "connection timeout" is never
    taken.  [setSubscriptions] behaves in the same way. *)
Theorem unsubscribe_subscribe_outcomes
    (Call : string -> Token) (network id : string) :
  let topic := "node/update/" +:+ network +:+ "/" +:+ id in
  unsubscribeNode Call network id =
    [MUnsubscribe topic;
     match completed (Call topic), token_err (Call topic) with
     | true, Some e =>
         MLog 1 ["network:"; network; "unable to unsubscribe from updates for node ";
                 id; newline; e]
     | _, _ => MLog 1 ["network:"; network; "successfully unsubscribed node "; id]
     end] /\
  setSubscriptions Call network id =
    [MSubscribe topic;
     match completed (Call topic), token_err (Call topic) with
     | true, Some e => MLog 0 ["network:"; network; e]
     | _, _ => MLog 3 ["subscribed to peer updates peers/" +:+ network +:+ "/" +:+ id]
     end].
Proof.
  cbv zeta. unfold unsubscribeNode, setSubscriptions, has_error.
  destruct (Call _) as [[|] [e|]]; simpl; split; reflexivity.
Qed.

Lemma connect_loop_result (Connect : nat -> Token) (left : nat) :
  forall count connecterr,
    fst (connect_loop Connect count left connecterr)
    = match left with
      | O => connecterr
      | S left' => connect_error (Connect (count + left')%nat)
      end /\
    List.filter is_connect (snd (connect_loop Connect count left connecterr))
    = map MConnect (seq count left) /\
    List.filter is_publish (snd (connect_loop Connect count left connecterr)) = [].
Proof.
  induction left as [|left IH]; intros count connecterr; [auto|].
  simpl. specialize (IH (S count) (connect_error (Connect count))).
  destruct (connect_loop Connect (S count) left (connect_error (Connect count)))
    as [err tl]. simpl in IH |- *. destruct IH as (IH1 & IH2 & IH3).
  split; [|split].
  - rewrite IH1. destruct left as [|left'].
    + rewrite Nat.add_0_r. reflexivity.
    + f_equal. f_equal. lia.
  - destruct (connect_failed (Connect count)); simpl; rewrite IH2; reflexivity.
  - destruct (connect_failed (Connect count)); simpl; rewrite IH3; reflexivity.
Qed.

(** X20: [setupMQTT] always makes three connection attempts, also after
    one that succeeded, and what it returns is decided by the third one
    alone: nil when that attempt ended in time without error, otherwise
    its error, or "connect timeout" when the wait timed out without one. *)
Theorem setupMQTT_third_attempt_decides
    (Connect : nat -> Token) (PublishHostUpdate : string -> string -> option string)
    (server : Server) :
  fst (setupMQTT Connect PublishHostUpdate server) = connect_error (Connect 2%nat) /\
  List.filter is_connect (snd (setupMQTT Connect PublishHostUpdate server))
  = [MConnect 0; MConnect 1; MConnect 2].
Proof.
  unfold setupMQTT.
  destruct (connect_loop_result Connect 3 0 None) as (H1 & H2 & _).
  destruct (connect_loop Connect 0 3 None) as [err evs]. simpl in H1, H2.
  rewrite <- H1. destruct err as [e|]; simpl.
  - split; [reflexivity|]. rewrite List.filter_app, H2. reflexivity.
  - split; [reflexivity|]. rewrite !List.filter_app, H2.
    destruct (PublishHostUpdate (Name server) _), (UseTurn server);
      try destruct (PublishHostUpdate (ServerName server) _); reflexivity.
Qed.

(** X21: when the connection failed [setupMQTT] publishes nothing; when
    it succeeded it publishes one acknowledgement for the server and,
    for a server that uses TURN, one TURN registration, and returns nil
    whether or not these publications succeed. *)
Theorem setupMQTT_publications
    (Connect : nat -> Token) (PublishHostUpdate : string -> string -> option string)
    (server : Server) :
  List.filter is_publish (snd (setupMQTT Connect PublishHostUpdate server))
  = match fst (setupMQTT Connect PublishHostUpdate server) with
    | Some _ => []
    | None =>
        MPublish (Name server) "Acknowledgement" ::
        (if UseTurn server then [MPublish (ServerName server) "RegisterWithTurn"] else [])
    end.
Proof.
  unfold setupMQTT.
  destruct (connect_loop_result Connect 3 0 None) as (_ & _ & H3).
  destruct (connect_loop Connect 0 3 None) as [err evs]. simpl in H3.
  destruct err as [e|]; simpl.
  - rewrite List.filter_app, H3. reflexivity.
  - rewrite !List.filter_app, H3.
    destruct (PublishHostUpdate (Name server) _), (UseTurn server);
      try destruct (PublishHostUpdate (ServerName server) _); reflexivity.
Qed.

End MqttFacts.

(** ** Rule keys and rule tables *)

Section RuleKeyFacts.

Import router.

Lemma colon_free_no_colon (a b y : string) :
  colon_free a = true -> a <> b +:+ ":" +:+ y.
Proof.
  revert a. induction b as [|c b IH]; intros a Ha H.
  - rewrite append_nil in H. subst a. rewrite append_cons in Ha. discriminate.
  - subst a. rewrite append_cons in Ha. simpl in Ha.
    apply andb_true_iff in Ha as [_ Ha]. exact (IH _ Ha eq_refl).
Qed.

Lemma split_at_colon (a b x y : string) :
  colon_free a = true -> colon_free b = true ->
  a +:+ ":" +:+ x = b +:+ ":" +:+ y -> a = b /\ x = y.
Proof.
  revert b. induction a as [|c a IH]; intros b Ha Hb H.
  - destruct b as [|c' b].
    + rewrite !append_nil, !append_cons, !append_nil in H. split; congruence.
    + rewrite append_nil, !append_cons in H. injection H as <- _.
      simpl in Hb. discriminate.
  - destruct b as [|c' b].
    + rewrite append_nil, !append_cons in H. injection H as -> _.
      simpl in Ha. discriminate.
    + rewrite !append_cons in H. injection H as -> H.
      simpl in Ha, Hb.
      apply andb_true_iff in Ha as [_ Ha]. apply andb_true_iff in Hb as [_ Hb].
      destruct (IH b Ha Hb H) as [-> ->]. auto.
Qed.

(** X22: on specifications that are not empty and whose words contain
    no colon, [genRuleKey] is injective: two different specifications
    never get the same key. *)
Theorem genRuleKey_inj (rule1 rule2 : list string) :
  rule1 <> [] -> rule2 <> [] ->
  Forall (fun w => colon_free w = true) rule1 ->
  Forall (fun w => colon_free w = true) rule2 ->
  genRuleKey rule1 = genRuleKey rule2 ->
  rule1 = rule2.
Proof.
  unfold genRuleKey. revert rule2.
  induction rule1 as [|a r1 IH]; intros rule2 Hne1 Hne2 Hf1 Hf2 H; [congruence|].
  destruct rule2 as [|b r2]; [congruence|].
  inversion Hf1 as [|? ? Ha Hr1]; subst. inversion Hf2 as [|? ? Hb Hr2]; subst.
  destruct r1 as [|a' r1]; destruct r2 as [|b' r2].
  - simpl in H. congruence.
  - simpl in H. exfalso. exact (colon_free_no_colon _ _ _ Ha H).
  - simpl in H. exfalso. symmetry in H. exact (colon_free_no_colon _ _ _ Hb H).
  - change (a +:+ ":" +:+ strings_Join (a' :: r1) ":"
            = b +:+ ":" +:+ strings_Join (b' :: r2) ":") in H.
    destruct (split_at_colon _ _ _ _ Ha Hb H) as [-> Hrest].
    f_equal. apply IH; auto; discriminate.
Qed.

End RuleKeyFacts.

Section RuleTableFacts.

Import router.

Variable ingressTable egressTable : string.
Variable K : Type.

Let State := State K.
Let Fetch := FetchRuleTable ingressTable egressTable.
Let Save := @SaveRules ingressTable egressTable K.

Lemma Fetch_Save_same (st : State) (server name : string) (rules : ruletable) :
  name = ingressTable \/ name = egressTable ->
  Fetch (mgr K (Save server name rules st)) server name = rules.
Proof.
  intros H. unfold Fetch, FetchRuleTable, Save, SaveRules. simpl.
  destruct (String.eqb_spec name ingressTable).
  - simpl. rewrite lookup_insert_eq. reflexivity.
  - destruct (String.eqb_spec name egressTable); [|tauto].
    simpl. rewrite lookup_insert_eq. reflexivity.
Qed.

Lemma Fetch_Save_other (st : State) (server name server' name' : string)
    (rules : ruletable) :
  (server', name') <> (server, name) ->
  Fetch (mgr K (Save server name rules st)) server' name'
  = Fetch (mgr K st) server' name'.
Proof.
  intros Hne. unfold Fetch, FetchRuleTable, Save, SaveRules. simpl.
  destruct (String.eqb_spec name ingressTable) as [Hi|Hi];
    destruct (String.eqb_spec name' ingressTable) as [Hi'|Hi']; simpl;
    try reflexivity.
  - rewrite lookup_insert_ne by congruence. reflexivity.
  - destruct (String.eqb_spec name egressTable) as [He|He]; reflexivity.
  - destruct (String.eqb_spec name egressTable) as [He|He];
      destruct (String.eqb_spec name' egressTable) as [He'|He']; simpl;
      try reflexivity.
    rewrite lookup_insert_ne by congruence. reflexivity.
Qed.

(** X23: a table saved under the ingress or the egress name is the one
    fetched back for that server and name; saving leaves every other
    server's table and the other name's table as they were; and under
    any other name saving stores nothing and fetching gives the empty
    table. *)
Theorem FetchRuleTable_SaveRules (st : State) (server name : string) (rules : ruletable) :
  (name = ingressTable \/ name = egressTable ->
   Fetch (mgr K (Save server name rules st)) server name = rules) /\
  (forall server' name',
     (server', name') <> (server, name) ->
     Fetch (mgr K (Save server name rules st)) server' name'
     = Fetch (mgr K st) server' name') /\
  (name <> ingressTable -> name <> egressTable ->
   mgr K (Save server name rules st) = mgr K st /\ Fetch (mgr K st) server name = ∅).
Proof.
  split; [apply Fetch_Save_same|]. split; [intros; apply Fetch_Save_other; assumption|].
  intros Hi He. unfold Fetch, FetchRuleTable, Save, SaveRules. simpl.
  destruct (String.eqb_spec name ingressTable); [contradiction|].
  destruct (String.eqb_spec name egressTable); [contradiction|]. auto.
Qed.

(** From here on, the kernel's [deleteRule]. *)
Variable deleteRule : K -> string -> string -> string -> K * option string.

Let delete_each := delete_each K deleteRule.
Let delete_all := delete_all K deleteRule.
Let DeleteRule := DeleteRoutingRule ingressTable egressTable K deleteRule.

Lemma deletions_app (l1 l2 : list Event) :
  deletions (l1 ++ l2) = deletions l1 ++ deletions l2.
Proof. apply List.filter_app. Qed.

Lemma deletions_calls (rules : list ruleInfo) :
  deletions (map delete_call rules) = map delete_call rules.
Proof. induction rules as [|r rules IH]; [reflexivity|]. simpl. rewrite IH. reflexivity. Qed.

(** The inner loop stops at the first failure: it has asked for the
    deletion of a prefix of the rules, all of them when it reports no
    error, and it does not touch the rule tables. *)
Lemma delete_each_spec (peerKey : string) (rules : list ruleInfo) :
  forall st,
    mgr K (fst (delete_each st peerKey rules)) = mgr K st /\
    exists pre post,
      rules = pre ++ post /\
      trace K (fst (delete_each st peerKey rules)) = trace K st ++ map delete_call pre /\
      (snd (delete_each st peerKey rules) = None -> post = []).
Proof.
  induction rules as [|r rules IH]; intros st.
  - split; [reflexivity|]. exists [], []. simpl. rewrite app_nil_r. auto.
  - unfold delete_each. simpl. unfold call_deleteRule.
    destruct (deleteRule (kernel K st) (table r) (chain r) (genRuleKey (rule r)))
      as [k [err|]]; simpl.
    + split; [reflexivity|]. exists [r], rules. simpl. split; [reflexivity|].
      split; [reflexivity|discriminate].
    + fold delete_each.
      destruct (IH {| mgr := mgr K st; kernel := k;
                      trace := trace K st ++ [delete_call r] |})
        as (Hm & pre & post & -> & Htr & Hnone).
      split; [exact Hm|]. exists (r :: pre), post. split; [reflexivity|].
      split; [|exact Hnone]. rewrite Htr. simpl. rewrite <- app_assoc. reflexivity.
Qed.

Lemma trace_Save (st : State) (server name : string) (rules : ruletable) :
  deletions (trace K (Save server name rules st)) = deletions (trace K st).
Proof.
  unfold Save, SaveRules. simpl. rewrite deletions_app. simpl. apply app_nil_r.
Qed.

Lemma clean_each_spec (rules : list ruleInfo) :
  forall st : State,
    mgr K (clean_each K deleteRule st rules) = mgr K st /\
    deletions (trace K (clean_each K deleteRule st rules))
      = deletions (trace K st) ++ map delete_call rules.
Proof.
  induction rules as [|r rules IH]; intros st.
  - simpl. rewrite app_nil_r. auto.
  - simpl. unfold call_deleteRule.
    destruct (deleteRule (kernel K st) (table r) (chain r) (genRuleKey (rule r)))
      as [k [err|]]; simpl;
      match goal with
      | |- context [clean_each K deleteRule ?s rules] =>
          destruct (IH s) as [Hm Hd]; rewrite Hm, Hd
      end; simpl; rewrite !deletions_app; simpl;
      rewrite ?app_nil_r, <- app_assoc; auto.
Qed.

Lemma clean_peer_spec (byPeer : list (string * list ruleInfo)) :
  forall st : State,
    mgr K (clean_peer K deleteRule st byPeer) = mgr K st /\
    deletions (trace K (clean_peer K deleteRule st byPeer))
      = deletions (trace K st) ++ map delete_call (concat (map snd byPeer)).
Proof.
  induction byPeer as [|[dst rules] byPeer IH]; intros st.
  - simpl. rewrite app_nil_r. auto.
  - simpl. destruct (IH (clean_each K deleteRule st rules)) as [Hm Hd].
    destruct (clean_each_spec rules st) as [Hm' Hd'].
    rewrite Hm, Hd, Hm', Hd', map_app, app_assoc. auto.
Qed.

(** X24: [DeleteRoutingRule] never changes what the rule table lists:
    whatever it returns, the server's table is afterwards what it was
    before.  In particular, when it returns nil it has asked the kernel
    to delete every rule listed for the pair of peers, and the table
    still lists them. *)
Theorem DeleteRoutingRule_keeps_table
    (st : State) (server name srcPeerKey dstPeerKey : string) :
  name = ingressTable \/ name = egressTable ->
  Fetch (mgr K (fst (DeleteRule st server name srcPeerKey dstPeerKey))) server name
    = Fetch (mgr K st) server name /\
  (snd (DeleteRule st server name srcPeerKey dstPeerKey) = None ->
   exists cfg rules,
     Fetch (mgr K st) server name !! srcPeerKey = Some cfg /\
     rulesMap cfg !! dstPeerKey = Some rules /\
     deletions (trace K (fst (DeleteRule st server name srcPeerKey dstPeerKey)))
       = deletions (trace K st) ++ map delete_call rules).
Proof.
  intros Hname. unfold DeleteRule, DeleteRoutingRule. fold Fetch.
  destruct (Fetch (mgr K st) server name !! srcPeerKey) as [cfg|] eqn:Hcfg.
  - destruct (rulesMap cfg !! dstPeerKey) as [rules|] eqn:Hrules.
    + fold delete_each.
      destruct (delete_each_spec srcPeerKey rules st) as (Hm & pre & post & Hr & Htr & Hnone).
      destruct (delete_each st srcPeerKey rules) as [st' err]. cbn [fst snd] in Hm, Htr, Hnone |- *. split.
      * fold Save. apply Fetch_Save_same. exact Hname.
      * intros ->. exists cfg, rules. split; [reflexivity|]. split; [exact Hrules|].
        rewrite (Hnone eq_refl), app_nil_r in Hr. subst pre.
        fold Save. rewrite trace_Save, Htr, deletions_app, deletions_calls. reflexivity.
    + simpl. split; [|discriminate]. fold Save. apply Fetch_Save_same. exact Hname.
  - simpl. split; [|discriminate]. fold Save. apply Fetch_Save_same. exact Hname.
Qed.

(** From here on, the order in which Go ranges over a peer's rule map. *)
Variable range_rules : gmap string (list ruleInfo) -> list (string * list ruleInfo).

Let Remove := RemoveRoutingRules ingressTable egressTable K deleteRule range_rules.
Let peer_rules := peer_rules range_rules.

(** X25: for a peer that has no entry in the server's table,
    [RemoveRoutingRules] returns "peer not found in rule table: <peer>"
    without asking the kernel for anything; the deferred save still
    runs, so that a server which had no ingress table has an empty one
    afterwards. *)
Theorem RemoveRoutingRules_unknown_peer (st : State) (server name peerKey : string) :
  Fetch (mgr K st) server name !! peerKey = None ->
  snd (Remove st server name peerKey)
    = Some ("peer not found in rule table: " +:+ peerKey) /\
  kernel K (fst (Remove st server name peerKey)) = kernel K st /\
  deletions (trace K (fst (Remove st server name peerKey))) = deletions (trace K st) /\
  (name = ingressTable -> ingRules (mgr K st) !! server = None ->
   ingRules (mgr K (fst (Remove st server name peerKey))) !! server = Some ∅).
Proof.
  intros Hmiss. unfold Remove, RemoveRoutingRules. fold Fetch. rewrite Hmiss. simpl.
  split; [reflexivity|]. split; [reflexivity|].
  split; [rewrite deletions_app; simpl; apply app_nil_r|].
  intros -> Hnone. unfold Fetch, FetchRuleTable. rewrite String.eqb_refl, Hnone. simpl.
  apply lookup_insert_eq.
Qed.

Lemma delete_each_app (peerKey : string) (l1 l2 : list ruleInfo) :
  forall st,
    delete_each st peerKey (l1 ++ l2)
    = match delete_each st peerKey l1 with
      | (st', None) => delete_each st' peerKey l2
      | (st', Some err) => (st', Some err)
      end.
Proof.
  induction l1 as [|r l1 IH]; intros st; [reflexivity|].
  unfold delete_each. simpl. fold delete_each.
  destruct (call_deleteRule K deleteRule st r) as [st' [err|]]; [reflexivity|apply IH].
Qed.

(** The two nested loops of [RemoveRoutingRules] are one loop over the
    peer's rules in the order ranged over. *)
Lemma delete_all_concat (peerKey : string) (byPeer : list (string * list ruleInfo)) :
  forall st,
    delete_all st peerKey byPeer = delete_each st peerKey (concat (map snd byPeer)).
Proof.
  induction byPeer as [|[dst rules] byPeer IH]; intros st; [reflexivity|].
  simpl concat. rewrite delete_each_app.
  unfold delete_all. simpl. fold delete_all. fold delete_each.
  destruct (delete_each st peerKey rules) as [st' [err|]]; [reflexivity|apply IH].
Qed.

Lemma deletions_succeed_cons (k : K) (r : ruleInfo) (rules : list ruleInfo) :
  deletions_succeed K deleteRule k (r :: rules) ->
  deletion_result K deleteRule k r = None /\
  deletions_succeed K deleteRule
    (fst (deleteRule k (table r) (chain r) (genRuleKey (rule r)))) rules.
Proof.
  intros H. split.
  - exact (H [] r rules eq_refl).
  - intros a r' b ->. exact (H (r :: a) r' b eq_refl).
Qed.

Lemma kernel_after_snoc (k : K) (a : list ruleInfo) (r : ruleInfo) :
  kernel_after K deleteRule k (a ++ [r])
  = fst (deleteRule (kernel_after K deleteRule k a) (table r) (chain r)
           (genRuleKey (rule r))).
Proof. unfold kernel_after. rewrite fold_left_app. reflexivity. Qed.

(** When every deletion succeeds the loop makes them all. *)
Lemma delete_each_succeeds (peerKey : string) (rules : list ruleInfo) :
  forall st,
    deletions_succeed K deleteRule (kernel K st) rules ->
    delete_each st peerKey rules
    = ({| mgr := mgr K st; kernel := kernel_after K deleteRule (kernel K st) rules;
          trace := trace K st ++ map delete_call rules |}, None).
Proof.
  induction rules as [|r rules IH]; intros st Hok.
  - destruct st. simpl. rewrite app_nil_r. reflexivity.
  - apply deletions_succeed_cons in Hok as [Hr Hrest].
    unfold delete_each. simpl. fold delete_each.
    unfold call_deleteRule. unfold deletion_result in Hr.
    destruct (deleteRule (kernel K st) (table r) (chain r) (genRuleKey (rule r)))
      as [k err]. simpl in Hr, Hrest. subst err.
    rewrite IH by exact Hrest. simpl. rewrite <- app_assoc. reflexivity.
Qed.

(** It returns at the first deletion that fails, with that error. *)
Lemma delete_each_fails (peerKey : string) (a b : list ruleInfo) (r : ruleInfo)
    (err : string) (st : State) :
  deletions_succeed K deleteRule (kernel K st) a ->
  deletion_result K deleteRule (kernel_after K deleteRule (kernel K st) a) r = Some err ->
  delete_each st peerKey (a ++ r :: b)
  = ({| mgr := mgr K st; kernel := kernel_after K deleteRule (kernel K st) (a ++ [r]);
        trace := trace K st ++ map delete_call (a ++ [r]) |},
     Some (removal_error r peerKey err)).
Proof.
  intros Hok Hfail. rewrite delete_each_app, (delete_each_succeeds peerKey a st Hok).
  unfold delete_each. simpl. unfold call_deleteRule. simpl.
  rewrite kernel_after_snoc, map_app. unfold deletion_result in Hfail.
  destruct (deleteRule (kernel_after K deleteRule (kernel K st) a) (table r) (chain r)
              (genRuleKey (rule r))) as [k e].
  simpl in Hfail. subst e. simpl. rewrite <- app_assoc. reflexivity.
Qed.

(** X26: for a peer with an entry, [RemoveRoutingRules] passes the
    peer's rules to [deleteRule] one by one, in the order ranged over,
    and stops at the first deletion that fails.  If every deletion
    succeeds it returns nil, each rule has been passed to [deleteRule]
    exactly once, and the peer's entry is gone from the table.  If the
    deletion of a rule fails after those before it succeeded, it returns
    the error of lines 1847-1848 for that rule, no later rule has been
    passed to [deleteRule], and the table is as it was, the peer's entry
    included. *)
Theorem RemoveRoutingRules_known_peer
    (st : State) (server name peerKey : string) (cfg : rulesCfg) :
  name = ingressTable \/ name = egressTable ->
  Fetch (mgr K st) server name !! peerKey = Some cfg ->
  (deletions_succeed K deleteRule (kernel K st) (peer_rules cfg) ->
   snd (Remove st server name peerKey) = None /\
   deletions (trace K (fst (Remove st server name peerKey)))
     = deletions (trace K st) ++ map delete_call (peer_rules cfg) /\
   kernel K (fst (Remove st server name peerKey))
     = kernel_after K deleteRule (kernel K st) (peer_rules cfg) /\
   Fetch (mgr K (fst (Remove st server name peerKey))) server name
     = delete peerKey (Fetch (mgr K st) server name)) /\
  (forall a r b err,
     peer_rules cfg = a ++ r :: b ->
     deletions_succeed K deleteRule (kernel K st) a ->
     deletion_result K deleteRule (kernel_after K deleteRule (kernel K st) a) r = Some err ->
     snd (Remove st server name peerKey) = Some (removal_error r peerKey err) /\
     deletions (trace K (fst (Remove st server name peerKey)))
       = deletions (trace K st) ++ map delete_call (a ++ [r]) /\
     kernel K (fst (Remove st server name peerKey))
       = kernel_after K deleteRule (kernel K st) (a ++ [r]) /\
     Fetch (mgr K (fst (Remove st server name peerKey))) server name
       = Fetch (mgr K st) server name).
Proof.
  intros Hname Hcfg. unfold Remove, RemoveRoutingRules. fold Fetch. rewrite Hcfg.
  fold delete_all. rewrite delete_all_concat.
  change (concat (map snd (range_rules (rulesMap cfg)))) with (peer_rules cfg).
  split.
  - intros Hok. rewrite (delete_each_succeeds peerKey _ st Hok). cbn [fst snd].
    split; [reflexivity|]. split; [|split; [reflexivity|]].
    + fold Save. rewrite trace_Save. cbn [trace].
      rewrite deletions_app, deletions_calls. reflexivity.
    + fold Save. apply Fetch_Save_same. exact Hname.
  - intros a r b err Hsplit Hok Hfail. rewrite Hsplit.
    rewrite (delete_each_fails peerKey a b r err st Hok Hfail). cbn [fst snd].
    split; [reflexivity|]. split; [|split; [reflexivity|]].
    + fold Save. rewrite trace_Save. cbn [trace].
      rewrite deletions_app, deletions_calls. reflexivity.
    + fold Save. apply Fetch_Save_same. exact Hname.
Qed.

Lemma clean_table_spec (peers : list (string * rulesCfg)) :
  forall st : State,
    mgr K (clean_table K deleteRule range_rules st peers) = mgr K st /\
    deletions (trace K (clean_table K deleteRule range_rules st peers))
      = deletions (trace K st)
        ++ map delete_call (concat (map (fun x => peer_rules (snd x)) peers)).
Proof.
  induction peers as [|[peer cfg] peers IH]; intros st.
  - simpl. rewrite app_nil_r. auto.
  - simpl.
    destruct (IH (clean_peer K deleteRule st (range_rules (rulesMap cfg)))) as [Hm Hd].
    destruct (clean_peer_spec (range_rules (rulesMap cfg)) st) as [Hm' Hd'].
    rewrite Hm, Hd, Hm', Hd', map_app, app_assoc. auto.
Qed.

(** And the order in which it ranges over a rule table. *)
Variable range_table : ruletable -> list (string * rulesCfg).

Let Clean := CleanRoutingRules ingressTable egressTable K deleteRule range_rules range_table.
Let table_rules := table_rules range_rules range_table.

(** X27: [CleanRoutingRules] passes every rule of every peer of the
    server's table to [deleteRule] exactly once, going on after a
    deletion that failed, and then drops the table: fetching it
    afterwards gives the empty table, while the tables of other servers
    and of the other name are as they were. *)
Theorem CleanRoutingRules_spec (st : State) (server name : string) :
  name = ingressTable \/ name = egressTable ->
  Fetch (mgr K (Clean st server name)) server name = ∅ /\
  deletions (trace K (Clean st server name))
    = deletions (trace K st) ++ map delete_call (table_rules (Fetch (mgr K st) server name)) /\
  forall server' name',
    (server', name') <> (server, name) ->
    Fetch (mgr K (Clean st server name)) server' name' = Fetch (mgr K st) server' name'.
Proof.
  intros Hname. unfold Clean, CleanRoutingRules. fold Fetch.
  destruct (clean_table_spec (range_table (Fetch (mgr K st) server name)) st) as [Hm Hd].
  unfold DeleteRuleTable. simpl. rewrite Hm. split; [|split].
  - unfold Fetch, FetchRuleTable.
    destruct (String.eqb_spec name ingressTable).
    + simpl. rewrite lookup_delete_eq. reflexivity.
    + destruct (String.eqb_spec name egressTable); [|tauto].
      simpl. rewrite lookup_delete_eq. reflexivity.
  - rewrite deletions_app, Hd. simpl. rewrite app_nil_r. reflexivity.
  - intros server' name' Hne. unfold Fetch, FetchRuleTable.
    destruct (String.eqb_spec name ingressTable) as [Hi|Hi];
      destruct (String.eqb_spec name' ingressTable) as [Hi'|Hi']; simpl;
      try reflexivity.
    + rewrite lookup_delete_ne by congruence. reflexivity.
    + destruct (String.eqb_spec name egressTable) as [He|He]; reflexivity.
    + destruct (String.eqb_spec name egressTable) as [He|He];
        destruct (String.eqb_spec name' egressTable) as [He'|He']; simpl;
        try reflexivity.
      rewrite lookup_delete_ne by congruence. reflexivity.
Qed.

End RuleTableFacts.

(** ** [ConvertServerCfg] *)

(** X28: [ConvertServerCfg] panics on every input: it assigns through
    the nil pointer it has just declared, so no caller ever gets a
    [Server] from it.  The same ten assignments through an allocated
    [Server] would run to the end and give the converted record. *)
Theorem ConvertServerCfg_panics
    (cfg : option ncconfig.ServerConfig) (HostID HostPass : string) :
  ncconfig.ConvertServerCfg cfg HostID HostPass = ncconfig.Panic /\
  forall c,
    ncconfig.fill c HostID HostPass (Some ncconfig.zeroServer)
    = ncconfig.Done
        (Some {| ncconfig.Name := ncconfig.cfg_Server c;
                 ncconfig.Version := ncconfig.cfg_Version c;
                 ncconfig.API := ncconfig.cfg_API c;
                 ncconfig.CoreDNSAddr := ncconfig.cfg_CoreDNSAddr c;
                 ncconfig.Broker := ncconfig.cfg_Broker c;
                 ncconfig.MQPort := ncconfig.cfg_MQPort c;
                 ncconfig.MQID := HostID;
                 ncconfig.Password := HostPass;
                 ncconfig.DNSMode := ncconfig.ParseBool (ncconfig.cfg_DNSMode c);
                 ncconfig.Is_EE := ncconfig.cfg_Is_EE c;
                 ncconfig.Nodes := [] |}).
Proof.
  split; [destruct cfg; reflexivity|].
  intros c. reflexivity.
Qed.

(** ** The properties on concrete runs *)

Lemma ProxyPeer_returns_only_when_stopped_witness :
  exists pre t post,
    two_reads ++ [failed_read] = pre ++ t :: post /\
    datagram_of t = None /\
    Forall (fun t' => datagram_of t' <> None) pre.
Proof.
  apply (ProxyPeer_returns_only_when_stopped trailer_transform "dev" false "l" "s"
           plain_proxy (two_reads ++ [failed_read])
           (snd (ProxyPeer trailer_transform "dev" false "l" "s" plain_proxy
                   (two_reads ++ [failed_read])))).
  vm_compute. reflexivity.
Defined.

Lemma toRemote_loop_plain_forwarding_witness :
  exists buf' tr,
    proxy.toRemote_loop trailer_transform "dev" false "l" "s" plain_proxy
      [Byte.x00; Byte.x00; Byte.x00; Byte.x00] two_reads = (proxy.Running buf', tr) /\
    length buf' = length [Byte.x00; Byte.x00; Byte.x00; Byte.x00] /\
    proxy.writes tr
    = map (firstn (length [Byte.x00; Byte.x00; Byte.x00; Byte.x00]))
        (omap datagram_of two_reads).
Proof.
  apply (toRemote_loop_plain_forwarding trailer_transform "dev" false "l" "s"
           plain_proxy two_reads).
  - reflexivity.
  - repeat (constructor; [discriminate|]). constructor.
Defined.

(** The trailer transform returns a length within the buffer it returns. *)
Lemma trailer_transform_in_range (b : list Byte.byte) (n : Z) (src dst : string) :
  0 <= n <= Z.of_nat (length b) ->
  proxy.slice_to (fst (fst (fst (trailer_transform b n src dst))))
    (snd (fst (fst (trailer_transform b n src dst)))) <> None.
Proof.
  intros Hn. unfold trailer_transform, proxy.slice_to. cbn [fst snd].
  assert (Hlen : n + 1 <= Z.of_nat (length (firstn (Z.to_nat n) b ++ [Byte.xff]
                                               ++ skipn (S (Z.to_nat n)) b))).
  { rewrite !length_app, length_take, length_drop. simpl. lia. }
  apply Z.leb_le in Hlen. rewrite Hlen.
  assert (H0 : (0 <=? n + 1) = true) by (apply Z.leb_le; lia).
  rewrite H0. discriminate.
Qed.

Lemma toRemote_loop_one_write_per_read_witness :
  exists buf' tr,
    proxy.toRemote_loop trailer_transform "dev" false "l" "s" relayed_proxy
      [Byte.x00; Byte.x00; Byte.x00; Byte.x00] two_reads = (proxy.Running buf', tr) /\
    length (proxy.writes tr) = length two_reads /\
    length (List.filter is_go tr) = length two_reads.
Proof.
  apply (toRemote_loop_one_write_per_read trailer_transform "dev" false "l" "s"
           relayed_proxy two_reads).
  - intros b n b' n' src dst Hn HT.
    pose proof (trailer_transform_in_range b n "dev" "X" Hn) as H.
    change (models.PeerPublicKey (proxy.Config relayed_proxy)) with "X" in HT.
    rewrite HT in H. exact H.
  - reflexivity.
  - repeat (constructor; [discriminate|]). constructor.
Defined.

Lemma Reset_start_failure_witness :
  exists w' new,
    proxy.Reset start_fails hash_of relayed_proxy world_channel_full = (proxy.Done, w') /\
    proxy.registry w' = proxy.registry world_channel_full /\
    proxy.DumpSignalChan w' = proxy.DumpSignalChan world_channel_full /\
    proxy.trace w' = proxy.trace world_channel_full ++ new /\
    Forall (fun ev => proxy.is_send ev = false) new /\
    last new
    = Some (proxy.LLog 0
              ["Failed to reset proxy for peer: ";
               models.PeerPublicKey
                 (proxy.Config
                    (fst (start_fails
                            (fst (proxy.before_Start relayed_proxy world_channel_full)))));
               "Err: "; "listen udp 127.0.0.1:0: bind: address already in use"]).
Proof.
  apply (Reset_start_failure start_fails hash_of relayed_proxy world_channel_full
           "203.0.113.7:51821" "listen udp 127.0.0.1:0: bind: address already in use").
  - reflexivity.
  - reflexivity.
Defined.

Lemma Reset_publishes_key_entry_witness :
  config.proxyPeerMap
    (proxy.registry (snd (proxy.Reset start_ok hash_of relayed_proxy world_X_both)))
    !! models.PeerPublicKey (proxy.Config relayed_proxy)
  = Some {| models.Key := models.PeerPublicKey (proxy.Config relayed_proxy);
            models.Config :=
              proxy.Config
                (fst (start_ok (fst (proxy.before_Start relayed_proxy world_X_both))));
            models.LocalConn :=
              proxy.LocalConn
                (fst (start_ok (fst (proxy.before_Start relayed_proxy world_X_both))));
            models.ResetConn :=
              Some (proxy.Id
                      (fst (start_ok (fst (proxy.before_Start relayed_proxy world_X_both)))));
            models.StopConn :=
              Some (proxy.Id
                      (fst (start_ok (fst (proxy.before_Start relayed_proxy world_X_both)))));
            models.ServerMap := {[ "s" ]} |} /\
  forall key', key' <> models.PeerPublicKey (proxy.Config relayed_proxy) ->
    config.proxyPeerMap
      (proxy.registry (snd (proxy.Reset start_ok hash_of relayed_proxy world_X_both)))
      !! key'
    = config.proxyPeerMap (proxy.registry world_X_both) !! key'.
Proof.
  refine (Reset_publishes_key_entry start_ok hash_of relayed_proxy world_X_both
            "203.0.113.7:51821"
            (fst (start_ok (fst (proxy.before_Start relayed_proxy world_X_both))))
            {| models.Key := "X"; models.Config := proxy.Config relayed_proxy;
               models.LocalConn := Some 1%nat; models.ResetConn := Some 0%nat;
               models.StopConn := Some 0%nat; models.ServerMap := {[ "s" ]} |}
            _ _ _ _ _).
  - reflexivity.
  - reflexivity.
  - reflexivity.
  - vm_compute. reflexivity.
  - reflexivity.
Defined.

Lemma Reset_indices_agree_witness :
  (exists conn' peer',
     config.proxyPeerMap
       (proxy.registry (snd (proxy.Reset start_ok hash_of relayed_proxy world_X_both)))
       !! models.PeerPublicKey (proxy.Config relayed_proxy) = Some conn' /\
     config.peerHashMap
       (proxy.registry (snd (proxy.Reset start_ok hash_of relayed_proxy world_X_both)))
       !! hash_of (models.PeerPublicKey (proxy.Config relayed_proxy)) = Some peer' /\
     models.LocalConn conn'
     = proxy.LocalConn
         (fst (start_ok (fst (proxy.before_Start relayed_proxy world_X_both)))) /\
     models.RemoteLocalConn peer'
     = proxy.LocalConn
         (fst (start_ok (fst (proxy.before_Start relayed_proxy world_X_both)))) /\
     models.PeerKey peer' = models.PeerPublicKey (proxy.Config relayed_proxy)) /\
  forall hash', hash' <> hash_of (models.PeerPublicKey (proxy.Config relayed_proxy)) ->
    config.peerHashMap
      (proxy.registry (snd (proxy.Reset start_ok hash_of relayed_proxy world_X_both)))
      !! hash'
    = config.peerHashMap (proxy.registry world_X_both) !! hash'.
Proof.
  refine (Reset_indices_agree start_ok hash_of relayed_proxy world_X_both
            "203.0.113.7:51821"
            (fst (start_ok (fst (proxy.before_Start relayed_proxy world_X_both))))
            {| models.Key := "X"; models.Config := proxy.Config relayed_proxy;
               models.LocalConn := Some 1%nat; models.ResetConn := Some 0%nat;
               models.StopConn := Some 0%nat; models.ServerMap := {[ "s" ]} |}
            hash_entry_X _ _ _ _ _ _ _).
  - reflexivity.
  - reflexivity.
  - reflexivity.
  - vm_compute. reflexivity.
  - reflexivity.
  - vm_compute. reflexivity.
  - reflexivity.
Defined.

Lemma GetFreeIp_alias_per_dial_witness :
  length (List.filter is_run_cmd
            [Allocator.EvRunCmd "ifconfig lo0 alias 127.1.0.1 255.255.255.255";
             Allocator.EvDial (IPv4.ParseIP "127.1.0.1", 51722)
               (IPv4.ParseIP "127.0.0.1", 51820);
             Allocator.EvLog 1 ["----> GetFreeIP err: ";
                                "dial udp: bind: address already in use"];
             Allocator.EvRunCmd "ifconfig lo0 alias 127.1.0.2 255.255.255.255";
             Allocator.EvDial (IPv4.ParseIP "127.1.0.2", 51722)
               (IPv4.ParseIP "127.0.0.1", 51820);
             Allocator.EvClose (IPv4.ParseIP "127.1.0.2", 51722)])
  = if String.eqb "darwin" "darwin"
    then length (List.filter is_dial
                   [Allocator.EvRunCmd "ifconfig lo0 alias 127.1.0.1 255.255.255.255";
                    Allocator.EvDial (IPv4.ParseIP "127.1.0.1", 51722)
                      (IPv4.ParseIP "127.0.0.1", 51820);
                    Allocator.EvLog 1 ["----> GetFreeIP err: ";
                                       "dial udp: bind: address already in use"];
                    Allocator.EvRunCmd "ifconfig lo0 alias 127.1.0.2 255.255.255.255";
                    Allocator.EvDial (IPv4.ParseIP "127.1.0.2", 51722)
                      (IPv4.ParseIP "127.0.0.1", 51820);
                    Allocator.EvClose (IPv4.ParseIP "127.1.0.2", 51722)])
    else O.
Proof.
  apply (GetFreeIp_alias_per_dial IPv4.ParseCIDR IPv4.Net4FromStr IPv4.FirstAddress
           IPv4.NextIP IPv4.IP_String IPv4.ParseIP (IPv4.DialUDP [2130771969] [])
           IPv4.NmProxyPort "darwin" IPv4.RunCmd 2%nat "127.1.0.0/30" 51820
           (Ok "127.1.0.2")).
  vm_compute. reflexivity.
Defined.

Lemma GetFreeIp_dial_bound_witness :
  le (length (List.filter is_dial
                [Allocator.EvDial (IPv4.ParseIP "127.1.0.1", 51722)
                   (IPv4.ParseIP "127.0.0.1", 51820);
                 Allocator.EvLog 1 ["----> GetFreeIP err: ";
                                    "dial udp: bind: address already in use"];
                 Allocator.EvDial (IPv4.ParseIP "127.1.0.2", 51722)
                   (IPv4.ParseIP "127.0.0.1", 51820);
                 Allocator.EvClose (IPv4.ParseIP "127.1.0.2", 51722)]))
     (S (IPv4.rank (IPv4.Net4FromStr "127.1.0.0/30")
           (IPv4.FirstAddress (IPv4.Net4FromStr "127.1.0.0/30")))).
Proof.
  apply (GetFreeIp_dial_bound IPv4.ParseCIDR IPv4.Net4FromStr IPv4.FirstAddress
           IPv4.NextIP IPv4.IP_String IPv4.ParseIP (IPv4.DialUDP [2130771969] [])
           IPv4.NmProxyPort IPv4.Contains "linux" IPv4.RunCmd
           (IPv4.rank (IPv4.Net4FromStr "127.1.0.0/30"))
           2%nat "127.1.0.0/30" 51820 (Ok "127.1.0.2")).
  - reflexivity.
  - intros a b Ha Hn. exact (IPv4_NextIP_inside _ a b Ha Hn).
  - vm_compute. reflexivity.
Defined.

Lemma PeerConnectionStatus_stays_false_witness :
  Liveness.PeerConnectionStatus (Ok [iface_peer_X]) (1500 * 1000000000) "X" = false.
Proof.
  apply (PeerConnectionStatus_stays_false (Ok [iface_peer_X])
           (1200 * 1000000000) (1500 * 1000000000) "X").
  - lia.
  - reflexivity.
Defined.

Lemma PeerConnectionStatus_bytes_witness :
  (Liveness.ReceiveBytes iface_peer_X + Liveness.TransmitBytes iface_peer_X < 2 ^ 63 ->
   (Liveness.PeerConnectionStatus (Ok [iface_peer_X]) (1100 * 1000000000)
      (Liveness.PublicKey iface_peer_X) = true
    <-> 1100 * 1000000000 - 3 * Minute < Liveness.LastHandshakeTime iface_peer_X /\
        (0 < Liveness.ReceiveBytes iface_peer_X \/
         0 < Liveness.TransmitBytes iface_peer_X))) /\
  (2 ^ 63 <= Liveness.ReceiveBytes iface_peer_X + Liveness.TransmitBytes iface_peer_X ->
   Liveness.PeerConnectionStatus (Ok [iface_peer_X]) (1100 * 1000000000)
     (Liveness.PublicKey iface_peer_X) = false).
Proof.
  apply (PeerConnectionStatus_bytes iface_peer_X [] (1100 * 1000000000)).
  - simpl. lia.
  - simpl. lia.
Defined.

Lemma read_after_insert_witness :
  functions.read (1000 + 3600 * 1000000000)
    (functions.insert 1000 ∅ "net" functions.lastNodeUpdate "update") "net"
    functions.lastNodeUpdate
  = ("update", functions.insert 1000 ∅ "net" functions.lastNodeUpdate "update").
Proof.
  apply (read_after_insert 1000 (1000 + 3600 * 1000000000) ∅ "net"
           functions.lastNodeUpdate "update").
  - unfold functions.zeroTime. lia.
  - unfold functions.Hour. lia.
Defined.

Lemma read_expired_witness :
  functions.read (1000 + 25 * functions.Hour)
    (functions.insert 1000 ∅ "net" functions.lastNodeUpdate "update") "net"
    functions.lastNodeUpdate
  = (EmptyString, delete (functions.cache_key "net" functions.lastNodeUpdate) ∅) /\
  forall now2,
    functions.read now2 (delete (functions.cache_key "net" functions.lastNodeUpdate) ∅)
      "net" functions.lastNodeUpdate
    = (EmptyString, delete (functions.cache_key "net" functions.lastNodeUpdate) ∅).
Proof.
  apply (read_expired 1000 (1000 + 25 * functions.Hour) ∅ "net"
           functions.lastNodeUpdate "update").
  - unfold functions.zeroTime. lia.
  - unfold functions.Hour. lia.
Defined.

Lemma insert_keeps_other_messages_witness :
  fst (functions.read 2000
         (functions.insert 1000
            (functions.insert 500 ∅ "net" functions.lastNodeUpdate "update")
            "net" functions.lastDNSUpdate "dns")
         "net" functions.lastNodeUpdate)
  = fst (functions.read 2000
           (functions.insert 500 ∅ "net" functions.lastNodeUpdate "update")
           "net" functions.lastNodeUpdate).
Proof.
  apply (insert_keeps_other_messages 1000 2000
           (functions.insert 500 ∅ "net" functions.lastNodeUpdate "update")
           "net" functions.lastDNSUpdate "dns" "net" functions.lastNodeUpdate).
  - right. left. reflexivity.
  - left. reflexivity.
  - discriminate.
Defined.

Lemma genRuleKey_inj_witness :
  ["ip"; "saddr"; "10.0.0.2"; "accept"] = ["ip"; "saddr"; "10.0.0.2"; "accept"].
Proof.
  apply (genRuleKey_inj ["ip"; "saddr"; "10.0.0.2"; "accept"]
           ["ip"; "saddr"; "10.0.0.2"; "accept"]).
  - discriminate.
  - discriminate.
  - repeat constructor.
  - repeat constructor.
  - reflexivity.
Defined.

Lemma RemoveRoutingRules_unknown_peer_witness :
  snd (run_Remove router_state "other" "ingress" "A")
    = Some ("peer not found in rule table: " +:+ "A") /\
  router.kernel _ (fst (run_Remove router_state "other" "ingress" "A"))
    = router.kernel _ router_state /\
  router.deletions (router.trace _ (fst (run_Remove router_state "other" "ingress" "A")))
    = router.deletions (router.trace _ router_state) /\
  ("ingress" = "ingress" ->
   router.ingRules (router.mgr _ router_state) !! "other" = None ->
   router.ingRules (router.mgr _ (fst (run_Remove router_state "other" "ingress" "A")))
     !! "other" = Some ∅).
Proof.
  refine (RemoveRoutingRules_unknown_peer "ingress" "egress" (list string)
            kernel_deleteRule in_key_order router_state "other" "ingress" "A" _).
  vm_compute. reflexivity.
Defined.

Lemma RemoveRoutingRules_known_peer_witness :
  (snd (run_Remove router_state "srv" "ingress" "A") = None /\
   router.deletions (router.trace _ (fst (run_Remove router_state "srv" "ingress" "A")))
     = router.deletions (router.trace _ router_state)
       ++ map router.delete_call (router.peer_rules in_key_order rules_of_A) /\
   router.kernel _ (fst (run_Remove router_state "srv" "ingress" "A"))
     = router.kernel_after _ kernel_deleteRule (router.kernel _ router_state)
         (router.peer_rules in_key_order rules_of_A) /\
   run_Fetch (router.mgr _ (fst (run_Remove router_state "srv" "ingress" "A")))
     "srv" "ingress"
   = delete "A" (run_Fetch (router.mgr _ router_state) "srv" "ingress")) /\
  (snd (run_Remove router_state_stale "srv" "ingress" "A")
     = Some (router.removal_error rule_A_B "A" "rule not found") /\
   router.deletions
     (router.trace _ (fst (run_Remove router_state_stale "srv" "ingress" "A")))
     = router.deletions (router.trace _ router_state_stale)
       ++ map router.delete_call ([] ++ [rule_A_B]) /\
   router.kernel _ (fst (run_Remove router_state_stale "srv" "ingress" "A"))
     = router.kernel_after _ kernel_deleteRule (router.kernel _ router_state_stale)
         ([] ++ [rule_A_B]) /\
   run_Fetch (router.mgr _ (fst (run_Remove router_state_stale "srv" "ingress" "A")))
     "srv" "ingress"
   = run_Fetch (router.mgr _ router_state_stale) "srv" "ingress").
Proof.
  assert (Hrules : router.peer_rules in_key_order rules_of_A = [rule_A_B])
    by (vm_compute; reflexivity).
  split.
  - refine (proj1 (RemoveRoutingRules_known_peer "ingress" "egress" (list string)
                     kernel_deleteRule in_key_order router_state "srv" "ingress" "A"
                     rules_of_A _ _) _).
    + left. reflexivity.
    + vm_compute. reflexivity.
    + intros a r b Hsplit. rewrite Hrules in Hsplit.
      destruct a as [|x [|y a]]; simpl in Hsplit; try discriminate Hsplit.
      injection Hsplit as <- _. vm_compute. reflexivity.
  - refine (proj2 (RemoveRoutingRules_known_peer "ingress" "egress" (list string)
                     kernel_deleteRule in_key_order router_state_stale "srv" "ingress"
                     "A" rules_of_A _ _) [] rule_A_B [] "rule not found" _ _ _).
    + left. reflexivity.
    + vm_compute. reflexivity.
    + exact Hrules.
    + intros a r b Hsplit. destruct a; discriminate Hsplit.
    + vm_compute. reflexivity.
Defined.

Lemma DeleteRoutingRule_keeps_table_witness :
  run_Fetch (router.mgr _ (fst (run_Delete router_state "srv" "ingress" "A" "B")))
    "srv" "ingress"
  = run_Fetch (router.mgr _ router_state) "srv" "ingress" /\
  (snd (run_Delete router_state "srv" "ingress" "A" "B") = None ->
   exists cfg rules,
     run_Fetch (router.mgr _ router_state) "srv" "ingress" !! "A" = Some cfg /\
     router.rulesMap cfg !! "B" = Some rules /\
     router.deletions
       (router.trace _ (fst (run_Delete router_state "srv" "ingress" "A" "B")))
     = router.deletions (router.trace _ router_state) ++ map router.delete_call rules).
Proof.
  refine (DeleteRoutingRule_keeps_table "ingress" "egress" (list string)
            kernel_deleteRule router_state "srv" "ingress" "A" "B" _).
  left. reflexivity.
Defined.

Lemma CleanRoutingRules_spec_witness :
  run_Fetch (router.mgr _ (run_Clean router_state "srv" "ingress")) "srv" "ingress" = ∅ /\
  router.deletions (router.trace _ (run_Clean router_state "srv" "ingress"))
    = router.deletions (router.trace _ router_state)
      ++ map router.delete_call
           (router.table_rules in_key_order in_key_order
              (run_Fetch (router.mgr _ router_state) "srv" "ingress")) /\
  forall server' name',
    (server', name') <> ("srv", "ingress") ->
    run_Fetch (router.mgr _ (run_Clean router_state "srv" "ingress")) server' name'
    = run_Fetch (router.mgr _ router_state) server' name'.
Proof.
  refine (CleanRoutingRules_spec "ingress" "egress" (list string)
            kernel_deleteRule in_key_order in_key_order router_state "srv" "ingress" _).
  left. reflexivity.
Defined.

(** On that kernel the removal of peer A succeeds: the rule is deleted
    and A's entry leaves the table. *)
Example RemoveRoutingRules_run :
  snd (run_Remove router_state "srv" "ingress" "A") = None /\
  router.kernel _ (fst (run_Remove router_state "srv" "ingress" "A")) = [] /\
  run_Fetch (router.mgr _ (fst (run_Remove router_state "srv" "ingress" "A")))
    "srv" "ingress" !! "A" = None.
Proof. vm_compute. auto. Qed.
